(** * GimpTextureAtlas: the Cygon rectangle packer and [nearest_pow2]

    A shallow embedding of [gimpatlas.py]: the skyline ("height slice")
    rectangle packer [CygonRectanglePacker] with its helpers
    [binary_search] and [nearest_pow2].

    - Python integers are unbounded, so coordinates and sizes are [Z].
    - [heightSlices] is a Python list of [Point]s: a [list Point], read
      with stdpp's lookup; a subscript out of range raises [IndexError].
      Indices the code only counts upwards from 0 are [nat]; the two
      subscripts [i - 1] go through Python's rule for negative indices.
    - The packer object is mutated in place by [TryPack]; here a call
      returns its result together with the packer after the call.
    - A [Point] has no [__nonzero__] or [__len__], so [if placement:] asks
      whether the placement is [None].
    - [while] loops carry a step budget; [TryPack_no_fuel] shows that no
      call uses it up.
    - Of the plug-in [generate_atlas_and_map] the layout is modelled: the
      size rule, the loop over the layers and what it leaves behind. *)

From Stdlib Require Import ZArith Lia Bool.
From stdpp Require Import base list sorting.

Local Open Scope Z_scope.

(** ** Exceptions and the error monad *)

(** What a run of the Python code can end in besides a value: an
    [IndexError] of a list subscript, or a loop that is still running when
    the model's step budget is used up. *)
Inductive exn : Type :=
| IndexError
| OutOfFuel.

Inductive M (A : Type) : Type :=
| Ok (a : A)
| Raise (e : exn).

Arguments Ok {A} a.
Arguments Raise {A} e.

#[global] Instance M_bind : MBind M := fun A B k m =>
  match m with
  | Ok a => k a
  | Raise e => Raise e
  end.

(** ** Points *)

Record Point : Type := mkPoint { Point_x : Z; Point_y : Z }.

(** [Point.__cmp__]: compares the starting position of height slices. *)
Definition Point_cmp (self other : Point) : Z := Point_x self - Point_x other.

(** Python 2 derives [<] and [==] of a class with [__cmp__] from it. *)
Definition Point_lt (a b : Point) : bool := Point_cmp a b <? 0.
Definition Point_eq (a b : Point) : bool := Point_cmp a b =? 0.

(** ** Python lists *)

(** [a[i]] for an index the code keeps non-negative. *)
Definition getitem (a : list Point) (i : nat) : M Point :=
  match a !! i with
  | Some p => Ok p
  | None => Raise IndexError
  end.

(** [a[i]] for an arbitrary integer: a negative index counts from the end. *)
Definition getitem_int (a : list Point) (i : Z) : M Point :=
  let j := if i <? 0 then i + Z.of_nat (length a) else i in
  if j <? 0 then Raise IndexError else getitem a (Z.to_nat j).

(** [a[i] = p]. *)
Definition setitem (a : list Point) (i : nat) (p : Point) : M (list Point) :=
  if (i <? length a)%nat then Ok (<[i := p]> a) else Raise IndexError.

(** [a.insert(i, p)]: an index past the end appends. *)
Definition list_insert_at (a : list Point) (i : nat) (p : Point) : list Point :=
  take i a ++ p :: drop i a.

(** [del a[i:j]]: an empty slice when [j <= i]. *)
Definition del_slice (a : list Point) (i j : nat) : list Point :=
  take i a ++ drop (Nat.max i j) a.

(** ** [bisect.bisect_left] of Python's standard library

    [[
    while lo < hi:
        mid = (lo+hi)//2
        if a[mid] < x: lo = mid+1
        else: hi = mid
    return lo
    ]] *)
Fixpoint bisect_loop (fuel : nat) (a : list Point) (x : Point) (lo hi : nat)
  : M nat :=
  match fuel with
  | O => Raise OutOfFuel
  | S fuel' =>
      if (lo <? hi)%nat then
        let mid := ((lo + hi) / 2)%nat in
        am ← getitem a mid;
        if Point_lt am x then bisect_loop fuel' a x (mid + 1)%nat hi
        else bisect_loop fuel' a x lo mid
      else Ok lo
  end.

Definition bisect_left (a : list Point) (x : Point) (lo hi : nat) : M nat :=
  bisect_loop (S (hi - lo)) a x lo hi.

(** ** [binary_search] *)

Definition binary_search (a : list Point) (x : Point) (lo : nat)
    (hi : option nat) : M (nat * bool) :=
  (* %hi defaults to %len(a) *)
  let hi := match hi with None => length a | Some h => h end in
  (* Find insertion position *)
  pos ← bisect_left a x lo hi;
  (* 2nd element is True if %x was already in %a *)
  if negb (pos =? hi)%nat then
    ap ← getitem a pos;
    Ok (pos, Point_eq ap x)
  else Ok (pos, false).

(** ** [nearest_pow2] *)

(** The loop [while m: n = m; m = n & (n-1)], entered with [m = n & (n-1)];
    it returns the final [n]. *)
Fixpoint nearest_pow2_loop (fuel : nat) (n m : Z) : M Z :=
  match fuel with
  | O => Raise OutOfFuel
  | S fuel' =>
      if m =? 0 then Ok n
      else
        let n := m in
        let m := Z.land n (n - 1) in
        nearest_pow2_loop fuel' n m
  end.

Definition nearest_pow2_fuel (fuel : nat) (n : Z) : M Z :=
  let m := Z.land n (n - 1) in
  (* It's already pow2. Simply returns it. *)
  if m =? 0 then Ok n
  else
    let n := m in
    let m := Z.land n (n - 1) in
    n ← nearest_pow2_loop fuel n m;
    Ok (Z.shiftl n 1).

(** Every pass of the loop makes a positive [n] smaller, so [n] passes are
    enough for it. *)
Definition nearest_pow2 (n : Z) : M Z :=
  nearest_pow2_fuel (Z.to_nat n) n.

(** ** The packer *)

Record CygonRectanglePacker : Type := mkPacker {
  packingAreaWidth : Z;
  packingAreaHeight : Z;
  heightSlices : list Point
}.

(** [CygonRectanglePacker.__init__]: at the beginning, the packing area is
    a single slice of height 0. *)
Definition new_packer (packingAreaWidth packingAreaHeight : Z)
  : CygonRectanglePacker :=
  mkPacker packingAreaWidth packingAreaHeight ([] ++ [mkPoint 0 0]).

Definition set_heightSlices (self : CygonRectanglePacker) (s : list Point)
  : CygonRectanglePacker :=
  mkPacker (packingAreaWidth self) (packingAreaHeight self) s.

Section Search.

Variable self : CygonRectanglePacker.
Variables rectangleWidth rectangleHeight : Z.

Let slices := heightSlices self.

(** [for index in range(from, from + count)]: the highest slice in the
    window. *)
Fixpoint highest_loop (count from : nat) (highest : Z) : M Z :=
  match count with
  | O => Ok highest
  | S count' =>
      p ← getitem slices from;
      highest_loop count' (S from)
        (if Point_y p >? highest then Point_y p else highest)
  end.

(** The inner [while rightSliceIndex <= len(self.heightSlices)] loop:
    advance the ending slice. *)
Fixpoint advance_right (fuel : nat) (rightRectangleEnd : Z)
    (rightSliceIndex : nat) : M nat :=
  match fuel with
  | O => Raise OutOfFuel
  | S fuel' =>
      if (rightSliceIndex <=? length slices)%nat then
        rightSliceStart ←
          (if (rightSliceIndex =? length slices)%nat
           then Ok (packingAreaWidth self)
           else p ← getitem slices rightSliceIndex; Ok (Point_x p));
        (* Is this the slice we're looking for? *)
        if rightSliceStart >? rightRectangleEnd then Ok rightSliceIndex
        else advance_right fuel' rightRectangleEnd (S rightSliceIndex)
      else Ok rightSliceIndex
  end.

(** The outer [while rightSliceIndex <= len(self.heightSlices)] loop;
    it returns [(bestSliceIndex, bestSliceY)]. *)
Fixpoint search_loop (fuel : nat) (bestSliceIndex : option nat)
    (bestSliceY bestScore : Z) (leftSliceIndex rightSliceIndex : nat)
  : M (option nat * Z) :=
  match fuel with
  | O => Raise OutOfFuel
  | S fuel' =>
      if (rightSliceIndex <=? length slices)%nat then
        p ← getitem slices leftSliceIndex;
        highest ← highest_loop (rightSliceIndex - (leftSliceIndex + 1))
                     (leftSliceIndex + 1) (Point_y p);
        (* Only process this position if it doesn't leave the packing
           area *)
        let '(bestSliceIndex, bestSliceY, bestScore) :=
          if highest + rectangleHeight <? packingAreaHeight self then
            let score := highest in
            if score <? bestScore
            then (Some leftSliceIndex, highest, score)
            else (bestSliceIndex, bestSliceY, bestScore)
          else (bestSliceIndex, bestSliceY, bestScore) in
        (* Advance the starting slice to the next slice start *)
        let leftSliceIndex := (leftSliceIndex + 1)%nat in
        if (length slices <=? leftSliceIndex)%nat
        then Ok (bestSliceIndex, bestSliceY)
        else
          q ← getitem slices leftSliceIndex;
          let rightRectangleEnd := Point_x q + rectangleWidth in
          rightSliceIndex ←
            advance_right (S (S (length slices) - rightSliceIndex))
              rightRectangleEnd rightSliceIndex;
          (* If we crossed the end of the slice array, the rectangle's
             right end has left the packing area *)
          if (length slices <? rightSliceIndex)%nat
          then Ok (bestSliceIndex, bestSliceY)
          else search_loop fuel' bestSliceIndex bestSliceY bestScore
                 leftSliceIndex rightSliceIndex
      else Ok (bestSliceIndex, bestSliceY)
  end.

(** [CygonRectanglePacker.tryFindBestPlacement]. *)
Definition tryFindBestPlacement : M (option Point) :=
  let bestSliceIndex := None in
  let bestSliceY := 0 in
  let bestScore := packingAreaWidth self * packingAreaHeight self in
  let leftSliceIndex := 0%nat in
  rightSliceIndex ←
    bisect_left slices (mkPoint rectangleWidth 0) 0 (length slices);
  '(bestSliceIndex, bestSliceY) ←
    search_loop (S (length slices)) bestSliceIndex bestSliceY bestScore
      leftSliceIndex rightSliceIndex;
  match bestSliceIndex with
  | None => Ok None
  | Some i =>
      p ← getitem slices i;
      Ok (Some (mkPoint (Point_x p) bestSliceY))
  end.

End Search.

(** [CygonRectanglePacker.integrateRectangle]; the result is the new
    [heightSlices]. *)
Definition integrateRectangle (self : CygonRectanglePacker)
    (left width bottom : Z) : M (list Point) :=
  let slices := heightSlices self in
  (* Find the first slice that is touched by the rectangle *)
  '(startSlice, hit) ← binary_search slices (mkPoint left 0) 0 None;
  '(firstSliceOriginalHeight, slices) ←
    (if hit : bool then
       p ← getitem slices startSlice;
       slices' ← setitem slices startSlice (mkPoint left bottom);
       Ok (Point_y p, slices')
     else
       p ← getitem_int slices (Z.of_nat startSlice - 1);
       Ok (Point_y p, list_insert_at slices startSlice (mkPoint left bottom)));
  let right := left + width in
  let startSlice := (startSlice + 1)%nat in
  if (length slices <=? startSlice)%nat then
    if right <? packingAreaWidth self
    then Ok (slices ++ [mkPoint right firstSliceOriginalHeight])
    else Ok slices
  else
    '(endSlice, hit) ←
      binary_search slices (mkPoint right 0) startSlice (Some (length slices));
    if hit : bool then Ok (del_slice slices startSlice endSlice)
    else
      returnHeight ←
        (if (endSlice =? startSlice)%nat then Ok firstSliceOriginalHeight
         else p ← getitem_int slices (Z.of_nat endSlice - 1);
              Ok (Point_y p));
      let slices := del_slice slices startSlice endSlice in
      if right <? packingAreaWidth self
      then Ok (list_insert_at slices startSlice (mkPoint right returnHeight))
      else Ok slices.

(** [CygonRectanglePacker.TryPack]: the placement (or [None]) and the
    packer after the call. *)
Definition TryPack (self : CygonRectanglePacker)
    (rectangleWidth rectangleHeight : Z)
  : M (option Point * CygonRectanglePacker) :=
  if (rectangleWidth >? packingAreaWidth self)
     || (rectangleHeight >? packingAreaHeight self)
  then Ok (None, self)
  else
    placement ← tryFindBestPlacement self rectangleWidth rectangleHeight;
    match placement with
    | Some p =>
        slices' ← integrateRectangle self (Point_x p) rectangleWidth
                     (Point_y p + rectangleHeight);
        Ok (placement, set_heightSlices self slices')
    | None => Ok (placement, self)
    end.

(** [RectanglePacker.Pack]: the location at which the rectangle has been
    placed, or [OutOfSpaceError] raised when [TryPack] gave nothing. *)
Inductive Pack_result : Type :=
| Placed (point : Point)
| OutOfSpaceError.

Definition Pack (self : CygonRectanglePacker)
    (rectangleWidth rectangleHeight : Z)
  : M (Pack_result * CygonRectanglePacker) :=
  '(point, self') ← TryPack self rectangleWidth rectangleHeight;
  match point with
  | None => Ok (OutOfSpaceError, self')
  | Some p => Ok (Placed p, self')
  end.

(** ** The plug-in: [generate_atlas_and_map]

    The part of the plug-in that decides the layout: the size handed to
    the packer, the loop over the layers, the rows collected for the map
    file and the layers as the loop leaves them.  The calls into GIMP that
    only report (messages, the progress bar) have no counterpart; of a
    layer the record keeps what the loop reads and writes.  Layer names
    are byte strings GIMP keeps in UTF-8; decoding them is a function
    given from outside. *)

Section Plugin.

Variables Name UName : Type.
Variable decode : Name -> UName.

Record Layer : Type := mkLayer {
  Layer_width : Z;
  Layer_height : Z;
  Layer_visible : bool;
  Layer_offsets : Z * Z;
  Layer_name : Name
}.

Record TextureRect : Type := mkTextureRect {
  TextureRect_x : Z;
  TextureRect_y : Z;
  TextureRect_width : Z;
  TextureRect_height : Z;
  TextureRect_name : UName
}.

(** [layer.visible = True]. *)
Definition set_visible (layer : Layer) : Layer :=
  mkLayer (Layer_width layer) (Layer_height layer) true
    (Layer_offsets layer) (Layer_name layer).

(** [pdb.gimp_layer_translate(layer, offx, offy)] moves the layer by the
    given offsets. *)
Definition gimp_layer_translate (layer : Layer) (offx offy : Z) : Layer :=
  mkLayer (Layer_width layer) (Layer_height layer) (Layer_visible layer)
    (fst (Layer_offsets layer) + offx, snd (Layer_offsets layer) + offy)
    (Layer_name layer).

(** The loop [for layer,i in zip(tmp_img.layers, range(layer_len))]:
    [None] is the [return] after a layer that could not be packed;
    otherwise the layers as the loop leaves them, the rows and the
    packer. *)
Fixpoint pack_layers (only_visible : bool) (pad : Z) (layers : list Layer)
    (rect_packer : CygonRectanglePacker) (tex_rects : list TextureRect)
  : M (option (list Layer * list TextureRect * CygonRectanglePacker)) :=
  match layers with
  | [] => Ok (Some ([], tex_rects, rect_packer))
  | layer :: layers' =>
      let layer :=
        if negb (Layer_visible layer || only_visible)
        then set_visible layer else layer in
      if Layer_visible layer then
        (* Actual rectangle + padding *)
        '(pos, rect_packer) ←
          TryPack rect_packer (Layer_width layer + pad)
            (Layer_height layer + pad);
        match pos with
        | Some pos =>
            (* Register packing position, texture size, and texture name. *)
            let tex_rects :=
              tex_rects ++
              [mkTextureRect (Point_x pos) (Point_y pos)
                 (Layer_width layer) (Layer_height layer)
                 (decode (Layer_name layer))] in
            (* Move the texture to its packing position. *)
            let '(offx, offy) := Layer_offsets layer in
            let layer :=
              gimp_layer_translate layer (Point_x pos - offx)
                (Point_y pos - offy) in
            r ← pack_layers only_visible pad layers' rect_packer tex_rects;
            Ok (match r with
                | Some (ls, trs, pk) => Some (layer :: ls, trs, pk)
                | None => None
                end)
        | None => Ok None
        end
      else
        r ← pack_layers only_visible pad layers' rect_packer tex_rects;
        Ok (match r with
            | Some (ls, trs, pk) => Some (layer :: ls, trs, pk)
            | None => None
            end)
  end.

(** [generate_atlas_and_map] up to the end of the loop: [None] when the
    run was aborted, otherwise the size [(img_w, img_h)] computed for the
    image and handed to the packer (the image is resized to it when [trim]
    is off), the layers and the rows of the map file. *)
Definition generate_atlas_and_map (layers : list Layer)
    (only_visible pow2 : bool) (max_w max_h pad : Z)
  : M (option (Z * Z * list Layer * list TextureRect)) :=
  img_w ← (if pow2 then nearest_pow2 max_w else Ok max_w);
  img_h ← (if pow2 then nearest_pow2 max_h else Ok max_h);
  (* Prepare a rectangle packer. *)
  let rect_packer := new_packer img_w img_h in
  r ← pack_layers only_visible pad layers rect_packer [];
  Ok (match r with
      | Some (ls, trs, _) => Some (img_w, img_h, ls, trs)
      | None => None
      end).

End Plugin.

Arguments mkLayer {Name}.
Arguments Layer_width {Name}.
Arguments Layer_height {Name}.
Arguments Layer_visible {Name}.
Arguments Layer_offsets {Name}.
Arguments Layer_name {Name}.
Arguments mkTextureRect {UName}.
Arguments TextureRect_x {UName}.
Arguments TextureRect_y {UName}.
Arguments TextureRect_width {UName}.
Arguments TextureRect_height {UName}.
Arguments TextureRect_name {UName}.
Arguments set_visible {Name}.
Arguments gimp_layer_translate {Name}.
Arguments pack_layers {Name UName}.
Arguments generate_atlas_and_map {Name UName}.

(** * Specification vocabulary *)

(** [n] is a power of two. *)
Definition is_pow2 (n : Z) : Prop := exists k : Z, 0 <= k /\ n = 2 ^ k.

(** The order of the breakpoints: by starting position. *)
Definition Point_before (p q : Point) : Prop := Point_x p < Point_x q.

#[global] Instance Point_before_dec (p q : Point)
  : Decision (Point_before p q) := Z_lt_dec (Point_x p) (Point_x q).

(** The breakpoints' x-values are strictly increasing. *)
Definition strictly_increasing (s : list Point) : Prop :=
  StronglySorted Point_before s.

(** The profile begins with a breakpoint at [x = 0]. *)
Definition starts_at_zero (s : list Point) : Prop :=
  exists p : Point, s !! 0%nat = Some p /\ Point_x p = 0.

(** Where the span of breakpoint [i] ends: at the next breakpoint, or at
    the right edge of the area for the last one. *)
Definition slice_end (W : Z) (s : list Point) (i : nat) : Z :=
  match s !! S i with
  | Some q => Point_x q
  | None => W
  end.

(** Column [c] lies in the span of breakpoint [i]. *)
Definition in_span (W : Z) (s : list Point) (i : nat) (c : Z) : Prop :=
  exists p : Point, s !! i = Some p /\ Point_x p <= c < slice_end W s i.

(** Every column of the area lies in exactly one span. *)
Definition covers (W : Z) (s : list Point) : Prop :=
  forall c : Z, 0 <= c < W ->
    exists i : nat, in_span W s i c /\ forall j : nat, in_span W s j c -> j = i.

(** The silhouette height of column [c]: the height of the last breakpoint
    that starts at or before [c]. *)
Definition height_step (c : Z) (cur : Z) (p : Point) : Z :=
  if Point_x p <=? c then Point_y p else cur.

Definition height_from (c : Z) (cur : Z) (s : list Point) : Z :=
  fold_left (height_step c) s cur.

Definition height_at (s : list Point) (c : Z) : Z := height_from c 0 s.

(** The structural invariant the proofs carry: a non-empty strictly
    increasing profile from [x = 0] whose breakpoints all start inside
    the area. *)
Record profile_wf (W : Z) (s : list Point) : Prop := mk_profile_wf {
  wf_zero : starts_at_zero s;
  wf_incr : strictly_increasing s;
  wf_inside : Forall (fun p => Point_x p < W) s
}.

(** Breakpoints in order, two of them possibly at the same x: what is
    left of the order when a rectangle of width 0 is put in. *)
Definition Point_not_after (p q : Point) : Prop := Point_x p <= Point_x q.

Definition non_decreasing (s : list Point) : Prop :=
  StronglySorted Point_not_after s.

(** What the search and the integration need of a profile: it begins at
    [x = 0], is in order, and no breakpoint starts beyond the area. *)
Record profile_ok (W : Z) (s : list Point) : Prop := mk_profile_ok {
  ok_zero : starts_at_zero s;
  ok_order : non_decreasing s;
  ok_inside : Forall (fun p => Point_x p <= W) s
}.

(** The coverage invariant of the profile, with the height bound. *)
Definition profile_invariant (W H : Z) (s : list Point) : Prop :=
  strictly_increasing s /\ starts_at_zero s /\ covers W s /\
  Forall (fun p => Point_y p <= H) s.

(** The profile states a packer of area [W] x [H] can be in: the initial
    one, and the one after a [TryPack] call for a rectangle of positive
    width that returned (with or without a placement). *)
Inductive reachable (W H : Z) : CygonRectanglePacker -> Prop :=
| reachable_new : reachable W H (new_packer W H)
| reachable_TryPack self w h r self' :
    reachable W H self -> 0 < w ->
    TryPack self w h = Ok (r, self') ->
    reachable W H self'.

(** A committed rectangle: where it was placed and the size requested. *)
Record Rect : Type := mkRect { Rect_x : Z; Rect_y : Z; Rect_w : Z; Rect_h : Z }.

(** The cell [(cx, cy)] lies in the box [x, x+w) x [y, y+h). *)
Definition in_box (r : Rect) (cx cy : Z) : Prop :=
  Rect_x r <= cx < Rect_x r + Rect_w r /\
  Rect_y r <= cy < Rect_y r + Rect_h r.

Definition boxes_disjoint (r1 r2 : Rect) : Prop :=
  forall cx cy : Z, in_box r1 cx cy -> in_box r2 cx cy -> False.

Definition pairwise_disjoint (rs : list Rect) : Prop :=
  forall (i j : nat) (r1 r2 : Rect),
    i <> j -> rs !! i = Some r1 -> rs !! j = Some r2 -> boxes_disjoint r1 r2.

(** A sequence of [TryPack] calls on one packer, each given as
    [(width, height)]: the rectangles committed by the successful calls,
    in call order, and the packer at the end. *)
Fixpoint TryPack_all (self : CygonRectanglePacker) (calls : list (Z * Z))
  : M (list Rect * CygonRectanglePacker) :=
  match calls with
  | [] => Ok ([], self)
  | (w, h) :: calls' =>
      '(placement, self') ← TryPack self w h;
      '(rects, self'') ← TryPack_all self' calls';
      Ok (match placement with
          | Some p => mkRect (Point_x p) (Point_y p) w h :: rects
          | None => rects
          end, self'')
  end.

(** A request for a rectangle proper: positive width, no negative
    height. *)
Definition proper_call (c : Z * Z) : Prop := 0 < fst c /\ 0 <= snd c.

(** A request with sizes that are no negative numbers. *)
Definition sized_call (c : Z * Z) : Prop := 0 <= fst c /\ 0 <= snd c.

(** The rectangle ends inside the area and sits on or above the
    silhouette of [self] over its whole span. *)
Definition above_skyline (self : CygonRectanglePacker) (r : Rect) : Prop :=
  Rect_x r + Rect_w r <= packingAreaWidth self /\
  forall c : Z, Rect_x r <= c < Rect_x r + Rect_w r ->
    height_at (heightSlices self) c <= Rect_y r.

(** What the search knows about its best candidate, on any profile: it
    is a slice of the profile, its bottom edge stays strictly inside the
    area, and its top is the height of some slice. *)
Definition candidate_ok (self : CygonRectanglePacker) (h : Z)
    (best : option nat) (bestY : Z) : Prop :=
  forall i : nat, best = Some i ->
    is_Some (heightSlices self !! i) /\
    bestY + h < packingAreaHeight self /\
    exists q, q ∈ heightSlices self /\ bestY = Point_y q.

(** The window [leftSliceIndex, rightSliceIndex) holds every slice that
    starts under a rectangle of width [w] put at the left slice, and that
    rectangle ends inside the area. *)
Definition window_ok (self : CygonRectanglePacker) (w : Z)
    (left right : nat) : Prop :=
  exists pl : Point,
    heightSlices self !! left = Some pl /\
    Point_x pl + w <= packingAreaWidth self /\
    forall (j : nat) (q : Point),
      heightSlices self !! j = Some q ->
      Point_x q < Point_x pl + w -> (j < right)%nat.

(** The best candidate is a slice start at which the rectangle ends
    inside the area, and its top clears every column under it. *)
Definition placement_ok (self : CygonRectanglePacker) (w : Z)
    (best : option nat) (bestY : Z) : Prop :=
  forall i : nat, best = Some i ->
    exists p : Point,
      heightSlices self !! i = Some p /\
      Point_x p + w <= packingAreaWidth self /\
      forall c : Z, Point_x p <= c < Point_x p + w ->
        height_at (heightSlices self) c <= bestY.

(** The second half of [integrateRectangle], from [right = left + width]
    on: [slices] is the list after the first slice was replaced or
    inserted, [startSlice] is already advanced. *)
Definition integrate_tail (W : Z) (slices : list Point) (startSlice : nat)
    (firstSliceOriginalHeight right : Z) : M (list Point) :=
  if (length slices <=? startSlice)%nat then
    if right <? W
    then Ok (slices ++ [mkPoint right firstSliceOriginalHeight])
    else Ok slices
  else
    '(endSlice, hit) ←
      binary_search slices (mkPoint right 0) startSlice (Some (length slices));
    if hit : bool then Ok (del_slice slices startSlice endSlice)
    else
      returnHeight ←
        (if (endSlice =? startSlice)%nat then Ok firstSliceOriginalHeight
         else p ← getitem_int slices (Z.of_nat endSlice - 1);
              Ok (Point_y p));
      let slices := del_slice slices startSlice endSlice in
      if right <? W
      then Ok (list_insert_at slices startSlice (mkPoint right returnHeight))
      else Ok slices.

(** Whether the breakpoint the search stops at starts exactly at [key]. *)
Definition head_hits (key : Z) (B : list Point) : bool :=
  match B with
  | q :: _ => Point_x q =? key
  | [] => false
  end.

(** What the profile looks like right of a rectangle that ends at [right]:
    [C] are the breakpoints at or after [right], [ret] the height to
    return to. *)
Definition close_tail (W right ret : Z) (C : list Point) : list Point :=
  match C with
  | q :: _ =>
      if Point_x q =? right then C
      else if right <? W then mkPoint right ret :: C else C
  | [] => if right <? W then [mkPoint right ret] else []
  end.

(** The height of the last breakpoint of [B], or [d] when [B] is empty. *)
Definition last_height (d : Z) (B : list Point) : Z :=
  match last B with
  | Some p => Point_y p
  | None => d
  end.

(** The upper end of the search: [hi], or the length of the list. *)
Definition search_end (a : list Point) (hi : option nat) : nat :=
  match hi with
  | None => length a
  | Some h => h
  end.

(** The committed rectangle lies inside the area, its bottom edge
    strictly so. *)
Definition inside_area (W H : Z) (r : Rect) : Prop :=
  0 <= Rect_x r /\ 0 <= Rect_y r /\
  Rect_x r + Rect_w r <= W /\ Rect_y r + Rect_h r < H.

(** The upper silhouette of a set of rectangles over column [c]: the
    highest bottom edge [y + h] among the rectangles whose span holds [c],
    and 0 where there is none. *)
Definition raise_over (c : Z) (cur : Z) (r : Rect) : Z :=
  if (Rect_x r <=? c) && (c <? Rect_x r + Rect_w r)
  then Z.max cur (Rect_y r + Rect_h r)
  else cur.

Definition skyline (rects : list Rect) (c : Z) : Z :=
  fold_left (raise_over c) rects 0.

(** ** The plug-in *)

(** The layer is packed: it is visible, or hidden layers are asked for
    too. *)
Definition processed {Name : Type} (only_visible : bool) (layer : Layer Name)
  : bool :=
  Layer_visible layer || negb only_visible.

(** The requests the loop makes of the packer: the packed layers, each
    with the padding added to both sides. *)
Definition calls_of {Name : Type} (only_visible : bool) (pad : Z)
    (layers : list (Layer Name)) : list (Z * Z) :=
  List.map (fun l => (Layer_width l + pad, Layer_height l + pad))
    (List.filter (processed only_visible) layers).

(** A layer GIMP can hold: at least one pixel each way. *)
Definition proper_layer {Name : Type} (layer : Layer Name) : Prop :=
  0 < Layer_width layer /\ 0 < Layer_height layer.

(** The row records the place of the committed rectangle and the size
    without the padding. *)
Definition placed_as {UName : Type} (pad : Z) (t : TextureRect UName)
    (r : Rect) : Prop :=
  TextureRect_x t = Rect_x r /\ TextureRect_y t = Rect_y r /\
  TextureRect_width t + pad = Rect_w r /\
  TextureRect_height t + pad = Rect_h r.

(** The layer sits where the row says, and the row has its size and its
    decoded name. *)
Definition row_of {Name UName : Type} (decode : Name -> UName)
    (l : Layer Name) (t : TextureRect UName) : Prop :=
  Layer_offsets l = (TextureRect_x t, TextureRect_y t) /\
  Layer_width l = TextureRect_width t /\
  Layer_height l = TextureRect_height t /\
  decode (Layer_name l) = TextureRect_name t.

(** What the loop does to one layer: size and name stay, it is visible
    afterwards exactly if it was packed, and a layer left hidden is left
    as it was. *)
Definition layer_after {Name : Type} (only_visible : bool)
    (l l' : Layer Name) : Prop :=
  Layer_width l' = Layer_width l /\ Layer_height l' = Layer_height l /\
  Layer_name l' = Layer_name l /\
  Layer_visible l' = processed only_visible l /\
  (Layer_visible l' = false -> l' = l).

(** The texture with its padding lies inside the image. *)
Definition inside_image {UName : Type} (img_w img_h pad : Z)
    (t : TextureRect UName) : Prop :=
  0 <= TextureRect_x t /\ 0 <= TextureRect_y t /\
  TextureRect_x t + TextureRect_width t + pad <= img_w /\
  TextureRect_y t + TextureRect_height t + pad < img_h.

(** Two textures are at least [pad] apart, across or down. *)
Definition separated {UName : Type} (pad : Z) (t1 t2 : TextureRect UName)
  : Prop :=
  TextureRect_x t1 + TextureRect_width t1 + pad <= TextureRect_x t2 \/
  TextureRect_x t2 + TextureRect_width t2 + pad <= TextureRect_x t1 \/
  TextureRect_y t1 + TextureRect_height t1 + pad <= TextureRect_y t2 \/
  TextureRect_y t2 + TextureRect_height t2 + pad <= TextureRect_y t1.

(** A sample image: four layers named by numbers, the second hidden. *)
Definition sample_layers : list (Layer nat) :=
  [mkLayer 4 3 true (7, 7) 1%nat; mkLayer 2 2 false (5, 5) 2%nat;
   mkLayer 4 3 true (1, 1) 3%nat; mkLayer 9 2 true (0, 0) 4%nat].

(** The layers of the sample as a run with [only_visible], [pow2],
    preferred size 10x10 and padding 1 leaves them, and its rows. *)
Definition sample_layers_after : list (Layer nat) :=
  [mkLayer 4 3 true (0, 0) 1%nat; mkLayer 2 2 false (5, 5) 2%nat;
   mkLayer 4 3 true (5, 0) 3%nat; mkLayer 9 2 true (0, 4) 4%nat].

Definition sample_rows : list (TextureRect nat) :=
  [mkTextureRect 0 0 4 3 1%nat; mkTextureRect 5 0 4 3 3%nat;
   mkTextureRect 0 4 9 2 4%nat].

(** * Proofs *)

(** ** The error monad *)

Lemma bind_Ok {A B : Type} (m : M A) (k : A -> M B) (b : B) :
  m ≫= k = Ok b -> exists a, m = Ok a /\ k a = Ok b.
Proof.
  destruct m as [a|e]; simpl; [eauto | discriminate].
Qed.

Lemma bind_Ok_l {A B : Type} (a : A) (k : A -> M B) : Ok a ≫= k = k a.
Proof. reflexivity. Qed.

Tactic Notation "inv_bind" hyp(H) "as" ident(a) ident(Ha) :=
  apply bind_Ok in H; destruct H as (a & Ha & H).

(** ** [nearest_pow2] *)

Lemma land_le_l (a b : Z) : 0 <= a -> Z.land a b <= a.
Proof.
  intros Ha.
  assert (Hd : Z.land (Z.ldiff a b) (Z.land a b) = 0).
  { apply Z.bits_inj'. intros i Hi.
    rewrite !Z.land_spec, Z.ldiff_spec, Z.bits_0.
    destruct (Z.testbit a i), (Z.testbit b i); reflexivity. }
  pose proof (Z.add_lor_land (Z.ldiff a b) (Z.land a b)) as Hs.
  rewrite Z.lor_ldiff_and, Hd in Hs.
  assert (0 <= Z.ldiff a b) by (apply Z.ldiff_nonneg; auto).
  lia.
Qed.

(** Clearing the lowest set bit of a power of two leaves nothing. *)
Lemma land_pred_pow2 (k : Z) : 0 <= k -> Z.land (2 ^ k) (2 ^ k - 1) = 0.
Proof.
  intros Hk.
  replace (2 ^ k - 1) with (Z.ones k) by (rewrite Z.ones_equiv; lia).
  rewrite Z.land_ones by assumption.
  apply Z.mod_same. apply Z.pow_nonzero; lia.
Qed.

(** Clearing the lowest set bit of any other positive number keeps its
    highest bit. *)
Lemma land_pred_keeps_top (n : Z) :
  0 < n -> n <> 2 ^ Z.log2 n ->
  2 ^ Z.log2 n <= Z.land n (n - 1) < n /\
  Z.log2 (Z.land n (n - 1)) = Z.log2 n.
Proof.
  intros Hn Hne.
  pose proof (Z.log2_spec n Hn) as [Hlo Hhi].
  pose proof (Z.log2_nonneg n) as HL.
  assert (Hlog1 : Z.log2 (n - 1) = Z.log2 n).
  { apply Z.log2_unique; [assumption | lia]. }
  assert (Hbit : Z.testbit (Z.land n (n - 1)) (Z.log2 n) = true).
  { rewrite Z.land_spec, Z.bit_log2 by assumption.
    rewrite <- Hlog1. rewrite Z.bit_log2 by lia. reflexivity. }
  assert (Hnn : 0 <= Z.land n (n - 1)) by (apply Z.land_nonneg; lia).
  assert (Hge : 2 ^ Z.log2 n <= Z.land n (n - 1)).
  { destruct (Z_lt_le_dec (Z.land n (n - 1)) (2 ^ Z.log2 n)) as [Hlt|]; [|lia].
    exfalso.
    assert (Hz : Z.testbit (Z.land n (n - 1)) (Z.log2 n) = false).
    { destruct (Z.eq_dec (Z.land n (n - 1)) 0) as [->|Hnz].
      - apply Z.bits_0.
      - apply Z.bits_above_log2; [assumption|].
        apply Z.log2_lt_pow2; lia. }
    congruence. }
  assert (Hup : Z.land n (n - 1) <= n - 1).
  { rewrite Z.land_comm. apply land_le_l. lia. }
  split; [lia|].
  apply Z.log2_unique; [assumption | lia].
Qed.

Lemma land_pred_zero (n : Z) :
  0 < n -> Z.land n (n - 1) = 0 -> n = 2 ^ Z.log2 n.
Proof.
  intros Hn Hz.
  destruct (Z.eq_dec n (2 ^ Z.log2 n)) as [|Hne]; [assumption|].
  pose proof (land_pred_keeps_top n Hn Hne) as [[Hge _] _].
  pose proof (Z.log2_nonneg n).
  assert (0 < 2 ^ Z.log2 n) by (apply Z.pow_pos_nonneg; lia).
  lia.
Qed.

(** The loop strips set bits until only the highest one is left. *)
Lemma nearest_pow2_loop_spec (fuel : nat) :
  forall n : Z,
    0 < n -> (Z.to_nat n <= fuel)%nat ->
    nearest_pow2_loop fuel n (Z.land n (n - 1)) = Ok (2 ^ Z.log2 n).
Proof.
  induction fuel as [|fuel IH]; intros n Hn Hfuel; [lia|].
  simpl.
  destruct (Z.eqb_spec (Z.land n (n - 1)) 0) as [Hz|Hnz].
  - f_equal. apply land_pred_zero; assumption.
  - assert (Hne : n <> 2 ^ Z.log2 n).
    { intros Heq. apply Hnz. rewrite Heq at 1 2.
      rewrite land_pred_pow2 by apply Z.log2_nonneg. reflexivity. }
    pose proof (land_pred_keeps_top n Hn Hne) as [[Hge Hlt] Hlog].
    assert (0 < 2 ^ Z.log2 n)
      by (apply Z.pow_pos_nonneg; [lia | apply Z.log2_nonneg]).
    rewrite IH by lia.
    rewrite Hlog. reflexivity.
Qed.

Lemma nearest_pow2_value (n : Z) :
  1 <= n ->
  nearest_pow2 n =
    Ok (if n =? 2 ^ Z.log2 n then n else 2 ^ (Z.log2 n + 1)).
Proof.
  intros Hn. unfold nearest_pow2, nearest_pow2_fuel.
  pose proof (Z.log2_nonneg n) as HL.
  destruct (Z.eqb_spec (Z.land n (n - 1)) 0) as [Hz|Hnz].
  - rewrite (proj2 (Z.eqb_eq _ _) (land_pred_zero n ltac:(lia) Hz)).
    reflexivity.
  - assert (Hne : n <> 2 ^ Z.log2 n).
    { intros Heq. apply Hnz. rewrite Heq at 1 2.
      rewrite land_pred_pow2 by assumption. reflexivity. }
    pose proof (land_pred_keeps_top n ltac:(lia) Hne) as [[Hge Hlt] Hlog].
    assert (0 < 2 ^ Z.log2 n) by (apply Z.pow_pos_nonneg; lia).
    rewrite nearest_pow2_loop_spec by lia.
    rewrite (proj2 (Z.eqb_neq _ _) Hne).
    simpl. f_equal.
    rewrite Z.shiftl_mul_pow2 by lia.
    rewrite Hlog, Z.pow_add_r by lia. lia.
Qed.

(** C9: for every integer [n >= 1], [nearest_pow2 n] returns the smallest
    power of two that is greater than or equal to [n]: the result is a
    power of two, it is at least [n], and no power of two that is at least
    [n] is smaller; when [n] is itself a power of two the result is [n]. *)
Theorem nearest_pow2_smallest_pow2_geq (n : Z) :
  1 <= n ->
  exists r : Z,
    nearest_pow2 n = Ok r /\ is_pow2 r /\ n <= r /\
    (forall q : Z, is_pow2 q -> n <= q -> r <= q) /\
    (is_pow2 n -> r = n).
Proof.
  intros Hn.
  pose proof (Z.log2_nonneg n) as HL.
  pose proof (Z.log2_spec n ltac:(lia)) as [Hlo Hhi].
  rewrite nearest_pow2_value by assumption.
  destruct (Z.eqb_spec n (2 ^ Z.log2 n)) as [Heq|Hne].
  - exists n. split; [reflexivity|].
    split; [exists (Z.log2 n); auto|].
    split; [lia|]. split; [intros; assumption | reflexivity].
  - exists (2 ^ (Z.log2 n + 1)). split; [reflexivity|].
    split; [exists (Z.log2 n + 1); split; [lia | reflexivity]|].
    replace (Z.succ (Z.log2 n)) with (Z.log2 n + 1) in Hhi by lia.
    split; [lia|]. split.
    + intros q (k & Hk & ->) Hq.
      apply Z.pow_le_mono_r; [lia|].
      destruct (Z_lt_le_dec k (Z.log2 n + 1)) as [Hlt|]; [|assumption].
      exfalso.
      assert (2 ^ k <= 2 ^ Z.log2 n) by (apply Z.pow_le_mono_r; lia).
      lia.
    + intros (k & Hk & Hnk). exfalso. apply Hne.
      rewrite Hnk at 2. rewrite Z.log2_pow2 by assumption. exact Hnk.
Qed.

Lemma nearest_pow2_smallest_pow2_geq_witness :
  1 <= 1000 /\
  exists r : Z,
    nearest_pow2 1000 = Ok r /\ is_pow2 r /\ 1000 <= r /\
    (forall q : Z, is_pow2 q -> 1000 <= q -> r <= q) /\
    (is_pow2 1000 -> r = 1000).
Proof.
  split; [lia | apply (nearest_pow2_smallest_pow2_geq 1000); lia].
Defined.

Example nearest_pow2_1000 : nearest_pow2 1000 = Ok 1024.
Proof. reflexivity. Qed.

Example nearest_pow2_4096 : nearest_pow2 4096 = Ok 4096.
Proof. vm_compute. reflexivity. Qed.

(** ** Python lists *)

Lemma getitem_Ok (a : list Point) (i : nat) (p : Point) :
  getitem a i = Ok p <-> a !! i = Some p.
Proof.
  unfold getitem. destruct (a !! i); split; intros H; congruence.
Qed.

Lemma getitem_lookup (a : list Point) (i : nat) (p : Point) :
  a !! i = Some p -> getitem a i = Ok p.
Proof. apply getitem_Ok. Qed.

Lemma getitem_int_pred (a : list Point) (n i : nat) (p : Point) :
  a !! i = Some p -> n = S i -> getitem_int a (Z.of_nat n - 1) = Ok p.
Proof.
  intros Hp ->. unfold getitem_int.
  destruct (Z.ltb_spec (Z.of_nat (S i) - 1) 0) as [|_]; [lia|].
  destruct (Z.ltb_spec (Z.of_nat (S i) - 1) 0) as [|_]; [lia|].
  replace (Z.to_nat (Z.of_nat (S i) - 1)) with i by lia.
  apply getitem_lookup, Hp.
Qed.

(** ** Strictly increasing profiles *)

Lemma si_cons (p : Point) (s : list Point) :
  strictly_increasing (p :: s) <->
  Forall (Point_before p) s /\ strictly_increasing s.
Proof. apply StronglySorted_cons. Qed.

Lemma si_app (s1 s2 : list Point) :
  strictly_increasing (s1 ++ s2) <->
  (forall p q, p ∈ s1 -> q ∈ s2 -> Point_before p q) /\
  strictly_increasing s1 /\ strictly_increasing s2.
Proof. apply StronglySorted_app. Qed.

Lemma si_lookup (s : list Point) (i j : nat) (p q : Point) :
  strictly_increasing s ->
  s !! i = Some p -> s !! j = Some q -> (i < j)%nat ->
  Point_x p < Point_x q.
Proof.
  intros Hs Hi Hj Hlt.
  rewrite <- (take_drop j s) in Hs.
  apply si_app in Hs as (Hcross & _ & _).
  apply Hcross.
  - apply list_elem_of_lookup. exists i.
    rewrite lookup_take_lt by assumption. exact Hi.
  - apply list_elem_of_lookup. exists 0%nat.
    rewrite lookup_drop, Nat.add_0_r. exact Hj.
Qed.

Lemma si_lookup_le (s : list Point) (i j : nat) (p q : Point) :
  strictly_increasing s ->
  s !! i = Some p -> s !! j = Some q -> (i <= j)%nat ->
  Point_x p <= Point_x q.
Proof.
  intros Hs Hi Hj Hle.
  destruct (decide (i = j)) as [->|Hne].
  - assert (p = q) by congruence. subst. lia.
  - pose proof (si_lookup s i j p q Hs Hi Hj ltac:(lia)). lia.
Qed.

(** A strictly increasing list splits at any key into the breakpoints
    before it and those at or after it. *)
Lemma si_partition (key : Z) (s : list Point) :
  strictly_increasing s ->
  exists A B : list Point,
    s = A ++ B /\
    Forall (fun p => Point_x p < key) A /\
    Forall (fun p => key <= Point_x p) B.
Proof.
  induction s as [|p s IH]; intros Hs.
  - exists [], []. repeat split; constructor.
  - apply si_cons in Hs as [Hp Hs].
    destruct (Z_lt_le_dec (Point_x p) key) as [Hlt|Hle].
    + destruct (IH Hs) as (A & B & -> & HA & HB).
      exists (p :: A), B. repeat split; [constructor|]; assumption.
    + exists [], (p :: s). repeat split; [constructor|].
      constructor; [assumption|].
      eapply Forall_impl; [exact Hp|].
      intros q Hq. unfold Point_before in Hq. lia.
Qed.

(** ** Profiles in order *)

Lemma nd_cons (p : Point) (s : list Point) :
  non_decreasing (p :: s) <->
  Forall (Point_not_after p) s /\ non_decreasing s.
Proof. apply StronglySorted_cons. Qed.

Lemma nd_app (s1 s2 : list Point) :
  non_decreasing (s1 ++ s2) <->
  (forall p q, p ∈ s1 -> q ∈ s2 -> Point_not_after p q) /\
  non_decreasing s1 /\ non_decreasing s2.
Proof. apply StronglySorted_app. Qed.

Lemma si_nd (s : list Point) : strictly_increasing s -> non_decreasing s.
Proof.
  induction s as [|p s IH]; intros Hs; [constructor|].
  apply si_cons in Hs as [Hp Hs]. apply nd_cons. split; [|auto].
  eapply Forall_impl; [exact Hp|].
  unfold Point_before, Point_not_after. intros; lia.
Qed.

Lemma nd_lookup_le (s : list Point) (i j : nat) (p q : Point) :
  non_decreasing s ->
  s !! i = Some p -> s !! j = Some q -> (i <= j)%nat ->
  Point_x p <= Point_x q.
Proof.
  intros Hs Hi Hj Hle.
  destruct (decide (i = j)) as [->|Hne].
  { assert (p = q) by congruence. subst. lia. }
  rewrite <- (take_drop j s) in Hs.
  apply nd_app in Hs as (Hcross & _ & _).
  apply Hcross.
  - apply list_elem_of_lookup. exists i.
    rewrite lookup_take_lt by lia. exact Hi.
  - apply list_elem_of_lookup. exists 0%nat.
    rewrite lookup_drop, Nat.add_0_r. exact Hj.
Qed.

(** A profile in order splits at any key into the breakpoints before it
    and those at or after it. *)
Lemma nd_partition (key : Z) (s : list Point) :
  non_decreasing s ->
  exists A B : list Point,
    s = A ++ B /\
    Forall (fun p => Point_x p < key) A /\
    Forall (fun p => key <= Point_x p) B.
Proof.
  induction s as [|p s IH]; intros Hs.
  - exists [], []. repeat split; constructor.
  - apply nd_cons in Hs as [Hp Hs].
    destruct (Z_lt_le_dec (Point_x p) key) as [Hlt|Hle].
    + destruct (IH Hs) as (A & B & -> & HA & HB).
      exists (p :: A), B. repeat split; [constructor|]; assumption.
    + exists [], (p :: s). repeat split; [constructor|].
      constructor; [assumption|].
      eapply Forall_impl; [exact Hp|].
      intros q Hq. unfold Point_not_after in Hq. lia.
Qed.

Lemma wf_ok (W : Z) (s : list Point) : profile_wf W s -> profile_ok W s.
Proof.
  intros [Hzero Hsi Hin]. split; [exact Hzero | apply si_nd, Hsi |].
  eapply Forall_impl; [exact Hin|]. simpl. intros; lia.
Qed.

Lemma ok_nonneg (W : Z) (s : list Point) (p : Point) :
  profile_ok W s -> p ∈ s -> 0 <= Point_x p.
Proof.
  intros [(p0 & Hp0 & Hx0) Hnd _] Hp.
  apply list_elem_of_lookup in Hp as [i Hi].
  pose proof (nd_lookup_le s 0 i p0 p Hnd Hp0 Hi ltac:(lia)). lia.
Qed.

(** ** [bisect_left] and [binary_search] *)

Lemma bisect_loop_S (fuel : nat) (a : list Point) (x : Point) (lo hi : nat) :
  bisect_loop (S fuel) a x lo hi =
    if (lo <? hi)%nat then
      am ← getitem a ((lo + hi) / 2)%nat;
      if Point_lt am x then bisect_loop fuel a x ((lo + hi) / 2 + 1)%nat hi
      else bisect_loop fuel a x lo ((lo + hi) / 2)%nat
    else Ok lo.
Proof. reflexivity. Qed.

(** On a range that is split into a part before the key and a part at or
    after it, the bisection finds the split. *)
Lemma bisect_loop_partition (P A B : list Point) (key : Point) :
  Forall (fun p => Point_x p < Point_x key) A ->
  Forall (fun p => Point_x key <= Point_x p) B ->
  forall (fuel lo hi : nat),
    (length P <= lo <= length P + length A)%nat ->
    (length P + length A <= hi <= length (P ++ A ++ B))%nat ->
    (hi - lo < fuel)%nat ->
    bisect_loop fuel (P ++ A ++ B) key lo hi = Ok (length P + length A)%nat.
Proof.
  intros HA HB.
  induction fuel as [|fuel IH]; intros lo hi Hlo Hhi Hfuel; [lia|].
  rewrite !length_app in Hhi.
  rewrite bisect_loop_S.
  destruct (Nat.ltb_spec lo hi) as [Hlt|Hge]; [|f_equal; lia].
  set (mid := ((lo + hi) / 2)%nat).
  assert (Hmid : (lo <= mid < hi)%nat).
  { subst mid. split.
    - apply Nat.div_le_lower_bound; lia.
    - apply Nat.Div0.div_lt_upper_bound; lia. }
  destruct (decide (mid < length P + length A)%nat) as [HinA|HinB].
  - assert (Hlk : exists p, (P ++ A ++ B) !! mid = Some p /\ p ∈ A).
    { destruct (lookup_lt_is_Some_2 A (mid - length P)) as [p Hp]; [lia|].
      exists p. split; [|eapply list_elem_of_lookup_2; exact Hp].
      rewrite lookup_app_r by lia.
      rewrite lookup_app_l by lia. exact Hp. }
    destruct Hlk as (p & Hp & HpA).
    rewrite (getitem_lookup _ _ _ Hp), bind_Ok_l.
    rewrite Forall_forall in HA. specialize (HA p HpA).
    unfold Point_lt, Point_cmp.
    destruct (Z.ltb_spec (Point_x p - Point_x key) 0) as [_|]; [|lia].
    apply IH; rewrite ?length_app; lia.
  - assert (Hlk : exists p, (P ++ A ++ B) !! mid = Some p /\ p ∈ B).
    { destruct (lookup_lt_is_Some_2 B (mid - length P - length A)) as [p Hp];
        [lia|].
      exists p. split; [|eapply list_elem_of_lookup_2; exact Hp].
      rewrite lookup_app_r by lia.
      rewrite lookup_app_r by lia. exact Hp. }
    destruct Hlk as (p & Hp & HpB).
    rewrite (getitem_lookup _ _ _ Hp), bind_Ok_l.
    rewrite Forall_forall in HB. specialize (HB p HpB).
    unfold Point_lt, Point_cmp.
    destruct (Z.ltb_spec (Point_x p - Point_x key) 0) as [|_]; [lia|].
    apply IH; rewrite ?length_app; lia.
Qed.

Lemma binary_search_partition (P A B : list Point) (key : Z)
    (hi : option nat) :
  Forall (fun p => Point_x p < key) A ->
  Forall (fun p => key <= Point_x p) B ->
  hi = None \/ hi = Some (length (P ++ A ++ B)) ->
  binary_search (P ++ A ++ B) (mkPoint key 0) (length P) hi =
    Ok ((length P + length A)%nat, head_hits key B).
Proof.
  intros HA HB Hhi. unfold binary_search.
  replace (match hi with None => length (P ++ A ++ B) | Some h => h end)
    with (length (P ++ A ++ B)) by (destruct Hhi as [->| ->]; reflexivity).
  unfold bisect_left.
  rewrite (bisect_loop_partition P A B (mkPoint key 0) HA HB);
    rewrite ?length_app; try lia.
  simpl.
  destruct B as [|q B'].
  - simpl. rewrite Nat.add_0_r.
    rewrite Nat.eqb_refl. reflexivity.
  - destruct (Nat.eqb_spec (length P + length A)
                (length P + (length A + length (q :: B')))) as [Heq|_];
      [simpl in Heq; lia|].
    simpl negb. cbv iota.
    assert (Hq : (P ++ A ++ q :: B') !! (length P + length A)%nat = Some q).
    { rewrite lookup_app_r by lia. rewrite lookup_app_r by lia.
      replace (length P + length A - length P - length A)%nat with 0%nat
        by lia.
      reflexivity. }
    rewrite (getitem_lookup _ _ _ Hq). simpl.
    unfold Point_eq, Point_cmp. simpl.
    f_equal. f_equal.
    destruct (Z.eqb_spec (Point_x q - key) 0), (Z.eqb_spec (Point_x q) key);
      (reflexivity || lia).
Qed.

(** ** Heights *)

Lemma last_height_snoc (d : Z) (B : list Point) (p : Point) :
  last_height d (B ++ [p]) = Point_y p.
Proof. unfold last_height. rewrite last_snoc. reflexivity. Qed.

Lemma last_height_app (d : Z) (X Y : list Point) :
  last_height d (X ++ Y) = last_height (last_height d X) Y.
Proof.
  destruct Y as [|q Y] using rev_ind.
  - rewrite app_nil_r. reflexivity.
  - rewrite app_assoc, !last_height_snoc. reflexivity.
Qed.

Lemma last_height_cons (d : Z) (p : Point) (B : list Point) :
  last_height d (p :: B) = last_height (Point_y p) B.
Proof.
  change (p :: B) with ([p] ++ B).
  rewrite last_height_app. reflexivity.
Qed.

(** The height to return to is the height of one of the breakpoints. *)
Lemma last_height_elem (d : Z) (B : list Point) :
  B <> [] -> exists p, p ∈ B /\ last_height d B = Point_y p.
Proof.
  destruct B as [|q B] using rev_ind; [congruence|]. intros _.
  exists q. split; [apply elem_of_app; right; constructor|].
  apply last_height_snoc.
Qed.

Lemma height_from_app (c cur : Z) (X Y : list Point) :
  height_from c cur (X ++ Y) = height_from c (height_from c cur X) Y.
Proof. apply fold_left_app. Qed.

Lemma height_from_cons (c cur : Z) (p : Point) (Y : list Point) :
  height_from c cur (p :: Y) = height_from c (height_step c cur p) Y.
Proof. reflexivity. Qed.

(** Breakpoints right of the column do not count. *)
Lemma height_from_right (c cur : Z) (X : list Point) :
  Forall (fun p => c < Point_x p) X -> height_from c cur X = cur.
Proof.
  induction 1 as [|p X Hp _ IH]; [reflexivity|].
  rewrite height_from_cons. unfold height_step at 1.
  destruct (Z.leb_spec (Point_x p) c); [lia | exact IH].
Qed.

(** Of the breakpoints at or left of the column, the last one counts. *)
Lemma height_from_left (c cur : Z) (X : list Point) :
  Forall (fun p => Point_x p <= c) X ->
  height_from c cur X = last_height cur X.
Proof.
  intros HX. revert cur.
  induction HX as [|p X Hp _ IH]; intros cur; [reflexivity|].
  rewrite height_from_cons, last_height_cons, IH. unfold height_step.
  destruct (Z.leb_spec (Point_x p) c); [reflexivity | lia].
Qed.

Lemma height_from_head (c cur cur' : Z) (q : Point) (Y : list Point) :
  Point_x q <= c ->
  height_from c cur (q :: Y) = height_from c cur' (q :: Y).
Proof.
  intros Hq. rewrite !height_from_cons. unfold height_step.
  destruct (Z.leb_spec (Point_x q) c); [reflexivity | lia].
Qed.

(** ** [integrateRectangle] *)

Lemma del_slice_app (P B C : list Point) :
  del_slice (P ++ B ++ C) (length P) (length P + length B) = P ++ C.
Proof.
  unfold del_slice.
  rewrite take_app_length.
  replace (Nat.max (length P) (length P + length B))
    with (length P + length B)%nat by lia.
  rewrite drop_app_add', drop_app_length by reflexivity.
  reflexivity.
Qed.

Lemma list_insert_at_app (P C : list Point) (p : Point) :
  list_insert_at (P ++ C) (length P) p = P ++ p :: C.
Proof.
  unfold list_insert_at.
  rewrite take_app_length, drop_app_length. reflexivity.
Qed.

Lemma integrateRectangle_unfold (self : CygonRectanglePacker)
    (left width bottom : Z) :
  integrateRectangle self left width bottom =
    '(startSlice, hit) ←
      binary_search (heightSlices self) (mkPoint left 0) 0 None;
    '(firstSliceOriginalHeight, slices) ←
      (if hit : bool then
         p ← getitem (heightSlices self) startSlice;
         slices' ← setitem (heightSlices self) startSlice
                     (mkPoint left bottom);
         Ok (Point_y p, slices')
       else
         p ← getitem_int (heightSlices self) (Z.of_nat startSlice - 1);
         Ok (Point_y p,
             list_insert_at (heightSlices self) startSlice
               (mkPoint left bottom)));
    integrate_tail (packingAreaWidth self) slices (startSlice + 1)
      firstSliceOriginalHeight (left + width).
Proof. reflexivity. Qed.

(** The height to return to at the right end of the rectangle. *)
Lemma return_height_lookup (P B C : list Point) (orig : Z) :
  (if (length P + length B =? length P)%nat then Ok orig
   else p ← getitem_int (P ++ B ++ C) (Z.of_nat (length P + length B) - 1);
        Ok (Point_y p))
  = Ok (last_height orig B).
Proof.
  destruct B as [|b B' _] using rev_ind.
  - change (length []) with 0%nat.
    rewrite Nat.add_0_r, Nat.eqb_refl. reflexivity.
  - rewrite last_height_snoc, length_app. change (length [b]) with 1%nat.
    destruct (Nat.eqb_spec (length P + (length B' + 1)) (length P)) as [|_];
      [lia|].
    rewrite (getitem_int_pred _ _ (length P + length B') b);
      [reflexivity| |lia].
    rewrite lookup_app_r by lia.
    rewrite <- app_assoc, lookup_app_r by lia.
    replace (length P + length B' - length P - length B')%nat with 0%nat
      by lia.
    reflexivity.
Qed.

(** The second half, on a list already split at the rectangle's right
    end: [B] is covered by the rectangle, [C] lies beyond it. *)
Lemma integrate_tail_shape (W orig right : Z) (A B C : list Point)
    (lb : Point) :
  Forall (fun p => Point_x p < right) B ->
  Forall (fun p => right <= Point_x p) C ->
  integrate_tail W (A ++ lb :: B ++ C) (length A + 1) orig right =
    Ok (A ++ lb :: close_tail W right (last_height orig B) C).
Proof.
  intros HB HC. unfold integrate_tail.
  assert (Hlen : length (A ++ lb :: B ++ C)
                 = (length A + 1 + (length B + length C))%nat).
  { rewrite length_app. simpl. rewrite length_app. lia. }
  destruct (Nat.leb_spec (length (A ++ lb :: B ++ C)) (length A + 1))
    as [Hshort|Hlong].
  - assert (B = []) as -> by (apply length_zero_iff_nil; lia).
    assert (C = []) as -> by (apply length_zero_iff_nil; lia).
    simpl. destruct (right <? W); [|reflexivity].
    rewrite <- app_assoc. reflexivity.
  - assert (Hre : A ++ lb :: B ++ C = (A ++ [lb]) ++ B ++ C)
      by (rewrite <- app_assoc; reflexivity).
    assert (HlenP : length (A ++ [lb]) = (length A + 1)%nat)
      by (rewrite length_app; reflexivity).
    rewrite Hre at 1 2. rewrite <- HlenP at 1.
    rewrite (binary_search_partition (A ++ [lb]) B C right _ HB HC)
      by (right; reflexivity).
    rewrite bind_Ok_l.
    destruct (head_hits right C) eqn:Hhit.
    + destruct C as [|q C']; [discriminate|]. simpl in Hhit.
      rewrite Hre, <- HlenP, del_slice_app.
      simpl. rewrite Hhit. rewrite <- app_assoc. reflexivity.
    + pose proof (return_height_lookup (A ++ [lb]) B C orig) as Hret.
      rewrite <- Hre, HlenP in Hret. rewrite HlenP.
      rewrite Hret, bind_Ok_l.
      rewrite Hre, <- HlenP, del_slice_app, list_insert_at_app.
      destruct C as [|q C'].
      * simpl. rewrite app_nil_r.
        destruct (right <? W); rewrite <- ?app_assoc; reflexivity.
      * simpl in Hhit. simpl. rewrite Hhit.
        destruct (right <? W); rewrite <- ?app_assoc; reflexivity.
Qed.

(** [integrateRectangle] on a profile split at the rectangle's two ends:
    [A] lies left of it, [Mid] starts under it, [C] lies beyond it.  Both
    ways of starting (on a breakpoint, inside a slice) and every way of
    ending give the same picture. *)
Lemma integrateRectangle_shape (self : CygonRectanglePacker)
    (left width bottom : Z) (A Mid C : list Point) :
  heightSlices self = A ++ Mid ++ C ->
  starts_at_zero (heightSlices self) ->
  0 <= left -> 0 < width ->
  Forall (fun p => Point_x p < left) A ->
  Forall (fun p => left <= Point_x p < left + width) Mid ->
  Forall (fun p => left + width <= Point_x p) C ->
  integrateRectangle self left width bottom =
    Ok (A ++ mkPoint left bottom ::
          close_tail (packingAreaWidth self) (left + width)
            (last_height 0 (A ++ Mid)) C).
Proof.
  intros Hs Hzero Hleft Hwidth HA HMid HC.
  rewrite integrateRectangle_unfold. rewrite Hs in Hzero |- *.
  assert (HMC : Forall (fun p => left <= Point_x p) (Mid ++ C)).
  { apply Forall_app. split.
    - eapply Forall_impl; [exact HMid|]. simpl. intros; lia.
    - eapply Forall_impl; [exact HC|]. simpl. intros; lia. }
  assert (HB : forall B, B `suffix_of` Mid ->
                 Forall (fun p => Point_x p < left + width) B).
  { intros B [B' ->]. apply Forall_app in HMid as [_ HMid].
    eapply Forall_impl; [exact HMid|]. simpl. intros; lia. }
  pose proof (binary_search_partition [] A (Mid ++ C) left None HA HMC
                (or_introl eq_refl)) as Hbs.
  change ([] ++ A ++ Mid ++ C) with (A ++ Mid ++ C) in Hbs.
  change (length [] + length A)%nat with (length A) in Hbs.
  change (length (@nil Point)) with 0%nat in Hbs.
  rewrite Hbs, bind_Ok_l. cbv beta iota. clear Hbs.
  destruct (head_hits left (Mid ++ C)) eqn:Hhit.
  - (* direct hit on an existing slice start *)
    assert (HMidq : exists q B, Mid = q :: B /\ Point_x q = left).
    { destruct Mid as [|q B].
      - destruct C as [|q C']; [discriminate|].
        simpl in Hhit. apply Forall_cons in HC as [Hq _].
        apply Z.eqb_eq in Hhit. lia.
      - exists q, B. simpl in Hhit. apply Z.eqb_eq in Hhit. auto. }
    destruct HMidq as (q & B & -> & Hq).
    assert (Hlk : (A ++ (q :: B) ++ C) !! length A = Some q).
    { rewrite lookup_app_r by lia. rewrite Nat.sub_diag. reflexivity. }
    rewrite (getitem_lookup _ _ _ Hlk), bind_Ok_l.
    unfold setitem.
    destruct (Nat.ltb_spec (length A) (length (A ++ (q :: B) ++ C)))
      as [_|Hge]; [|rewrite length_app in Hge; simpl in Hge; lia].
    rewrite !bind_Ok_l. cbv beta iota.
    replace (<[length A := mkPoint left bottom]> (A ++ (q :: B) ++ C))
      with (A ++ mkPoint left bottom :: B ++ C).
    2:{ rewrite insert_app_r_alt by lia. rewrite Nat.sub_diag. reflexivity. }
    rewrite integrate_tail_shape; try assumption.
    + rewrite (last_height_app 0 A (q :: B)), last_height_cons. reflexivity.
    + apply HB. exists [q]. reflexivity.
  - (* the rectangle starts inside another slice *)
    assert (HAne : exists A' a, A = A' ++ [a]).
    { destruct A as [|a0 A0] using rev_ind; [|eauto].
      exfalso. destruct Hzero as (p0 & Hp0 & Hx0).
      destruct Mid as [|q B].
      - destruct C as [|q C']; [discriminate|].
        simpl in Hp0. injection Hp0 as <-.
        apply Forall_cons in HC as [Hq _]. lia.
      - simpl in Hp0. injection Hp0 as <-.
        simpl in Hhit. apply Z.eqb_neq in Hhit.
        apply Forall_cons in HMid as [Hq _]. lia. }
    destruct HAne as (A' & a & ->).
    rewrite (getitem_int_pred _ _ (length A') a).
    2:{ rewrite <- app_assoc. rewrite lookup_app_r by lia.
        rewrite Nat.sub_diag. reflexivity. }
    2:{ rewrite length_app. simpl. lia. }
    rewrite !bind_Ok_l. cbv beta iota. rewrite list_insert_at_app.
    rewrite integrate_tail_shape; try assumption.
    + rewrite (last_height_app 0 (A' ++ [a]) Mid), last_height_snoc.
      reflexivity.
    + apply HB. reflexivity.
Qed.

(** *** The profile right of the rectangle *)

Section CloseTail.

Variables W right ret : Z.
Variable C : list Point.
Hypothesis HC : Forall (fun p => right <= Point_x p) C.
Hypothesis HCnd : non_decreasing C.

(** Either the profile continues as it was (with a breakpoint that starts
    exactly at [right], or the rectangle ends at the right edge of the
    area), or a breakpoint is put at [right]. *)
Lemma close_tail_cases :
  close_tail W right ret C = C \/
  close_tail W right ret C = mkPoint right ret :: C /\
  Forall (fun p => right < Point_x p) C /\ right < W.
Proof.
  unfold close_tail. destruct C as [|q C'] eqn:HeqC.
  - destruct (Z.ltb_spec right W); [right | left; reflexivity].
    repeat split; [constructor | assumption].
  - destruct (Z.eqb_spec (Point_x q) right) as [|Hne];
      [left; reflexivity|].
    destruct (Z.ltb_spec right W) as [HrW|]; [right | left; reflexivity].
    split; [reflexivity|].
    apply Forall_cons in HC as [Hq _].
    apply nd_cons in HCnd as [Hq' _].
    split; [|exact HrW].
    constructor; [lia|].
    eapply Forall_impl; [exact Hq'|].
    unfold Point_not_after. simpl. intros; lia.
Qed.

Lemma close_tail_ge :
  Forall (fun p => right <= Point_x p) (close_tail W right ret C).
Proof.
  destruct close_tail_cases as [-> | (-> & _ & _)]; [assumption|].
  constructor; [simpl; lia | assumption].
Qed.

Lemma close_tail_si :
  strictly_increasing C -> strictly_increasing (close_tail W right ret C).
Proof.
  intros HCsi.
  destruct close_tail_cases as [-> | (-> & Hgt & _)]; [assumption|].
  apply si_cons. split; [|assumption].
  eapply Forall_impl; [exact Hgt|]. unfold Point_before. simpl. auto.
Qed.

Lemma close_tail_nd : non_decreasing (close_tail W right ret C).
Proof.
  destruct close_tail_cases as [-> | (-> & Hgt & _)]; [assumption|].
  apply nd_cons. split; [|assumption].
  eapply Forall_impl; [exact Hgt|].
  unfold Point_not_after. simpl. intros; lia.
Qed.

Lemma close_tail_inside :
  Forall (fun p => Point_x p < W) C ->
  Forall (fun p => Point_x p < W) (close_tail W right ret C).
Proof.
  intros HCW.
  destruct close_tail_cases as [-> | (-> & _ & HW)]; [assumption|].
  constructor; assumption.
Qed.

Lemma close_tail_heights (H : Z) :
  ret <= H -> Forall (fun p => Point_y p <= H) C ->
  Forall (fun p => Point_y p <= H) (close_tail W right ret C).
Proof.
  intros Hret HCH.
  destruct close_tail_cases as [-> | (-> & _ & _)]; [assumption|].
  constructor; assumption.
Qed.

(** Seen from a column at or right of [right], the new tail gives the
    height the old profile had there. *)
Lemma close_tail_height_from (c cur : Z) :
  right <= c < W ->
  height_from c cur (close_tail W right ret C) = height_from c ret C.
Proof.
  intros Hc. unfold close_tail. destruct C as [|q C'].
  - destruct (Z.ltb_spec right W); [|lia].
    simpl. unfold height_step. simpl.
    destruct (Z.leb_spec right c); [reflexivity | lia].
  - destruct (Z.eqb_spec (Point_x q) right) as [Heq|Hne].
    + apply height_from_head. lia.
    + destruct (Z.ltb_spec right W); [|lia].
      rewrite height_from_cons. unfold height_step at 1. simpl.
      destruct (Z.leb_spec right c); [reflexivity | lia].
Qed.

End CloseTail.

(** *** What [integrateRectangle] establishes *)

(** A strictly increasing profile splits at the two ends of a
    rectangle. *)
Lemma si_split3 (left right : Z) (s : list Point) :
  strictly_increasing s -> left <= right ->
  exists A Mid C : list Point,
    s = A ++ Mid ++ C /\
    Forall (fun p => Point_x p < left) A /\
    Forall (fun p => left <= Point_x p < right) Mid /\
    Forall (fun p => right <= Point_x p) C.
Proof.
  intros Hs Hlr.
  destruct (si_partition left s Hs) as (A & R & -> & HA & HR).
  apply si_app in Hs as (_ & _ & HRsi).
  destruct (si_partition right R HRsi) as (Mid & C & -> & HMid & HC).
  exists A, Mid, C. repeat split; try assumption.
  apply Forall_app in HR as [HR _].
  rewrite Forall_forall in HR, HMid |- *.
  intros p Hp. specialize (HR p Hp). specialize (HMid p Hp). simpl in *. lia.
Qed.

Section IntegrateShape.

Variables W left width bottom : Z.
Variables A Mid C : list Point.

Let s := A ++ Mid ++ C.
Let right := left + width.
Let s' := A ++ mkPoint left bottom ::
            close_tail W right (last_height 0 (A ++ Mid)) C.

Hypothesis Hzero : starts_at_zero s.
Hypothesis Hsi : strictly_increasing s.
Hypothesis Hleft : 0 <= left.
Hypothesis Hwidth : 0 < width.
Hypothesis HA : Forall (fun p => Point_x p < left) A.
Hypothesis HMid : Forall (fun p => left <= Point_x p < left + width) Mid.
Hypothesis HC : Forall (fun p => left + width <= Point_x p) C.

Lemma shape_parts :
  strictly_increasing A /\ strictly_increasing C /\ non_decreasing C.
Proof.
  pose proof Hsi as Hsi'. subst s.
  apply si_app in Hsi' as (_ & HAsi & Hsi').
  apply si_app in Hsi' as (_ & _ & HCsi).
  auto using si_nd.
Qed.

(** Some breakpoint starts left of the rectangle's right end: the one
    at [x = 0]. *)
Lemma shape_before_nonempty : A ++ Mid <> [].
Proof.
  destruct Hzero as (p0 & Hp0 & Hx0). subst s.
  intros Hnil. apply app_eq_nil in Hnil as [-> ->].
  simpl in Hp0. destruct C as [|q C']; [discriminate|].
  simpl in Hp0. injection Hp0 as <-.
  apply Forall_cons in HC as [Hq _]. lia.
Qed.

Lemma shape_zero : starts_at_zero s'.
Proof.
  pose proof shape_before_nonempty as Hne.
  destruct Hzero as (p0 & Hp0 & Hx0). subst s s'.
  destruct A as [|a A'].
  - exists (mkPoint left bottom). split; [reflexivity|]. simpl.
    destruct Mid as [|q B].
    + exfalso. apply Hne. reflexivity.
    + simpl in Hp0. injection Hp0 as <-.
      apply Forall_cons in HMid as [Hq _]. lia.
  - exists p0. split; [exact Hp0 | exact Hx0].
Qed.

Lemma shape_si : strictly_increasing s'.
Proof.
  destruct shape_parts as (HAsi & HCsi & HCnd).
  pose proof (close_tail_ge W right (last_height 0 (A ++ Mid)) C HC HCnd)
    as Hge.
  subst s'. apply si_app. split; [|split].
  - intros p q Hp Hq. unfold Point_before.
    pose proof HA as HA'. rewrite Forall_forall in HA'. specialize (HA' p Hp).
    apply elem_of_cons in Hq as [->|Hq]; [simpl; lia|].
    rewrite Forall_forall in Hge. specialize (Hge q Hq).
    subst right. simpl in Hge. lia.
  - exact HAsi.
  - apply si_cons. split.
    + eapply Forall_impl; [exact Hge|].
      unfold Point_before. subst right. simpl. intros; lia.
    + apply close_tail_si; assumption.
Qed.

Lemma shape_inside :
  left + width <= W ->
  Forall (fun p => Point_x p < W) s -> Forall (fun p => Point_x p < W) s'.
Proof.
  intros Hright Hin.
  destruct shape_parts as (HAsi & HCsi & HCnd).
  subst s s'.
  apply Forall_app in Hin as [HAin Hin].
  apply Forall_app in Hin as [_ HCin].
  apply Forall_app. split; [exact HAin|].
  constructor; [simpl; lia|].
  apply close_tail_inside; assumption.
Qed.

Lemma shape_heights (H : Z) :
  Forall (fun p => Point_y p <= H) s -> bottom <= H ->
  Forall (fun p => Point_y p <= H) s'.
Proof.
  intros Hs Hb.
  destruct shape_parts as (HAsi & HCsi & HCnd).
  pose proof shape_before_nonempty as Hne.
  subst s s'.
  assert (Hret : last_height 0 (A ++ Mid) <= H).
  { destruct (last_height_elem 0 (A ++ Mid) Hne)
      as (p & Hp & ->).
    rewrite app_assoc in Hs. apply Forall_app in Hs as [Hs _].
    rewrite Forall_forall in Hs. apply Hs, Hp. }
  apply Forall_app in Hs as [HsA Hs]. apply Forall_app in Hs as [_ HsC].
  apply Forall_app. split; [exact HsA|].
  constructor; [exact Hb|].
  apply close_tail_heights; assumption.
Qed.

(** The silhouette after the call: [bottom] under the rectangle, the
    old height elsewhere. *)
Lemma shape_height_at (c : Z) :
  c < W ->
  height_at s' c =
    if (left <=? c) && (c <? left + width) then bottom else height_at s c.
Proof.
  intros HcW.
  destruct shape_parts as (HAsi & HCsi & HCnd).
  pose proof (close_tail_ge W right (last_height 0 (A ++ Mid)) C HC HCnd)
    as Hge.
  unfold height_at. subst s s'.
  rewrite !height_from_app, height_from_cons.
  destruct (Z.leb_spec left c) as [Hlc|Hcl]; simpl andb.
  - destruct (Z.ltb_spec c (left + width)) as [Hcr|Hrc].
    + (* under the rectangle *)
      unfold height_step at 1. simpl.
      destruct (Z.leb_spec left c); [|lia].
      apply height_from_right.
      eapply Forall_impl; [exact Hge|]. subst right. simpl. intros; lia.
    + (* right of the rectangle *)
      rewrite (close_tail_height_from W right _ C HC HCnd)
        by (subst right; lia).
      f_equal.
      rewrite <- height_from_app. symmetry.
      apply height_from_left.
      apply Forall_app. split.
      * eapply Forall_impl; [exact HA|]. simpl. intros; lia.
      * eapply Forall_impl; [exact HMid|]. simpl. intros; lia.
  - (* left of the rectangle *)
    unfold height_step at 1. simpl.
    destruct (Z.leb_spec left c); [lia|].
    rewrite height_from_right.
    2:{ eapply Forall_impl; [exact Hge|]. subst right. simpl. intros; lia. }
    rewrite <- height_from_app. symmetry. apply height_from_right.
    apply Forall_app. split.
    + eapply Forall_impl; [exact HMid|]. simpl. intros; lia.
    + eapply Forall_impl; [exact HC|]. simpl. intros; lia.
Qed.

End IntegrateShape.

Lemma integrateRectangle_spec (self : CygonRectanglePacker)
    (left width bottom : Z) :
  starts_at_zero (heightSlices self) ->
  strictly_increasing (heightSlices self) ->
  0 <= left -> 0 < width ->
  exists s' : list Point,
    integrateRectangle self left width bottom = Ok s' /\
    starts_at_zero s' /\ strictly_increasing s' /\
    (left + width <= packingAreaWidth self ->
     Forall (fun p => Point_x p < packingAreaWidth self) (heightSlices self) ->
     Forall (fun p => Point_x p < packingAreaWidth self) s') /\
    (forall H : Z,
       Forall (fun p => Point_y p <= H) (heightSlices self) ->
       bottom <= H -> Forall (fun p => Point_y p <= H) s') /\
    (forall c : Z,
       c < packingAreaWidth self ->
       height_at s' c =
         if (left <=? c) && (c <? left + width) then bottom
         else height_at (heightSlices self) c).
Proof.
  intros Hzero Hsi Hleft Hwidth.
  destruct (si_split3 left (left + width) (heightSlices self))
    as (A & Mid & C & Hs & HA & HMid & HC); [assumption | lia |].
  eexists. split.
  - apply (integrateRectangle_shape self left width bottom A Mid C);
      assumption.
  - rewrite Hs in *.
    split; [|split; [|split; [|split]]].
    + apply shape_zero; assumption.
    + apply shape_si; assumption.
    + apply shape_inside; assumption.
    + intros H. apply shape_heights; assumption.
    + intros c. apply shape_height_at; assumption.
Qed.

(** *** A rectangle that starts on a breakpoint, of any width *)

(** A profile in order splits at one of its breakpoints and at a key
    right of it; [q] is the first breakpoint that starts where [q0]
    does. *)
Lemma nd_split_hit (right : Z) (s : list Point) (q0 : Point) :
  non_decreasing s -> q0 ∈ s -> Point_x q0 <= right ->
  exists (A : list Point) (q : Point) (B C : list Point),
    s = A ++ q :: B ++ C /\
    Forall (fun p => Point_x p < Point_x q0) A /\
    Point_x q = Point_x q0 /\
    Forall (fun p => Point_x q0 <= Point_x p < right) B /\
    Forall (fun p => right <= Point_x p) C.
Proof.
  intros Hnd Hq0 Hlr.
  destruct (nd_partition (Point_x q0) s Hnd) as (A & R & -> & HA & HR).
  apply nd_app in Hnd as (_ & _ & HRnd).
  destruct R as [|q R'].
  { exfalso. rewrite app_nil_r in Hq0. rewrite Forall_forall in HA.
    specialize (HA q0 Hq0). simpl in HA. lia. }
  apply Forall_cons in HR as [Hq HR].
  apply nd_cons in HRnd as [HqR HR'nd].
  assert (Hqx : Point_x q = Point_x q0).
  { apply elem_of_app in Hq0 as [Hq0|Hq0].
    - rewrite Forall_forall in HA. specialize (HA q0 Hq0). simpl in HA. lia.
    - apply elem_of_cons in Hq0 as [->|Hq0]; [reflexivity|].
      rewrite Forall_forall in HqR. specialize (HqR q0 Hq0).
      unfold Point_not_after in HqR. lia. }
  destruct (nd_partition right R' HR'nd) as (B & C & -> & HB & HC).
  exists A, q, B, C. repeat split; try assumption.
  apply Forall_app in HR as [HR _].
  rewrite Forall_forall in HR, HB |- *.
  intros p Hp. specialize (HR p Hp). specialize (HB p Hp). simpl in *. lia.
Qed.

(** The direct hit, for any width from 0 on: the slice that is hit is
    replaced, the slices that start under the rectangle go, and the
    profile returns to the height of the last of them. *)
Lemma integrateRectangle_hit_shape (self : CygonRectanglePacker)
    (left width bottom : Z) (A B C : list Point) (q : Point) :
  heightSlices self = A ++ q :: B ++ C ->
  0 <= width ->
  Forall (fun p => Point_x p < left) A ->
  Point_x q = left ->
  Forall (fun p => left <= Point_x p < left + width) B ->
  Forall (fun p => left + width <= Point_x p) C ->
  integrateRectangle self left width bottom =
    Ok (A ++ mkPoint left bottom ::
          close_tail (packingAreaWidth self) (left + width)
            (last_height (Point_y q) B) C).
Proof.
  intros Hs Hwidth HA Hq HB HC.
  rewrite integrateRectangle_unfold, Hs.
  assert (HR : Forall (fun p => left <= Point_x p) (q :: B ++ C)).
  { constructor; [lia|]. apply Forall_app. split.
    - eapply Forall_impl; [exact HB|]. simpl. intros; lia.
    - eapply Forall_impl; [exact HC|]. simpl. intros; lia. }
  pose proof (binary_search_partition [] A (q :: B ++ C) left None HA HR
                (or_introl eq_refl)) as Hbs.
  change ([] ++ A ++ q :: B ++ C) with (A ++ q :: B ++ C) in Hbs.
  change (length [] + length A)%nat with (length A) in Hbs.
  change (length (@nil Point)) with 0%nat in Hbs.
  rewrite Hbs, bind_Ok_l. cbv beta iota. clear Hbs.
  unfold head_hits. rewrite (proj2 (Z.eqb_eq _ _) Hq).
  assert (Hlk : (A ++ q :: B ++ C) !! length A = Some q).
  { rewrite lookup_app_r by lia. rewrite Nat.sub_diag. reflexivity. }
  rewrite (getitem_lookup _ _ _ Hlk), bind_Ok_l.
  unfold setitem.
  destruct (Nat.ltb_spec (length A) (length (A ++ q :: B ++ C)))
    as [_|Hge]; [|rewrite length_app in Hge; simpl in Hge; lia].
  rewrite !bind_Ok_l. cbv beta iota.
  replace (<[length A := mkPoint left bottom]> (A ++ q :: B ++ C))
    with (A ++ mkPoint left bottom :: B ++ C).
  2:{ rewrite insert_app_r_alt by lia. rewrite Nat.sub_diag. reflexivity. }
  apply integrate_tail_shape; [|assumption].
  eapply Forall_impl; [exact HB|]. simpl. intros; lia.
Qed.

Section IntegrateHit.

Variables W left width bottom : Z.
Variables A B C : list Point.
Variable q : Point.

Let s := A ++ q :: B ++ C.
Let right := left + width.
Let s' := A ++ mkPoint left bottom ::
            close_tail W right (last_height (Point_y q) B) C.

Hypothesis Hzero : starts_at_zero s.
Hypothesis Hnd : non_decreasing s.
Hypothesis Hwidth : 0 <= width.
Hypothesis HA : Forall (fun p => Point_x p < left) A.
Hypothesis Hq : Point_x q = left.
Hypothesis HB : Forall (fun p => left <= Point_x p < left + width) B.
Hypothesis HC : Forall (fun p => left + width <= Point_x p) C.

Lemma hit_parts : non_decreasing A /\ non_decreasing C.
Proof.
  pose proof Hnd as Hnd'. subst s.
  apply nd_app in Hnd' as (_ & HAnd & Hnd').
  apply nd_cons in Hnd' as [_ Hnd'].
  apply nd_app in Hnd' as (_ & _ & HCnd). auto.
Qed.

Lemma hit_zero : starts_at_zero s'.
Proof.
  destruct Hzero as (p0 & Hp0 & Hx0). subst s s'.
  destruct A as [|a A'].
  - simpl in Hp0. injection Hp0 as <-.
    exists (mkPoint left bottom). split; [reflexivity|]. simpl. lia.
  - exists p0. split; [exact Hp0 | exact Hx0].
Qed.

Lemma hit_nd : non_decreasing s'.
Proof.
  destruct hit_parts as (HAnd & HCnd).
  pose proof (close_tail_ge W right (last_height (Point_y q) B) C HC HCnd)
    as Hge.
  subst s'. apply nd_app. split; [|split].
  - intros p p' Hp Hp'. unfold Point_not_after.
    pose proof HA as HA'. rewrite Forall_forall in HA'. specialize (HA' p Hp).
    apply elem_of_cons in Hp' as [->|Hp']; [simpl in *; lia|].
    rewrite Forall_forall in Hge. specialize (Hge p' Hp').
    subst right. simpl in *. lia.
  - exact HAnd.
  - apply nd_cons. split.
    + eapply Forall_impl; [exact Hge|].
      unfold Point_not_after. subst right. simpl. intros; lia.
    + apply close_tail_nd; assumption.
Qed.

Lemma hit_inside :
  Forall (fun p => Point_x p <= W) s -> Forall (fun p => Point_x p <= W) s'.
Proof.
  intros Hin. destruct hit_parts as (HAnd & HCnd). subst s s'.
  apply Forall_app in Hin as [HAin Hin].
  apply Forall_cons in Hin as [Hqin Hin].
  apply Forall_app in Hin as [_ HCin].
  apply Forall_app. split; [exact HAin|].
  constructor; [simpl; lia|].
  destruct (close_tail_cases W right (last_height (Point_y q) B) C HC HCnd)
    as [-> | (-> & _ & HrW)]; [assumption|].
  constructor; [simpl; lia | assumption].
Qed.

(** The silhouette after the call: [bottom] under the rectangle (nowhere,
    for a rectangle of width 0), the old height elsewhere. *)
Lemma hit_height_at (c : Z) :
  c < W ->
  height_at s' c =
    if (left <=? c) && (c <? left + width) then bottom else height_at s c.
Proof.
  intros HcW.
  destruct hit_parts as (HAnd & HCnd).
  pose proof (close_tail_ge W right (last_height (Point_y q) B) C HC HCnd)
    as Hge.
  unfold height_at. subst s s'.
  rewrite !height_from_app.
  rewrite (height_from_cons c _ (mkPoint left bottom)).
  destruct (Z.leb_spec left c) as [Hlc|Hcl]; simpl andb.
  - destruct (Z.ltb_spec c (left + width)) as [Hcr|Hrc].
    + (* under the rectangle *)
      unfold height_step at 1. simpl.
      destruct (Z.leb_spec left c); [|lia].
      apply height_from_right.
      eapply Forall_impl; [exact Hge|]. subst right. simpl. intros; lia.
    + (* right of the rectangle *)
      rewrite (close_tail_height_from W right _ C HC HCnd)
        by (subst right; lia).
      change (q :: B ++ C) with ((q :: B) ++ C).
      rewrite height_from_app. f_equal.
      rewrite height_from_left, last_height_cons; [reflexivity|].
      constructor; [lia|].
      eapply Forall_impl; [exact HB|]. simpl. intros; lia.
  - (* left of the rectangle *)
    rewrite (height_from_right c _ (q :: B ++ C)).
    2:{ constructor; [lia|]. apply Forall_app. split.
        - eapply Forall_impl; [exact HB|]. simpl. intros; lia.
        - eapply Forall_impl; [exact HC|]. simpl. intros; lia. }
    unfold height_step at 1. simpl.
    destruct (Z.leb_spec left c); [lia|].
    apply height_from_right.
    eapply Forall_impl; [exact Hge|]. subst right. simpl. intros; lia.
Qed.

End IntegrateHit.

(** [integrateRectangle] at a breakpoint of a profile in order, for a
    width from 0 on. *)
Lemma integrateRectangle_ok (self : CygonRectanglePacker)
    (left width bottom : Z) (q0 : Point) :
  profile_ok (packingAreaWidth self) (heightSlices self) ->
  q0 ∈ heightSlices self -> Point_x q0 = left -> 0 <= width ->
  exists s' : list Point,
    integrateRectangle self left width bottom = Ok s' /\
    profile_ok (packingAreaWidth self) s' /\
    (forall c : Z,
       c < packingAreaWidth self ->
       height_at s' c =
         if (left <=? c) && (c <? left + width) then bottom
         else height_at (heightSlices self) c).
Proof.
  intros [Hzero Hnd Hin] Hq0 <- Hwidth.
  destruct (nd_split_hit (Point_x q0 + width) (heightSlices self) q0)
    as (A & q & B & C & Hs & HA & Hq & HB & HC); [assumption.. | lia |].
  eexists. split.
  - apply (integrateRectangle_hit_shape self (Point_x q0) width bottom
             A B C q); assumption.
  - rewrite Hs in *. split; [split|].
    + apply hit_zero; assumption.
    + apply hit_nd; assumption.
    + apply hit_inside; assumption.
    + intros c. apply hit_height_at; assumption.
Qed.

(** ** Coverage *)

Lemma slice_end_lookup (W : Z) (s : list Point) (i : nat) (q : Point) :
  s !! S i = Some q -> slice_end W s i = Point_x q.
Proof. unfold slice_end. intros ->. reflexivity. Qed.

(** A strictly increasing profile from [x = 0] puts every column of the
    area in exactly one span. *)
Lemma si_covers (W : Z) (s : list Point) :
  strictly_increasing s -> starts_at_zero s -> covers W s.
Proof.
  intros Hsi (p0 & Hp0 & Hx0) c Hc.
  destruct (si_partition (c + 1) s Hsi) as (A & B & -> & HA & HB).
  destruct A as [|a A' _] using rev_ind.
  { exfalso. destruct B as [|q B']; [discriminate|].
    simpl in Hp0. injection Hp0 as <-.
    apply Forall_cons in HB as [Hq _]. lia. }
  assert (Ha : ((A' ++ [a]) ++ B) !! length A' = Some a).
  { rewrite <- app_assoc, lookup_app_r by lia.
    rewrite Nat.sub_diag. reflexivity. }
  assert (Hax : Point_x a <= c).
  { apply Forall_app in HA as [_ HA]. apply Forall_cons in HA as [HA _]. lia. }
  assert (Hend : c < slice_end W ((A' ++ [a]) ++ B) (length A')).
  { unfold slice_end.
    rewrite <- app_assoc, lookup_app_r by lia.
    replace (S (length A') - length A')%nat with 1%nat by lia.
    destruct B as [|q B']; simpl; [lia|].
    apply Forall_cons in HB as [Hq _]. lia. }
  exists (length A'). split.
  - exists a. auto.
  - intros j (p & Hp & Hpx & Hpe).
    destruct (Nat.lt_trichotomy j (length A')) as [Hlt|[Heq|Hgt]];
      [exfalso | assumption | exfalso].
    + (* a span further left ends at or before [a] starts *)
      destruct (lookup_lt_is_Some_2 ((A' ++ [a]) ++ B) (S j)) as [q Hq].
      { apply lookup_lt_Some in Ha. lia. }
      rewrite (slice_end_lookup _ _ _ _ Hq) in Hpe.
      pose proof (si_lookup_le _ (S j) (length A') q a Hsi Hq Ha ltac:(lia)).
      lia.
    + (* a span further right starts after [c] *)
      destruct (lookup_lt_is_Some_2 ((A' ++ [a]) ++ B) (S (length A')))
        as [q Hq].
      { apply lookup_lt_Some in Hp. lia. }
      rewrite (slice_end_lookup _ _ _ _ Hq) in Hend.
      pose proof (si_lookup_le _ (S (length A')) j q p Hsi Hq Hp ltac:(lia)).
      lia.
Qed.

(** The column's height is the height of the span it lies in. *)
Lemma height_at_lookup (s : list Point) (c : Z) :
  non_decreasing s -> starts_at_zero s -> 0 <= c ->
  exists (j : nat) (p : Point),
    s !! j = Some p /\ Point_x p <= c /\ height_at s c = Point_y p /\
    forall (k : nat) (q : Point),
      s !! k = Some q -> Point_x q <= c -> (k <= j)%nat.
Proof.
  intros Hnd (p0 & Hp0 & Hx0) Hc.
  destruct (nd_partition (c + 1) s Hnd) as (A & B & -> & HA & HB).
  destruct A as [|a A' _] using rev_ind.
  { exfalso. destruct B as [|q B']; [discriminate|].
    simpl in Hp0. injection Hp0 as <-.
    apply Forall_cons in HB as [Hq _]. lia. }
  exists (length A'), a.
  assert (Ha : ((A' ++ [a]) ++ B) !! length A' = Some a).
  { rewrite <- app_assoc, lookup_app_r by lia.
    rewrite Nat.sub_diag. reflexivity. }
  split; [exact Ha|].
  split; [apply Forall_app in HA as [_ HA]; apply Forall_cons in HA as [HA _];
          lia|].
  split.
  - unfold height_at. rewrite height_from_app.
    rewrite (height_from_right c _ B)
      by (eapply Forall_impl; [exact HB|]; simpl; intros; lia).
    rewrite height_from_left
      by (eapply Forall_impl; [exact HA|]; simpl; intros; lia).
    apply last_height_snoc.
  - intros k q Hq Hqx.
    destruct (decide (k <= length A')%nat) as [|Hgt]; [assumption|].
    exfalso.
    rewrite lookup_app_r in Hq by (rewrite length_app; simpl; lia).
    apply list_elem_of_lookup_2 in Hq.
    rewrite Forall_forall in HB. specialize (HB q Hq). simpl in HB. lia.
Qed.

(** ** The search *)

Section SearchFacts.

Variable self : CygonRectanglePacker.
Variables w h : Z.

Let slices := heightSlices self.
Let W := packingAreaWidth self.
Let H := packingAreaHeight self.

Lemma search_loop_S (fuel : nat) (best : option nat) (bestY score : Z)
    (left right : nat) :
  search_loop self w h (S fuel) best bestY score left right =
    if (right <=? length slices)%nat then
      p ← getitem slices left;
      highest ← highest_loop self (right - (left + 1)) (left + 1)
                  (Point_y p);
      let '(best, bestY, score) :=
        if highest + h <? H then
          if highest <? score then (Some left, highest, highest)
          else (best, bestY, score)
        else (best, bestY, score) in
      if (length slices <=? left + 1)%nat then Ok (best, bestY)
      else
        q ← getitem slices (left + 1);
        right' ← advance_right self (S (S (length slices) - right))
                   (Point_x q + w) right;
        if (length slices <? right')%nat then Ok (best, bestY)
        else search_loop self w h fuel best bestY score (left + 1) right'
    else Ok (best, bestY).
Proof. reflexivity. Qed.

(** The highest slice of a window is the start value or the height of
    one of the slices. *)
Lemma highest_loop_elem (count : nat) :
  forall (from : nat) (h0 hv : Z),
    highest_loop self count from h0 = Ok hv ->
    hv = h0 \/ exists p, p ∈ slices /\ hv = Point_y p.
Proof.
  induction count as [|count IH]; intros from h0 hv Hrun; simpl in Hrun.
  - left. congruence.
  - inv_bind Hrun as p Hp. apply getitem_Ok in Hp.
    apply IH in Hrun as [->|Hrun]; [|right; exact Hrun].
    destruct (Point_y p >? h0); [right | left; reflexivity].
    exists p. split; [|reflexivity].
    eapply list_elem_of_lookup_2. exact Hp.
Qed.

Lemma search_loop_candidate (fuel : nat) :
  forall (best : option nat) (bestY score : Z) (left right : nat)
         (r : option nat) (y : Z),
    candidate_ok self h best bestY ->
    search_loop self w h fuel best bestY score left right = Ok (r, y) ->
    candidate_ok self h r y.
Proof.
  induction fuel as [|fuel IH]; intros best bestY score left right r y
    Hbest Hrun; [discriminate|].
  rewrite search_loop_S in Hrun.
  destruct (right <=? length slices)%nat;
    [|injection Hrun as <- <-; exact Hbest].
  inv_bind Hrun as p Hp. apply getitem_Ok in Hp.
  inv_bind Hrun as highest Hhi.
  assert (Hnew : candidate_ok self h (Some left) highest \/
                 ~ highest + h < H).
  { destruct (Z_lt_dec (highest + h) H) as [Hlt|]; [left | right; assumption].
    intros i [= <-]. split; [eauto|]. split; [assumption|].
    apply highest_loop_elem in Hhi as [->|Hhi]; [|exact Hhi].
    exists p. split; [|reflexivity].
    eapply list_elem_of_lookup_2. exact Hp. }
  set (upd := if highest + h <? H then
                if highest <? score then (Some left, highest, highest)
                else (best, bestY, score)
              else (best, bestY, score)) in Hrun.
  assert (Hupd : candidate_ok self h (fst (fst upd)) (snd (fst upd))).
  { subst upd. destruct (Z.ltb_spec (highest + h) H); [|exact Hbest].
    destruct (highest <? score); [|exact Hbest].
    destruct Hnew as [Hnew|]; [exact Hnew | contradiction]. }
  destruct upd as [[best' bestY'] score']. simpl in Hupd.
  destruct (length slices <=? left + 1)%nat;
    [injection Hrun as <- <-; exact Hupd|].
  inv_bind Hrun as q Hq. inv_bind Hrun as right' Hright.
  destruct (length slices <? right')%nat;
    [injection Hrun as <- <-; exact Hupd|].
  eapply IH; [exact Hupd | exact Hrun].
Qed.

(** The placement [tryFindBestPlacement] returns, on any profile. *)
Lemma tryFindBestPlacement_candidate (p : Point) :
  tryFindBestPlacement self w h = Ok (Some p) ->
  (exists q, q ∈ slices /\ Point_x q = Point_x p) /\
  (exists q, q ∈ slices /\ Point_y q = Point_y p) /\
  Point_y p + h < H.
Proof.
  unfold tryFindBestPlacement. intros Hrun.
  inv_bind Hrun as right Hright. inv_bind Hrun as res Hres.
  destruct res as [best bestY].
  apply search_loop_candidate in Hres; [|intros i; discriminate].
  destruct best as [i|]; [|discriminate].
  inv_bind Hrun as pi Hpi. injection Hrun as <-. simpl.
  apply getitem_Ok in Hpi.
  destruct (Hres i eq_refl) as (_ & Hlt & q & Hq & ->).
  split; [|split; [|assumption]].
  - exists pi. split; [|reflexivity].
    eapply list_elem_of_lookup_2. exact Hpi.
  - exists q. auto.
Qed.

End SearchFacts.

(** *** The search on a profile in order *)

Lemma wf_nonneg (W : Z) (s : list Point) (p : Point) :
  profile_wf W s -> p ∈ s -> 0 <= Point_x p.
Proof.
  intros [(p0 & Hp0 & Hx0) Hsi _] Hp.
  apply list_elem_of_lookup in Hp as [i Hi].
  pose proof (si_lookup_le s 0 i p0 p Hsi Hp0 Hi ltac:(lia)). lia.
Qed.

Section SearchWf.

Variable self : CygonRectanglePacker.
Variables w h : Z.

Let slices := heightSlices self.
Let W := packingAreaWidth self.
Let H := packingAreaHeight self.

Hypothesis Hok : profile_ok W slices.

Lemma highest_loop_bound (count : nat) :
  forall (from : nat) (h0 : Z),
    (from + count <= length slices)%nat ->
    exists hv : Z,
      highest_loop self count from h0 = Ok hv /\ h0 <= hv /\
      forall (j : nat) (p : Point),
        (from <= j < from + count)%nat -> slices !! j = Some p ->
        Point_y p <= hv.
Proof.
  induction count as [|count IH]; intros from h0 Hlen.
  - exists h0. split; [reflexivity|]. split; [lia|]. intros; lia.
  - destruct (lookup_lt_is_Some_2 slices from) as [p Hp]; [lia|].
    simpl. fold slices. rewrite (getitem_lookup _ _ _ Hp), bind_Ok_l.
    destruct (IH (S from)
                (if Point_y p >? h0 then Point_y p else h0) ltac:(lia))
      as (hv & Hrun & Hge & Hall).
    exists hv. split; [exact Hrun|].
    assert (h0 <= hv /\ Point_y p <= hv) as [Hh0 Hyp].
    { destruct (Z.gtb_spec (Point_y p) h0); lia. }
    split; [exact Hh0|].
    intros j q Hj Hq.
    destruct (decide (j = from)) as [->|Hne].
    + assert (q = p) by congruence. subst. exact Hyp.
    + apply (Hall j q); [lia | exact Hq].
Qed.

Lemma advance_right_spec (fuel : nat) :
  forall (e : Z) (right : nat),
    (S (length slices) - right < fuel)%nat ->
    exists r' : nat,
      advance_right self fuel e right = Ok r' /\ (right <= r')%nat /\
      ((r' <= length slices)%nat ->
       (r' = length slices -> e < W) /\
       (forall q, slices !! r' = Some q -> e < Point_x q)).
Proof.
  induction fuel as [|fuel IH]; intros e right Hfuel; [lia|].
  simpl. fold slices W.
  destruct (Nat.leb_spec right (length slices)) as [Hle|Hgt].
  - destruct (Nat.eqb_spec right (length slices)) as [Heq|Hne].
    + rewrite bind_Ok_l.
      destruct (Z.gtb_spec W e) as [Hgt|Hle'].
      * exists right. split; [reflexivity|]. split; [lia|]. intros _.
        split; [intros; lia|].
        intros q Hq. apply lookup_lt_Some in Hq. lia.
      * destruct (IH e (S right) ltac:(lia)) as (r' & Hrun & Hr & _).
        exists r'. split; [exact Hrun|]. split; [lia|]. intros; lia.
    + destruct (lookup_lt_is_Some_2 slices right) as [p Hp]; [lia|].
      rewrite (getitem_lookup _ _ _ Hp), !bind_Ok_l.
      destruct (Z.gtb_spec (Point_x p) e) as [Hgt|Hle'].
      * exists right. split; [reflexivity|]. split; [lia|]. intros _.
        split; [intros; lia|].
        intros q Hq. assert (q = p) by congruence. subst. lia.
      * destruct (IH e (S right) ltac:(lia)) as (r' & Hrun & Hr & Hpost).
        exists r'. split; [exact Hrun|]. split; [lia | exact Hpost].
  - exists right. split; [reflexivity|]. split; [lia|]. intros; lia.
Qed.

(** A window that is in order gives a candidate that clears every
    column under the rectangle. *)
Lemma window_candidate (left right : nat) (pl : Point) (hv : Z) :
  slices !! left = Some pl ->
  window_ok self w left right ->
  Point_y pl <= hv ->
  (forall (j : nat) (p : Point),
     (left + 1 <= j < right)%nat -> slices !! j = Some p ->
     Point_y p <= hv) ->
  placement_ok self w (Some left) hv.
Proof.
  intros Hpl (pl' & Hpl' & HplW & Hwin) Hyl Hrest i [= <-].
  fold slices in Hpl'. assert (pl' = pl) by congruence. subst pl'.
  exists pl. split; [exact Hpl|]. split; [exact HplW|].
  intros c Hc. fold slices.
  assert (Hc0 : 0 <= c).
  { pose proof (ok_nonneg W slices pl Hok
                  (list_elem_of_lookup_2 _ _ _ Hpl)). lia. }
  destruct (height_at_lookup slices c (ok_order _ _ Hok) (ok_zero _ _ Hok) Hc0)
    as (j & p & Hp & Hpx & -> & Hmax).
  pose proof (Hmax left pl Hpl ltac:(lia)) as Hlj.
  pose proof (Hwin j p Hp ltac:(lia)) as Hjr.
  destruct (decide (j = left)) as [->|Hne].
  - assert (p = pl) by congruence. subst. exact Hyl.
  - apply (Hrest j p); [lia | exact Hp].
Qed.

Lemma search_loop_wf (fuel : nat) :
  forall (best : option nat) (bestY score : Z) (left right : nat),
    (length slices - left < fuel)%nat ->
    window_ok self w left right ->
    placement_ok self w best bestY ->
    exists (r : option nat) (y : Z),
      search_loop self w h fuel best bestY score left right = Ok (r, y) /\
      placement_ok self w r y.
Proof.
  induction fuel as [|fuel IH]; intros best bestY score left right
    Hfuel Hwin Hbest; [lia|].
  rewrite search_loop_S. fold slices H.
  destruct (Nat.leb_spec right (length slices)) as [Hrlen|];
    [|exists best, bestY; auto].
  pose proof Hwin as (pl & Hpl & HplW & Hcover). fold slices W in Hpl, HplW.
  rewrite (getitem_lookup _ _ _ Hpl), bind_Ok_l.
  assert (Hllen : (left < length slices)%nat)
    by (eapply lookup_lt_Some; exact Hpl).
  destruct (highest_loop_bound (right - (left + 1)) (left + 1) (Point_y pl)
              ltac:(lia)) as (hv & Hhv & Hge & Hall).
  rewrite Hhv, bind_Ok_l.
  assert (Hnew : placement_ok self w (Some left) hv).
  { apply (window_candidate left right pl); try assumption.
    intros j p Hj Hp. apply (Hall j p); [lia | exact Hp]. }
  set (upd := if hv + h <? H then
                if hv <? score then (Some left, hv, hv)
                else (best, bestY, score)
              else (best, bestY, score)).
  assert (Hupd : placement_ok self w (fst (fst upd)) (snd (fst upd))).
  { subst upd. destruct (hv + h <? H); [|exact Hbest].
    destruct (hv <? score); [exact Hnew | exact Hbest]. }
  destruct upd as [[best' bestY'] score']. simpl in Hupd.
  destruct (Nat.leb_spec (length slices) (left + 1)) as [|Hmore];
    [exists best', bestY'; auto|].
  destruct (lookup_lt_is_Some_2 slices (left + 1)) as [q Hq]; [lia|].
  rewrite (getitem_lookup _ _ _ Hq), bind_Ok_l.
  destruct (advance_right_spec (S (S (length slices) - right))
              (Point_x q + w) right ltac:(lia))
    as (r' & Hadv & Hrr & Hpost).
  rewrite Hadv, bind_Ok_l.
  destruct (Nat.ltb_spec (length slices) r') as [|Hr'len];
    [exists best', bestY'; auto|].
  apply IH; [lia | | exact Hupd].
  destruct (Hpost Hr'len) as [Hend Hnext].
  exists q. split; [exact Hq|]. split.
  - fold W. destruct (decide (r' = length slices)) as [Heq|Hne];
      [specialize (Hend Heq); lia|].
    destruct (lookup_lt_is_Some_2 slices r') as [q' Hq']; [lia|].
    specialize (Hnext q' Hq').
    pose proof (ok_inside _ _ Hok) as Hin.
    rewrite Forall_forall in Hin.
    specialize (Hin q' (list_elem_of_lookup_2 _ _ _ Hq')). simpl in Hin. lia.
  - intros j q2 Hq2 Hlt.
    destruct (decide (j < r')%nat) as [|Hge']; [assumption|]. exfalso.
    assert (Hr'lt : (r' < length slices)%nat).
    { apply lookup_lt_Some in Hq2. fold slices in Hq2. lia. }
    destruct (lookup_lt_is_Some_2 slices r') as [q' Hq']; [lia|].
    specialize (Hnext q' Hq').
    pose proof (nd_lookup_le slices r' j q' q2 (ok_order _ _ Hok) Hq' Hq2
                  ltac:(lia)).
    lia.
Qed.

(** On a profile in order the search returns, and a placement it
    returns starts at a breakpoint, lies inside the area and clears
    every column under it. *)
Lemma tryFindBestPlacement_wf :
  w <= W ->
  exists r : option Point,
    tryFindBestPlacement self w h = Ok r /\
    forall p : Point, r = Some p ->
      (exists q, q ∈ slices /\ Point_x q = Point_x p) /\
      0 <= Point_x p /\ Point_x p + w <= W /\
      forall c : Z, Point_x p <= c < Point_x p + w ->
        height_at slices c <= Point_y p.
Proof.
  intros HwW. unfold tryFindBestPlacement. fold slices W H.
  destruct (nd_partition w slices (ok_order _ _ Hok))
    as (A & B & Hs & HA & HB).
  assert (Hbis : bisect_left slices (mkPoint w 0) 0 (length slices)
                 = Ok (length A)).
  { unfold bisect_left. rewrite Hs.
    apply (bisect_loop_partition [] A B (mkPoint w 0) HA HB);
      simpl; rewrite ?length_app; lia. }
  rewrite Hbis, bind_Ok_l.
  destruct (ok_zero _ _ Hok) as (p0 & Hp0 & Hx0).
  destruct (search_loop_wf (S (length slices)) None 0 (W * H) 0 (length A))
    as (r & y & Hrun & Hr).
  - lia.
  - exists p0. split; [exact Hp0|]. split; [fold W; lia|].
    intros j q Hq Hlt.
    destruct (decide (j < length A)%nat) as [|Hge]; [assumption|]. exfalso.
    fold slices in Hq. rewrite Hs in Hq.
    rewrite lookup_app_r in Hq by lia.
    apply list_elem_of_lookup_2 in Hq.
    rewrite Forall_forall in HB. specialize (HB q Hq). simpl in HB. lia.
  - intros i; discriminate.
  - rewrite Hrun, bind_Ok_l. cbv beta iota.
    destruct r as [i|].
    + destruct (Hr i eq_refl) as (p & Hp & HpW & Hclear).
      fold slices in Hp.
      rewrite (getitem_lookup _ _ _ Hp), bind_Ok_l.
      eexists. split; [reflexivity|].
      intros ? [= <-]. simpl.
      pose proof (list_elem_of_lookup_2 _ _ _ Hp) as Hin.
      split; [exists p; auto|].
      split; [eapply ok_nonneg; eassumption|].
      split; assumption.
    + exists None. split; [reflexivity | intros; discriminate].
Qed.

End SearchWf.

(** ** [TryPack] *)

Lemma TryPack_rejects (self : CygonRectanglePacker) (w h : Z) :
  w > packingAreaWidth self \/ h > packingAreaHeight self ->
  TryPack self w h = Ok (None, self).
Proof.
  intros Hbig. unfold TryPack.
  destruct (Z.gtb_spec w (packingAreaWidth self)); [reflexivity|].
  destruct (Z.gtb_spec h (packingAreaHeight self)); [reflexivity|].
  lia.
Qed.

Lemma TryPack_None (self self' : CygonRectanglePacker) (w h : Z) :
  TryPack self w h = Ok (None, self') -> self' = self.
Proof.
  unfold TryPack. intros Hrun.
  destruct ((w >? packingAreaWidth self) || (h >? packingAreaHeight self));
    [congruence|].
  inv_bind Hrun as placement Hfind.
  destruct placement as [p|]; [|congruence].
  inv_bind Hrun as slices' Hint. discriminate.
Qed.

(** What a successful call went through: the guard, the search, the
    integration. *)
Lemma TryPack_Some (self self' : CygonRectanglePacker) (w h : Z) (p : Point) :
  TryPack self w h = Ok (Some p, self') ->
  w <= packingAreaWidth self /\ h <= packingAreaHeight self /\
  tryFindBestPlacement self w h = Ok (Some p) /\
  exists s',
    integrateRectangle self (Point_x p) w (Point_y p + h) = Ok s' /\
    self' = set_heightSlices self s'.
Proof.
  unfold TryPack. intros Hrun.
  destruct (Z.gtb_spec w (packingAreaWidth self)); [discriminate|].
  destruct (Z.gtb_spec h (packingAreaHeight self)); [discriminate|].
  simpl in Hrun.
  inv_bind Hrun as placement Hfind.
  destruct placement as [p'|]; [|discriminate].
  inv_bind Hrun as slices' Hint.
  injection Hrun as -> <-.
  repeat split; try lia; eauto.
Qed.

(** One call on a well-formed profile. *)
Lemma TryPack_wf (self : CygonRectanglePacker) (w h : Z) :
  profile_wf (packingAreaWidth self) (heightSlices self) ->
  0 < w ->
  exists (r : option Point) (self' : CygonRectanglePacker),
    TryPack self w h = Ok (r, self') /\
    packingAreaWidth self' = packingAreaWidth self /\
    packingAreaHeight self' = packingAreaHeight self /\
    profile_wf (packingAreaWidth self) (heightSlices self') /\
    (Forall (fun q => Point_y q <= packingAreaHeight self)
       (heightSlices self) ->
     Forall (fun q => Point_y q <= packingAreaHeight self)
       (heightSlices self')) /\
    match r with
    | None => self' = self
    | Some p =>
        0 <= Point_x p /\ Point_x p + w <= packingAreaWidth self /\
        (forall c : Z, Point_x p <= c < Point_x p + w ->
           height_at (heightSlices self) c <= Point_y p) /\
        (forall c : Z, c < packingAreaWidth self ->
           height_at (heightSlices self') c =
             if (Point_x p <=? c) && (c <? Point_x p + w)
             then Point_y p + h
             else height_at (heightSlices self) c)
    end.
Proof.
  intros Hwf Hw. unfold TryPack.
  destruct (Z.gtb_spec w (packingAreaWidth self)) as [|HwW].
  { exists None, self. simpl. repeat split; auto; apply Hwf. }
  destruct (Z.gtb_spec h (packingAreaHeight self)) as [|HhH].
  { exists None, self. simpl. repeat split; auto; apply Hwf. }
  simpl orb. cbv iota.
  destruct (tryFindBestPlacement_wf self w h (wf_ok _ _ Hwf) HwW)
    as (r & Hfind & Hr).
  rewrite Hfind, bind_Ok_l.
  destruct r as [p|].
  2:{ exists None, self. repeat split; auto; apply Hwf. }
  destruct (Hr p eq_refl) as (_ & Hx0 & HxW & Hclear).
  pose proof (tryFindBestPlacement_candidate self w h p Hfind)
    as (_ & _ & Hbottom).
  destruct (integrateRectangle_spec self (Point_x p) w (Point_y p + h)
              (wf_zero _ _ Hwf) (wf_incr _ _ Hwf) Hx0 Hw)
    as (s' & Hint & Hzero' & Hsi' & Hin' & Hh' & Hat').
  rewrite Hint, bind_Ok_l.
  exists (Some p), (set_heightSlices self s'). simpl.
  split; [reflexivity|]. split; [reflexivity|]. split; [reflexivity|].
  split; [constructor; auto; apply Hin'; [assumption | apply Hwf]|].
  split; [intros Hall; apply Hh'; [assumption | lia]|].
  repeat split; assumption.
Qed.

(** One call on a profile in order, for a rectangle of any width from 0
    on. *)
Lemma TryPack_ok (self : CygonRectanglePacker) (w h : Z) :
  profile_ok (packingAreaWidth self) (heightSlices self) ->
  0 <= w ->
  exists (r : option Point) (self' : CygonRectanglePacker),
    TryPack self w h = Ok (r, self') /\
    packingAreaWidth self' = packingAreaWidth self /\
    profile_ok (packingAreaWidth self) (heightSlices self') /\
    match r with
    | None => self' = self
    | Some p =>
        0 <= Point_x p /\ Point_x p + w <= packingAreaWidth self /\
        (forall c : Z, Point_x p <= c < Point_x p + w ->
           height_at (heightSlices self) c <= Point_y p) /\
        (forall c : Z, c < packingAreaWidth self ->
           height_at (heightSlices self') c =
             if (Point_x p <=? c) && (c <? Point_x p + w)
             then Point_y p + h
             else height_at (heightSlices self) c)
    end.
Proof.
  intros Hok Hw. unfold TryPack.
  destruct (Z.gtb_spec w (packingAreaWidth self)) as [|HwW].
  { exists None, self. simpl. auto. }
  destruct (Z.gtb_spec h (packingAreaHeight self)) as [|HhH].
  { exists None, self. simpl. auto. }
  simpl orb. cbv iota.
  destruct (tryFindBestPlacement_wf self w h Hok HwW) as (r & Hfind & Hr).
  rewrite Hfind, bind_Ok_l.
  destruct r as [p|].
  2:{ exists None, self. auto. }
  destruct (Hr p eq_refl) as ((q0 & Hq0 & Hq0x) & Hx0 & HxW & Hclear).
  destruct (integrateRectangle_ok self (Point_x p) w (Point_y p + h) q0
              Hok Hq0 Hq0x Hw)
    as (s' & Hint & Hok' & Hat').
  rewrite Hint, bind_Ok_l.
  exists (Some p), (set_heightSlices self s'). simpl.
  split; [reflexivity|]. split; [reflexivity|]. split; [exact Hok'|].
  repeat split; assumption.
Qed.

(** ** Rejection and atomicity *)

(** C8: if the rectangle is wider or taller than the area, [TryPack]
    returns [None] and the packer is the one it was; the search is never
    reached, so this holds for every profile state. *)
Theorem TryPack_oversized_rejected (self : CygonRectanglePacker) (w h : Z) :
  w > packingAreaWidth self \/ h > packingAreaHeight self ->
  TryPack self w h = Ok (None, self).
Proof. apply TryPack_rejects. Qed.

(** Scenario C: on a fresh 4x4 packer, [TryPack(5, 1)] fails and the
    profile is still the single zero-height breakpoint. *)
Lemma TryPack_oversized_rejected_witness :
  (5 > packingAreaWidth (new_packer 4 4) \/
   1 > packingAreaHeight (new_packer 4 4)) /\
  TryPack (new_packer 4 4) 5 1 = Ok (None, new_packer 4 4) /\
  heightSlices (new_packer 4 4) = [mkPoint 0 0].
Proof.
  assert (Hbig : 5 > packingAreaWidth (new_packer 4 4) \/
                 1 > packingAreaHeight (new_packer 4 4))
    by (left; reflexivity).
  split; [exact Hbig|].
  split; [|reflexivity].
  exact (TryPack_oversized_rejected (new_packer 4 4) 5 1 Hbig).
Defined.

(** The rejection comes before the search: it is there on a profile on
    which the search itself would raise. *)
Example TryPack_oversized_before_search :
  tryFindBestPlacement (mkPacker 4 4 []) 5 1 = Raise IndexError /\
  TryPack (mkPacker 4 4 []) 5 1 = Ok (None, mkPacker 4 4 []).
Proof. split; reflexivity. Qed.

(** C5: a [TryPack] call that returns [None] leaves the packer, and with
    it the sequence of breakpoints, exactly as it was. *)
Theorem TryPack_failure_is_atomic (self self' : CygonRectanglePacker)
    (w h : Z) :
  TryPack self w h = Ok (None, self') ->
  heightSlices self' = heightSlices self /\ self' = self.
Proof.
  intros Hrun. apply TryPack_None in Hrun. subst. auto.
Qed.

Lemma TryPack_failure_is_atomic_witness :
  TryPack (mkPacker 10 10 [mkPoint 0 5]) 10 5
    = Ok (None, mkPacker 10 10 [mkPoint 0 5]) /\
  heightSlices (mkPacker 10 10 [mkPoint 0 5])
    = heightSlices (mkPacker 10 10 [mkPoint 0 5]) /\
  mkPacker 10 10 [mkPoint 0 5] = mkPacker 10 10 [mkPoint 0 5].
Proof.
  assert (Hrun : TryPack (mkPacker 10 10 [mkPoint 0 5]) 10 5
                 = Ok (None, mkPacker 10 10 [mkPoint 0 5]))
    by reflexivity.
  split; [exact Hrun|].
  exact (TryPack_failure_is_atomic _ _ 10 5 Hrun).
Defined.

(** ** The bottom edge *)

(** C7: a placement [TryPack] returns for height [h] has its bottom edge
    [y + h] strictly below [packingAreaHeight]; a candidate whose bottom
    edge lands exactly on the boundary is never returned. *)
Theorem TryPack_bottom_strictly_inside (self self' : CygonRectanglePacker)
    (w h : Z) (p : Point) :
  TryPack self w h = Ok (Some p, self') ->
  Point_y p + h < packingAreaHeight self.
Proof.
  intros Hrun.
  apply TryPack_Some in Hrun as (_ & _ & Hfind & _).
  apply tryFindBestPlacement_candidate in Hfind as (_ & _ & Hlt).
  exact Hlt.
Qed.

Lemma TryPack_bottom_strictly_inside_witness :
  TryPack (new_packer 10 10) 4 9
    = Ok (Some (mkPoint 0 0), mkPacker 10 10 [mkPoint 0 9; mkPoint 4 0]) /\
  Point_y (mkPoint 0 0) + 9 < packingAreaHeight (new_packer 10 10).
Proof.
  assert (Hrun : TryPack (new_packer 10 10) 4 9
                 = Ok (Some (mkPoint 0 0),
                       mkPacker 10 10 [mkPoint 0 9; mkPoint 4 0]))
    by reflexivity.
  split; [exact Hrun|].
  exact (TryPack_bottom_strictly_inside _ _ 4 9 _ Hrun).
Defined.

(** A rectangle exactly as high as the area never fits, not even in the
    empty area. *)
Example TryPack_full_height_rejected :
  TryPack (new_packer 10 10) 4 10 = Ok (None, new_packer 10 10).
Proof. reflexivity. Qed.

(** ** Candidate positions *)

Lemma TryPack_all_cons (self : CygonRectanglePacker) (w h : Z)
    (calls : list (Z * Z)) :
  TryPack_all self ((w, h) :: calls) =
    '(placement, self') ← TryPack self w h;
    '(rects, self'') ← TryPack_all self' calls;
    Ok (match placement with
        | Some p => mkRect (Point_x p) (Point_y p) w h :: rects
        | None => rects
        end, self'').
Proof. reflexivity. Qed.

(** C10: whenever [TryPack] succeeds, the x-coordinate of the placement
    is the x-coordinate of a breakpoint of the profile before the call;
    and in any sequence of calls on a freshly constructed packer, the first
    rectangle committed is at [(0, 0)]. *)
Theorem TryPack_placement_at_breakpoint :
  (forall (self self' : CygonRectanglePacker) (w h : Z) (p : Point),
     TryPack self w h = Ok (Some p, self') ->
     exists q : Point, q ∈ heightSlices self /\ Point_x q = Point_x p) /\
  (forall (W H : Z) (calls : list (Z * Z)) (r : Rect) (rs : list Rect)
          (self' : CygonRectanglePacker),
     TryPack_all (new_packer W H) calls = Ok (r :: rs, self') ->
     Rect_x r = 0 /\ Rect_y r = 0).
Proof.
  split.
  - intros self self' w h p Hrun.
    apply TryPack_Some in Hrun as (_ & _ & Hfind & _).
    apply tryFindBestPlacement_candidate in Hfind as (Hx & _ & _).
    exact Hx.
  - intros W H calls.
    induction calls as [|[w h] calls IH]; intros r rs self' Hrun.
    + discriminate.
    + rewrite TryPack_all_cons in Hrun.
      inv_bind Hrun as res Hcall. destruct res as [placement self1].
      inv_bind Hrun as rest Hrest. destruct rest as [rects self2].
      destruct placement as [p|].
      * injection Hrun as <- _ _. simpl.
        apply TryPack_Some in Hcall as (_ & _ & Hfind & _).
        apply tryFindBestPlacement_candidate in Hfind
          as ((qx & Hqx & <-) & (qy & Hqy & <-) & _).
        simpl in Hqx, Hqy.
        apply list_elem_of_singleton in Hqx, Hqy. subst. auto.
      * apply TryPack_None in Hcall. subst self1.
        injection Hrun as -> ->.
        eapply IH. exact Hrest.
Qed.

Lemma TryPack_placement_at_breakpoint_witness :
  (exists q : Point,
     q ∈ [mkPoint 0 3; mkPoint 4 0] /\ Point_x q = Point_x (mkPoint 4 0)) /\
  Rect_x (mkRect 0 0 4 3) = 0 /\ Rect_y (mkRect 0 0 4 3) = 0.
Proof.
  destruct TryPack_placement_at_breakpoint as [Hstep Hfirst].
  split.
  - apply (Hstep (mkPacker 10 10 [mkPoint 0 3; mkPoint 4 0])
             (mkPacker 10 10 [mkPoint 0 3; mkPoint 4 3; mkPoint 8 0])
             4 3 (mkPoint 4 0)).
    reflexivity.
  - apply (Hfirst 10 10 [(11, 1); (4, 3); (4, 3)] (mkRect 0 0 4 3)
             [mkRect 4 0 4 3]
             (mkPacker 10 10 [mkPoint 0 3; mkPoint 4 3; mkPoint 8 0])).
    reflexivity.
Defined.

(** ** The coverage invariant *)

Lemma new_packer_wf (W H : Z) :
  0 < W -> profile_wf W (heightSlices (new_packer W H)).
Proof.
  intros HW. split.
  - exists (mkPoint 0 0). split; reflexivity.
  - repeat constructor.
  - repeat constructor. exact HW.
Qed.

Lemma new_packer_ok (W H : Z) :
  0 <= W -> profile_ok W (heightSlices (new_packer W H)).
Proof.
  intros HW. split.
  - exists (mkPoint 0 0). split; reflexivity.
  - repeat constructor.
  - repeat constructor. simpl. exact HW.
Qed.

(** What every reachable packer satisfies.  In an area without width
    nothing is ever placed; otherwise the profile is well-formed. *)
Lemma reachable_wf (W H : Z) (self : CygonRectanglePacker) :
  0 <= H -> reachable W H self ->
  packingAreaWidth self = W /\ packingAreaHeight self = H /\
  starts_at_zero (heightSlices self) /\
  strictly_increasing (heightSlices self) /\
  Forall (fun p => Point_y p <= H) (heightSlices self) /\
  (0 < W -> Forall (fun p => Point_x p < W) (heightSlices self)).
Proof.
  intros HH Hreach.
  assert (Hinv :
    packingAreaWidth self = W /\ packingAreaHeight self = H /\
    Forall (fun p => Point_y p <= H) (heightSlices self) /\
    (profile_wf W (heightSlices self) \/ W <= 0 /\ self = new_packer W H)).
  { induction Hreach as [|self w h r self' Hreach IH Hw Hrun].
    - split; [reflexivity|]. split; [reflexivity|].
      split; [repeat constructor; exact HH|].
      destruct (Z_lt_le_dec 0 W) as [HW|HW];
        [left; apply new_packer_wf; exact HW | right; auto].
    - destruct IH as (HsW & HsH & Hheights & [Hwf | [HW ->]]).
      + rewrite <- HsW in Hwf.
        destruct (TryPack_wf self w h Hwf Hw)
          as (r0 & self0 & Hrun0 & HW0 & HH0 & Hwf0 & Hh0 & _).
        rewrite Hrun in Hrun0. injection Hrun0 as -> ->.
        rewrite HsW in *. rewrite HsH in *.
        repeat split; auto.
      + rewrite TryPack_rejects in Hrun by (simpl; lia).
        injection Hrun as _ <-.
        split; [reflexivity|]. split; [reflexivity|].
        split; [exact Hheights|]. right. auto. }
  destruct Hinv as (HsW & HsH & Hheights & [Hwf | [HW ->]]).
  - repeat split; try assumption; try apply Hwf. intros _. apply Hwf.
  - repeat split; try assumption; try lia.
    + exists (mkPoint 0 0). split; reflexivity.
    + repeat constructor.
Qed.

(** C6, as stated, does not hold: not every profile state after a
    sequence of [TryPack] calls has the invariant.  On a fresh 10x10
    packer [TryPack(0, 1)] succeeds at [(0, 0)] and leaves the profile
    [(0, 1), (0, 0)], two breakpoints at [x = 0], so the x-values are not
    strictly increasing. *)
Lemma profile_invariant_broken :
  ~ (forall (W H : Z) (calls : list (Z * Z)) (rects : list Rect)
            (self' : CygonRectanglePacker),
       TryPack_all (new_packer W H) calls = Ok (rects, self') ->
       profile_invariant W H (heightSlices self')).
Proof.
  intros Hall.
  destruct (Hall 10 10 [(0, 1)] [mkRect 0 0 0 1]
              (mkPacker 10 10 [mkPoint 0 1; mkPoint 0 0]) eq_refl)
    as (Hsi & _).
  simpl in Hsi. apply si_cons in Hsi as [Hlt _].
  apply Forall_cons in Hlt as [Hlt _].
  unfold Point_before in Hlt. simpl in Hlt. lia.
Qed.

(** C6, amended: in an area of height [H >= 0], every profile state
    reached from the initial one by [TryPack] calls for rectangles of
    positive width has strictly increasing x-values, begins at [x = 0],
    puts every column of [0, packingAreaWidth) in exactly one span and has
    no height above [packingAreaHeight]; and [integrateRectangle], for any
    left edge [left >= 0] (on a breakpoint or inside a slice), positive
    width and [bottom <= H], returns a profile with the same four
    properties. *)
Theorem profile_invariant_preserved (W H : Z) :
  0 <= H ->
  (forall self : CygonRectanglePacker,
     reachable W H self -> profile_invariant W H (heightSlices self)) /\
  (forall (self : CygonRectanglePacker) (left width bottom : Z),
     packingAreaWidth self = W ->
     profile_invariant W H (heightSlices self) ->
     0 <= left -> 0 < width -> bottom <= H ->
     exists s' : list Point,
       integrateRectangle self left width bottom = Ok s' /\
       profile_invariant W H s').
Proof.
  intros HH. split.
  - intros self Hreach.
    destruct (reachable_wf W H self HH Hreach)
      as (_ & _ & Hzero & Hsi & Hheights & _).
    repeat split; try assumption. apply si_covers; assumption.
  - intros self left width bottom <- (Hsi & Hzero & _ & Hheights)
      Hleft Hwidth Hbottom.
    destruct (integrateRectangle_spec self left width bottom Hzero Hsi
                Hleft Hwidth)
      as (s' & Hrun & Hzero' & Hsi' & _ & Hh' & _).
    exists s'. split; [exact Hrun|].
    repeat split; try assumption; [apply si_covers | apply Hh']; assumption.
Qed.

Lemma profile_invariant_preserved_witness :
  0 <= 10 /\
  profile_invariant 10 10 [mkPoint 0 3; mkPoint 4 3; mkPoint 8 0] /\
  exists s' : list Point,
    integrateRectangle
      (mkPacker 10 10 [mkPoint 0 3; mkPoint 4 3; mkPoint 8 0]) 2 7 9 = Ok s' /\
    profile_invariant 10 10 s'.
Proof.
  assert (HH : 0 <= 10) by lia.
  destruct (profile_invariant_preserved 10 10 HH) as [Hreach Hint].
  assert (Hinv : profile_invariant 10 10
                   [mkPoint 0 3; mkPoint 4 3; mkPoint 8 0]).
  { apply (Hreach (mkPacker 10 10 [mkPoint 0 3; mkPoint 4 3; mkPoint 8 0])).
    apply (reachable_TryPack 10 10
             (mkPacker 10 10 [mkPoint 0 3; mkPoint 4 0]) 4 3
             (Some (mkPoint 4 0))); [|lia|reflexivity].
    apply (reachable_TryPack 10 10 (new_packer 10 10) 4 3
             (Some (mkPoint 0 0))); [|lia|reflexivity].
    apply reachable_new. }
  split; [exact HH|]. split; [exact Hinv|].
  apply (Hint (mkPacker 10 10 [mkPoint 0 3; mkPoint 4 3; mkPoint 8 0]));
    [reflexivity | exact Hinv | lia | lia | lia].
Defined.

(** Every branch of [integrateRectangle] on one profile: the rectangle
    starts on a breakpoint or inside a slice, and ends on a breakpoint,
    inside a slice, past covered slices, or at the right edge. *)
Example integrateRectangle_branches :
  let self := mkPacker 10 10 [mkPoint 0 3; mkPoint 4 1; mkPoint 8 0] in
  integrateRectangle self 4 4 5
    = Ok [mkPoint 0 3; mkPoint 4 5; mkPoint 8 0] /\
  integrateRectangle self 2 4 5
    = Ok [mkPoint 0 3; mkPoint 2 5; mkPoint 6 1; mkPoint 8 0] /\
  integrateRectangle self 0 9 5
    = Ok [mkPoint 0 5; mkPoint 9 0] /\
  integrateRectangle self 8 2 5
    = Ok [mkPoint 0 3; mkPoint 4 1; mkPoint 8 5] /\
  integrateRectangle self 9 1 5
    = Ok [mkPoint 0 3; mkPoint 4 1; mkPoint 8 0; mkPoint 9 5] /\
  integrateRectangle self 2 8 5
    = Ok [mkPoint 0 3; mkPoint 2 5].
Proof. repeat split; reflexivity. Qed.

(** Without a positive width the invariant is lost: a rectangle of width
    0 leaves two breakpoints at the same x. *)
Example TryPack_zero_width :
  TryPack (new_packer 10 10) 0 1
    = Ok (Some (mkPoint 0 0), mkPacker 10 10 [mkPoint 0 1; mkPoint 0 0]).
Proof. reflexivity. Qed.

(** Without [0 <= H] it does not hold at the start: the initial
    breakpoint, of height 0, is above an area height that is negative. *)
Example new_packer_negative_height :
  reachable 10 (-1) (new_packer 10 (-1)) /\
  ~ profile_invariant 10 (-1) (heightSlices (new_packer 10 (-1))).
Proof.
  split; [apply reachable_new|].
  intros (_ & _ & _ & Hh). apply Forall_cons in Hh as [Hh _].
  simpl in Hh. lia.
Qed.

(** What [integrateRectangle] is given matters as well: from the profile
    [(0, 0)] of a 10x10 area, a left edge below 0 moves the first
    breakpoint off [x = 0], a width of 0 gives two breakpoints at one x,
    and a bottom edge above the area gives a height above it. *)
Example integrateRectangle_outside_domain :
  integrateRectangle (new_packer 10 10) (-1) 2 1
    = Ok [mkPoint (-1) 1; mkPoint 1 0] /\
  integrateRectangle (new_packer 10 10) 0 0 1
    = Ok [mkPoint 0 1; mkPoint 0 0] /\
  integrateRectangle (new_packer 10 10) 0 2 11
    = Ok [mkPoint 0 11; mkPoint 2 0].
Proof. repeat split; reflexivity. Qed.

(** ** No overlap *)

Lemma pairwise_disjoint_nil : pairwise_disjoint [].
Proof. intros i j r1 r2 _ Hi. discriminate. Qed.

Lemma pairwise_disjoint_cons (r0 : Rect) (rs : list Rect) :
  Forall (boxes_disjoint r0) rs -> pairwise_disjoint rs ->
  pairwise_disjoint (r0 :: rs).
Proof.
  intros Hnew Hold i j r1 r2 Hne Hi Hj.
  rewrite Forall_forall in Hnew.
  destruct i as [|i], j as [|j]; simpl in Hi, Hj.
  - congruence.
  - injection Hi as <-. apply Hnew.
    eapply list_elem_of_lookup_2. exact Hj.
  - injection Hj as <-. intros cx cy H1 H2.
    eapply Hnew; [eapply list_elem_of_lookup_2; exact Hi | exact H2 | exact H1].
  - apply (Hold i j); [congruence | assumption | assumption].
Qed.

(** In an area without width every proper request is turned down. *)
Lemma TryPack_all_no_width (calls : list (Z * Z)) :
  forall self : CygonRectanglePacker,
    packingAreaWidth self <= 0 -> Forall proper_call calls ->
    TryPack_all self calls = Ok ([], self).
Proof.
  induction calls as [|[w h] calls IH]; intros self HW Hcalls;
    [reflexivity|].
  apply Forall_cons in Hcalls as [[Hw _] Hcalls]. simpl in Hw.
  rewrite TryPack_all_cons, TryPack_rejects by lia.
  rewrite bind_Ok_l. cbv beta iota.
  rewrite IH by assumption. reflexivity.
Qed.

Lemma proper_sized (calls : list (Z * Z)) :
  Forall proper_call calls -> Forall sized_call calls.
Proof.
  intros Hcalls. eapply Forall_impl; [exact Hcalls|].
  intros c [Hw Hh]. split; [lia | exact Hh].
Qed.

(** No request of a width from 0 on fits an area of negative width. *)
Lemma TryPack_all_negative_width (calls : list (Z * Z)) :
  forall self : CygonRectanglePacker,
    packingAreaWidth self < 0 -> Forall sized_call calls ->
    TryPack_all self calls = Ok ([], self).
Proof.
  induction calls as [|[w h] calls IH]; intros self HW Hcalls;
    [reflexivity|].
  apply Forall_cons in Hcalls as [[Hw _] Hcalls]. simpl in Hw.
  rewrite TryPack_all_cons, TryPack_rejects by lia.
  rewrite bind_Ok_l. cbv beta iota.
  rewrite IH by assumption. reflexivity.
Qed.

(** From a profile in order on, every sequence of requests with sizes
    from 0 on returns; the rectangles it commits are pairwise disjoint and
    all sit on or above the silhouette the sequence started from. *)
Lemma TryPack_all_ok (calls : list (Z * Z)) :
  forall self : CygonRectanglePacker,
    profile_ok (packingAreaWidth self) (heightSlices self) ->
    Forall sized_call calls ->
    exists (rects : list Rect) (self' : CygonRectanglePacker),
      TryPack_all self calls = Ok (rects, self') /\
      pairwise_disjoint rects /\
      Forall (above_skyline self) rects.
Proof.
  induction calls as [|[w h] calls IH]; intros self Hwf Hcalls.
  { exists [], self. split; [reflexivity|].
    split; [apply pairwise_disjoint_nil | constructor]. }
  apply Forall_cons in Hcalls as [[Hw Hh] Hcalls]. simpl in Hw, Hh.
  destruct (TryPack_ok self w h Hwf Hw)
    as (r & self1 & Hrun & HW1 & Hwf1 & Hr).
  rewrite <- HW1 in Hwf1.
  destruct (IH self1 Hwf1 Hcalls) as (rects & self2 & Hrest & Hdisj & Habove).
  rewrite TryPack_all_cons, Hrun, bind_Ok_l. cbv beta iota.
  rewrite Hrest, bind_Ok_l. cbv beta iota.
  destruct r as [p|].
  2:{ subst self1. exists rects, self2. auto. }
  destruct Hr as (Hx0 & HxW & Hclear & Hat).
  exists (mkRect (Point_x p) (Point_y p) w h :: rects), self2.
  split; [reflexivity|].
  rewrite Forall_forall in Habove.
  split; [|constructor].
  - (* the new rectangle lies under everything committed after it *)
    apply pairwise_disjoint_cons; [|exact Hdisj].
    apply Forall_forall. intros r1 Hr1 cx cy [Hcx Hcy] [Hcx1 Hcy1].
    simpl in Hcx, Hcy.
    destruct (Habove r1 Hr1) as [Hr1W Hr1clear]. rewrite HW1 in Hr1W.
    specialize (Hr1clear cx Hcx1).
    rewrite Hat in Hr1clear by lia.
    destruct (Z.leb_spec (Point_x p) cx); [|lia].
    destruct (Z.ltb_spec cx (Point_x p + w)); [|lia].
    simpl in Hr1clear. lia.
  - split; simpl; assumption.
  - (* the silhouette only rises *)
    apply Forall_forall. intros r1 Hr1.
    destruct (Habove r1 Hr1) as [Hr1W Hr1clear]. rewrite HW1 in Hr1W.
    split; [exact Hr1W|].
    intros c Hc. specialize (Hr1clear c Hc).
    rewrite Hat in Hr1clear by lia.
    destruct (Z.leb_spec (Point_x p) c); simpl in Hr1clear; [|exact Hr1clear].
    destruct (Z.ltb_spec c (Point_x p + w)); simpl in Hr1clear;
      [|exact Hr1clear].
    specialize (Hclear c ltac:(lia)). lia.
Qed.

(** C2, as stated, does not hold: not every sequence of [TryPack] calls
    commits pairwise disjoint boxes.  On a fresh 10x10 packer the calls
    [TryPack(10, 5)], [TryPack(10, -3)], [TryPack(10, 5)] all succeed, at
    [(0, 0)], [(0, 5)] and [(0, 2)]: the request of negative height lowers
    the profile from 5 to 2, and the third box [0, 10) x [2, 7) lies
    across the first, [0, 10) x [0, 5). *)
Lemma TryPack_boxes_overlap :
  ~ (forall (W H : Z) (calls : list (Z * Z)) (rects : list Rect)
            (self' : CygonRectanglePacker),
       TryPack_all (new_packer W H) calls = Ok (rects, self') ->
       pairwise_disjoint rects).
Proof.
  intros Hall.
  apply (Hall 10 10 [(10, 5); (10, -3); (10, 5)]
           [mkRect 0 0 10 5; mkRect 0 5 10 (-3); mkRect 0 2 10 5]
           (mkPacker 10 10 [mkPoint 0 7]) eq_refl
           0%nat 2%nat (mkRect 0 0 10 5) (mkRect 0 2 10 5)
           ltac:(discriminate) eq_refl eq_refl 0 2);
    unfold in_box; simpl; lia.
Qed.

(** C2, amended: for every sequence of [TryPack] calls on a fresh packer
    in which no requested width and no requested height is negative, the
    calls all return, and the boxes [x, x+w) x [y, y+h) committed by the
    successful ones are pairwise disjoint.  Widths and heights of 0 are
    included: such a rectangle has an empty box, and the profile it leaves
    (two breakpoints at one x) does not mislead the later calls. *)
Theorem TryPack_boxes_disjoint (W H : Z) (calls : list (Z * Z)) :
  Forall sized_call calls ->
  exists (rects : list Rect) (self' : CygonRectanglePacker),
    TryPack_all (new_packer W H) calls = Ok (rects, self') /\
    pairwise_disjoint rects.
Proof.
  intros Hcalls.
  destruct (Z_le_gt_dec 0 W) as [HW|HW].
  - destruct (TryPack_all_ok calls (new_packer W H)
                (new_packer_ok W H HW) Hcalls)
      as (rects & self' & Hrun & Hdisj & _).
    exists rects, self'. auto.
  - exists [], (new_packer W H).
    split; [apply TryPack_all_negative_width; [simpl; lia | assumption]|].
    apply pairwise_disjoint_nil.
Qed.

Lemma TryPack_boxes_disjoint_witness :
  Forall sized_call [(3, 2); (0, 5); (3, 1); (0, 1); (2, 0); (4, 3)] /\
  exists (rects : list Rect) (self' : CygonRectanglePacker),
    TryPack_all (new_packer 10 10)
        [(3, 2); (0, 5); (3, 1); (0, 1); (2, 0); (4, 3)]
      = Ok (rects, self') /\
    pairwise_disjoint rects.
Proof.
  assert (Hcalls :
    Forall sized_call [(3, 2); (0, 5); (3, 1); (0, 1); (2, 0); (4, 3)]).
  { repeat constructor; simpl; lia. }
  split; [exact Hcalls|].
  exact (TryPack_boxes_disjoint 10 10 _ Hcalls).
Defined.

Example TryPack_all_sample :
  TryPack_all (new_packer 10 10) [(4, 3); (4, 3); (4, 3); (10, 1); (2, 9)]
  = Ok ([mkRect 0 0 4 3; mkRect 4 0 4 3; mkRect 0 3 4 3; mkRect 0 6 10 1],
        mkPacker 10 10 [mkPoint 0 7]).
Proof. reflexivity. Qed.

(** Both bounds of the domain are needed.  A negative height lets the
    silhouette sink, and a later rectangle then lands on an earlier
    one. *)
Example TryPack_negative_height_overlaps :
  TryPack_all (new_packer 10 10) [(10, 5); (10, -3); (10, 5)]
  = Ok ([mkRect 0 0 10 5; mkRect 0 5 10 (-3); mkRect 0 2 10 5],
        mkPacker 10 10 [mkPoint 0 7]) /\
  in_box (mkRect 0 0 10 5) 0 2 /\ in_box (mkRect 0 2 10 5) 0 2.
Proof. split; [reflexivity|]. unfold in_box; simpl; lia. Qed.

(** A negative width puts a breakpoint left of the one the rectangle
    starts at; the third rectangle then begins at [x = -1], across the
    first. *)
Example TryPack_negative_width_overlaps :
  TryPack_all (new_packer 10 10) [(2, 1); (-3, 2); (2, 1)]
  = Ok ([mkRect 0 0 2 1; mkRect 2 0 (-3) 2; mkRect (-1) 0 2 1],
        mkPacker 10 10
          [mkPoint (-1) 1; mkPoint 1 1; mkPoint 2 2; mkPoint (-1) 0]) /\
  in_box (mkRect 0 0 2 1) 0 0 /\ in_box (mkRect (-1) 0 2 1) 0 0.
Proof. split; [reflexivity|]. unfold in_box; simpl; lia. Qed.

(** Sizes of 0 are within the domain: the rectangles of width 0 below
    leave breakpoints at the same x behind, and the boxes still keep
    apart. *)
Example TryPack_all_zero_sizes :
  TryPack_all (new_packer 10 10)
    [(3, 2); (0, 5); (3, 1); (0, 1); (2, 0); (4, 3)]
  = Ok ([mkRect 0 0 3 2; mkRect 3 0 0 5; mkRect 3 0 3 1; mkRect 6 0 0 1;
         mkRect 6 0 2 0; mkRect 3 1 4 3],
        mkPacker 10 10 [mkPoint 0 2; mkPoint 3 4; mkPoint 7 0; mkPoint 8 0]).
Proof. reflexivity. Qed.

(** ** The scenarios *)

(** C3, as stated, does not hold: after [TryPack(10, 5)] on a fresh 10x10
    packer the second [TryPack(10, 5)] does not return [(0, 5)]. *)
Lemma scenario_B_refuted :
  ~ exists self1 self2 : CygonRectanglePacker,
      TryPack (new_packer 10 10) 10 5 = Ok (Some (mkPoint 0 0), self1) /\
      TryPack self1 10 5 = Ok (Some (mkPoint 0 5), self2) /\
      heightSlices self2 = [mkPoint 0 10].
Proof.
  intros (self1 & self2 & H1 & H2 & _).
  vm_compute in H1. injection H1 as <-.
  vm_compute in H2. discriminate.
Qed.

(** C3, amended: on a fresh 10x10 packer the first [TryPack(10, 5)]
    returns [(0, 0)]; the second returns [None], its bottom edge
    [5 + 5] landing exactly on [packingAreaHeight]; the profile after both
    calls is the single breakpoint [(0, 5)]. *)
Theorem scenario_B_amended :
  exists self1 : CygonRectanglePacker,
    TryPack (new_packer 10 10) 10 5 = Ok (Some (mkPoint 0 0), self1) /\
    TryPack self1 10 5 = Ok (None, self1) /\
    heightSlices self1 = [mkPoint 0 5].
Proof.
  exists (mkPacker 10 10 [mkPoint 0 5]). repeat split; reflexivity.
Qed.

(** C4, as stated, does not hold: the third [TryPack(4, 3)] on a 10x10
    packer does not return [None]. *)
Lemma scenario_A_refuted :
  ~ exists self1 self2 self3 : CygonRectanglePacker,
      TryPack (new_packer 10 10) 4 3 = Ok (Some (mkPoint 0 0), self1) /\
      TryPack self1 4 3 = Ok (Some (mkPoint 4 0), self2) /\
      TryPack self2 4 3 = Ok (None, self3).
Proof.
  intros (self1 & self2 & self3 & H1 & H2 & H3).
  vm_compute in H1. injection H1 as <-.
  vm_compute in H2. injection H2 as <-.
  vm_compute in H3. discriminate.
Qed.

(** C4, amended: on a fresh 10x10 packer three [TryPack(4, 3)] calls
    return [(0, 0)], [(4, 0)] and [(0, 3)]: the third rectangle does not
    fit side by side at [x = 8] and is put on top of the first. *)
Theorem scenario_A_amended :
  exists self1 self2 self3 : CygonRectanglePacker,
    TryPack (new_packer 10 10) 4 3 = Ok (Some (mkPoint 0 0), self1) /\
    TryPack self1 4 3 = Ok (Some (mkPoint 4 0), self2) /\
    TryPack self2 4 3 = Ok (Some (mkPoint 0 3), self3) /\
    heightSlices self3 = [mkPoint 0 6; mkPoint 4 3; mkPoint 8 0].
Proof.
  exists (mkPacker 10 10 [mkPoint 0 3; mkPoint 4 0]),
         (mkPacker 10 10 [mkPoint 0 3; mkPoint 4 3; mkPoint 8 0]),
         (mkPacker 10 10 [mkPoint 0 6; mkPoint 4 3; mkPoint 8 0]).
  repeat split; reflexivity.
Qed.

(** Scenario D: the height of a window is the maximum over the whole
    span. *)
Example scenario_D :
  TryPack_all (new_packer 10 10) [(3, 2); (10, 1)]
  = Ok ([mkRect 0 0 3 2; mkRect 0 2 10 1], mkPacker 10 10 [mkPoint 0 3]).
Proof. reflexivity. Qed.

(** ** Lowest placement *)

(** C1 at a reachable profile: after one [TryPack(5, 3)] on a fresh 10x10
    packer the profile is [(0, 3), (5, 0)]; a second rectangle of the
    same size fits at [(5, 0)] (its span [5, 10) lies in the area, its
    bottom edge 3 is below 10, the columns under it have height 0), but
    the search returns [(0, 3)]: the window that ends exactly at the right
    edge of the area is never examined. *)
Theorem tryFindBestPlacement_not_lowest :
  let self := mkPacker 10 10 [mkPoint 0 3; mkPoint 5 0] in
  reachable 10 10 self /\
  tryFindBestPlacement self 5 3 = Ok (Some (mkPoint 0 3)) /\
  TryPack self 5 3
    = Ok (Some (mkPoint 0 3), mkPacker 10 10 [mkPoint 0 6; mkPoint 5 0]) /\
  exists x' y' : Z,
    0 <= x' /\ x' + 5 <= packingAreaWidth self /\
    y' + 3 < packingAreaHeight self /\
    (forall c : Z, x' <= c < x' + 5 -> height_at (heightSlices self) c <= y') /\
    y' < 3.
Proof.
  intros self. split; [|split; [|split]].
  - apply (reachable_TryPack 10 10 (new_packer 10 10) 5 3
             (Some (mkPoint 0 0))); [apply reachable_new | lia | reflexivity].
  - reflexivity.
  - reflexivity.
  - exists 5, 0. simpl. repeat split; try lia.
    intros c Hc. unfold height_at, height_from. simpl.
    unfold height_step. simpl.
    destruct (Z.leb_spec 0 c); [|lia].
    destruct (Z.leb_spec 5 c); lia.
Qed.

(** The same window is examined when something lies to its right: in a
    12-wide area the second rectangle goes to [(5, 0)]. *)
Example tryFindBestPlacement_inner_window :
  tryFindBestPlacement (mkPacker 12 10 [mkPoint 0 3; mkPoint 5 0]) 5 3
  = Ok (Some (mkPoint 5 0)).
Proof. reflexivity. Qed.

(** ** The step budgets are enough *)

(** The loops are modelled with a step budget; no call ever uses it up,
    on any profile, so [OutOfFuel] stands for nothing the code does. *)

Lemma bind_no_fuel {A B : Type} (m : M A) (k : A -> M B) :
  m <> Raise OutOfFuel ->
  (forall a, m = Ok a -> k a <> Raise OutOfFuel) ->
  m ≫= k <> Raise OutOfFuel.
Proof.
  intros Hm Hk. destruct m as [a|e]; simpl.
  - apply Hk. reflexivity.
  - intros [= ->]. apply Hm. reflexivity.
Qed.

Lemma getitem_no_fuel (a : list Point) (i : nat) :
  getitem a i <> Raise OutOfFuel.
Proof. unfold getitem. destruct (a !! i); discriminate. Qed.

Lemma getitem_int_no_fuel (a : list Point) (i : Z) :
  getitem_int a i <> Raise OutOfFuel.
Proof.
  unfold getitem_int.
  destruct (_ <? 0); [discriminate | apply getitem_no_fuel].
Qed.

Lemma setitem_no_fuel (a : list Point) (i : nat) (p : Point) :
  setitem a i p <> Raise OutOfFuel.
Proof. unfold setitem. destruct (_ <? _)%nat; discriminate. Qed.

Lemma bisect_loop_no_fuel (a : list Point) (x : Point) (fuel : nat) :
  forall lo hi : nat,
    (hi - lo < fuel)%nat -> bisect_loop fuel a x lo hi <> Raise OutOfFuel.
Proof.
  induction fuel as [|fuel IH]; intros lo hi Hfuel; [lia|].
  rewrite bisect_loop_S.
  destruct (Nat.ltb_spec lo hi) as [Hlt|]; [|discriminate].
  assert (Hmid : (lo <= (lo + hi) / 2 < hi)%nat).
  { split.
    - apply Nat.div_le_lower_bound; lia.
    - apply Nat.Div0.div_lt_upper_bound; lia. }
  apply bind_no_fuel; [apply getitem_no_fuel|].
  intros am _. destruct (Point_lt am x); apply IH; lia.
Qed.

Lemma binary_search_no_fuel (a : list Point) (x : Point) (lo : nat)
    (hi : option nat) :
  binary_search a x lo hi <> Raise OutOfFuel.
Proof.
  unfold binary_search, bisect_left.
  apply bind_no_fuel; [apply bisect_loop_no_fuel; lia|].
  intros pos _. destruct (negb _); [|discriminate].
  apply bind_no_fuel; [apply getitem_no_fuel | discriminate].
Qed.

Lemma highest_loop_no_fuel (self : CygonRectanglePacker) (count : nat) :
  forall (from : nat) (h0 : Z),
    highest_loop self count from h0 <> Raise OutOfFuel.
Proof.
  induction count as [|count IH]; intros from h0; simpl; [discriminate|].
  apply bind_no_fuel; [apply getitem_no_fuel|]. intros p _. apply IH.
Qed.

Lemma search_loop_no_fuel (self : CygonRectanglePacker) (w h : Z)
    (fuel : nat) :
  forall (best : option nat) (bestY score : Z) (left right : nat),
    (length (heightSlices self) - left < fuel)%nat ->
    search_loop self w h fuel best bestY score left right
      <> Raise OutOfFuel.
Proof.
  induction fuel as [|fuel IH]; intros best bestY score left right Hfuel;
    [lia|].
  rewrite search_loop_S.
  destruct (right <=? length (heightSlices self))%nat; [|discriminate].
  apply bind_no_fuel; [apply getitem_no_fuel|]. intros p _.
  apply bind_no_fuel; [apply highest_loop_no_fuel|]. intros highest _.
  destruct (if highest + h <? packingAreaHeight self
            then if highest <? score then (Some left, highest, highest)
                 else (best, bestY, score)
            else (best, bestY, score)) as [[best' bestY'] score'].
  destruct (Nat.leb_spec (length (heightSlices self)) (left + 1));
    [discriminate|].
  apply bind_no_fuel; [apply getitem_no_fuel|]. intros q _.
  destruct (advance_right_spec self
              (S (S (length (heightSlices self)) - right))
              (Point_x q + w) right ltac:(lia)) as (r' & -> & _).
  rewrite bind_Ok_l.
  destruct (length (heightSlices self) <? r')%nat; [discriminate|].
  apply IH. lia.
Qed.

Lemma tryFindBestPlacement_no_fuel (self : CygonRectanglePacker) (w h : Z) :
  tryFindBestPlacement self w h <> Raise OutOfFuel.
Proof.
  unfold tryFindBestPlacement, bisect_left.
  apply bind_no_fuel; [apply bisect_loop_no_fuel; lia|]. intros right _.
  apply bind_no_fuel; [apply search_loop_no_fuel; lia|].
  intros [best bestY] _. destruct best; [|discriminate].
  apply bind_no_fuel; [apply getitem_no_fuel | discriminate].
Qed.

Lemma integrateRectangle_no_fuel (self : CygonRectanglePacker)
    (left width bottom : Z) :
  integrateRectangle self left width bottom <> Raise OutOfFuel.
Proof.
  rewrite integrateRectangle_unfold.
  apply bind_no_fuel; [apply binary_search_no_fuel|].
  intros [startSlice hit] _.
  apply bind_no_fuel.
  - destruct hit.
    + apply bind_no_fuel; [apply getitem_no_fuel|]. intros p _.
      apply bind_no_fuel; [apply setitem_no_fuel | discriminate].
    + apply bind_no_fuel; [apply getitem_int_no_fuel | discriminate].
  - intros [orig slices] _. unfold integrate_tail.
    destruct (_ <=? _)%nat; [destruct (_ <? _); discriminate|].
    apply bind_no_fuel; [apply binary_search_no_fuel|].
    intros [endSlice hit'] _. destruct hit'; [discriminate|].
    apply bind_no_fuel.
    + destruct (_ =? _)%nat; [discriminate|].
      apply bind_no_fuel; [apply getitem_int_no_fuel | discriminate].
    + intros ret _. destruct (_ <? _); discriminate.
Qed.

(** On every profile and for all dimensions, [TryPack] returns or raises
    [IndexError]; the step budgets of the model are never the reason it
    stops. *)
Theorem TryPack_no_fuel (self : CygonRectanglePacker) (w h : Z) :
  TryPack self w h <> Raise OutOfFuel.
Proof.
  unfold TryPack. destruct (_ || _); [discriminate|].
  apply bind_no_fuel; [apply tryFindBestPlacement_no_fuel|].
  intros [p|] _; [|discriminate].
  apply bind_no_fuel; [apply integrateRectangle_no_fuel | discriminate].
Qed.

(** From a reachable packer, a call for a rectangle of positive width
    returns. *)
Theorem TryPack_reachable_returns (W H : Z) (self : CygonRectanglePacker)
    (w h : Z) :
  0 <= H -> reachable W H self -> 0 < w ->
  exists (r : option Point) (self' : CygonRectanglePacker),
    TryPack self w h = Ok (r, self').
Proof.
  intros HH Hreach Hw.
  destruct (reachable_wf W H self HH Hreach)
    as (HsW & _ & Hzero & Hsi & _ & Hin).
  destruct (Z_lt_le_dec 0 W) as [HW|HW].
  - destruct (TryPack_wf self w h) as (r & self' & Hrun & _); [|exact Hw|eauto].
    rewrite HsW. constructor; auto.
  - exists None, self. apply TryPack_rejects. lia.
Qed.

(** * Further properties of the code *)

(** ** [binary_search] *)

Lemma half_between (lo hi : nat) :
  (lo < hi)%nat -> (lo <= (lo + hi) / 2 < hi)%nat.
Proof.
  intros Hlt. split.
  - apply Nat.div_le_lower_bound; lia.
  - apply Nat.Div0.div_lt_upper_bound; lia.
Qed.

(** On any list, a bisection inside the list returns a position of the
    range it was given. *)
Lemma bisect_loop_range (a : list Point) (x : Point) (fuel : nat) :
  forall lo hi : nat,
    (lo <= hi <= length a)%nat -> (hi - lo < fuel)%nat ->
    exists pos : nat,
      bisect_loop fuel a x lo hi = Ok pos /\ (lo <= pos <= hi)%nat.
Proof.
  induction fuel as [|fuel IH]; intros lo hi Hrange Hfuel; [lia|].
  rewrite bisect_loop_S.
  destruct (Nat.ltb_spec lo hi) as [Hlt|]; [|exists lo; split; [auto | lia]].
  pose proof (half_between lo hi Hlt) as Hmid.
  destruct (lookup_lt_is_Some_2 a ((lo + hi) / 2)) as [am Ham]; [lia|].
  rewrite (getitem_lookup _ _ _ Ham), bind_Ok_l.
  destruct (Point_lt am x).
  - destruct (IH ((lo + hi) / 2 + 1)%nat hi ltac:(lia) ltac:(lia))
      as (pos & -> & Hpos).
    exists pos. split; [reflexivity | lia].
  - destruct (IH lo ((lo + hi) / 2)%nat ltac:(lia) ltac:(lia))
      as (pos & -> & Hpos).
    exists pos. split; [reflexivity | lia].
Qed.

(** On a strictly increasing list the position splits the range: before
    it everything starts left of [x], from it on nothing does. *)
Lemma bisect_loop_sorted (a : list Point) (x : Point) (fuel : nat) :
  strictly_increasing a ->
  forall lo hi : nat,
    (lo <= hi <= length a)%nat -> (hi - lo < fuel)%nat ->
    exists pos : nat,
      bisect_loop fuel a x lo hi = Ok pos /\ (lo <= pos <= hi)%nat /\
      (forall (i : nat) (p : Point),
         (lo <= i < pos)%nat -> a !! i = Some p -> Point_x p < Point_x x) /\
      (forall (i : nat) (p : Point),
         (pos <= i < hi)%nat -> a !! i = Some p -> Point_x x <= Point_x p).
Proof.
  intros Hsi.
  induction fuel as [|fuel IH]; intros lo hi Hrange Hfuel; [lia|].
  rewrite bisect_loop_S.
  destruct (Nat.ltb_spec lo hi) as [Hlt|].
  2:{ exists lo. split; [reflexivity|]. split; [lia|]. split; intros; lia. }
  pose proof (half_between lo hi Hlt) as Hmid.
  destruct (lookup_lt_is_Some_2 a ((lo + hi) / 2)) as [am Ham]; [lia|].
  rewrite (getitem_lookup _ _ _ Ham), bind_Ok_l.
  unfold Point_lt, Point_cmp.
  destruct (Z.ltb_spec (Point_x am - Point_x x) 0) as [Hless|Hnot].
  - destruct (IH ((lo + hi) / 2 + 1)%nat hi ltac:(lia) ltac:(lia))
      as (pos & -> & Hpos & Hbefore & Hafter).
    exists pos. split; [reflexivity|]. split; [lia|]. split; [|exact Hafter].
    intros i p Hi Hp.
    destruct (decide (i <= (lo + hi) / 2)%nat) as [Hle|Hgt].
    + pose proof (si_lookup_le a i _ p am Hsi Hp Ham Hle). lia.
    + apply (Hbefore i p); [lia | exact Hp].
  - destruct (IH lo ((lo + hi) / 2)%nat ltac:(lia) ltac:(lia))
      as (pos & -> & Hpos & Hbefore & Hafter).
    exists pos. split; [reflexivity|]. split; [lia|]. split; [exact Hbefore|].
    intros i p Hi Hp.
    destruct (decide ((lo + hi) / 2 <= i)%nat) as [Hle|Hgt].
    + pose proof (si_lookup_le a _ i am p Hsi Ham Hp Hle). lia.
    + apply (Hafter i p); [lia | exact Hp].
Qed.

(** X1: on a strictly increasing list and a range [lo <= hi <= len(a)],
    [binary_search] returns the insertion position of [x] in the range
    (everything before it starts left of [x], nothing from it on does),
    and its flag says whether a point of the range starts exactly where
    [x] does. *)
Theorem binary_search_sorted (a : list Point) (x : Point) (lo : nat)
    (hi : option nat) :
  strictly_increasing a ->
  (lo <= search_end a hi <= length a)%nat ->
  exists (pos : nat) (hit : bool),
    binary_search a x lo hi = Ok (pos, hit) /\
    (lo <= pos <= search_end a hi)%nat /\
    (forall (i : nat) (p : Point),
       (lo <= i < pos)%nat -> a !! i = Some p -> Point_x p < Point_x x) /\
    (forall (i : nat) (p : Point),
       (pos <= i < search_end a hi)%nat -> a !! i = Some p ->
       Point_x x <= Point_x p) /\
    (hit = true <->
     exists (i : nat) (p : Point),
       (lo <= i < search_end a hi)%nat /\ a !! i = Some p /\
       Point_x p = Point_x x).
Proof.
  intros Hsi Hrange. unfold binary_search, bisect_left.
  fold (search_end a hi).
  destruct (bisect_loop_sorted a x (S (search_end a hi - lo)) Hsi lo
              (search_end a hi) Hrange ltac:(lia))
    as (pos & -> & Hpos & Hbefore & Hafter).
  rewrite bind_Ok_l.
  destruct (Nat.eqb_spec pos (search_end a hi)) as [Heq|Hne]; simpl negb;
    cbv iota.
  - exists pos, false. split; [reflexivity|]. split; [lia|].
    split; [exact Hbefore|]. split; [exact Hafter|].
    split; [discriminate|].
    intros (i & p & Hi & Hp & Hx).
    pose proof (Hbefore i p ltac:(lia) Hp). lia.
  - destruct (lookup_lt_is_Some_2 a pos) as [ap Hap]; [lia|].
    rewrite (getitem_lookup _ _ _ Hap), bind_Ok_l.
    exists pos, (Point_eq ap x). split; [reflexivity|]. split; [lia|].
    split; [exact Hbefore|]. split; [exact Hafter|].
    unfold Point_eq, Point_cmp. rewrite Z.eqb_eq. split.
    + intros Heq. exists pos, ap. split; [lia|]. split; [exact Hap | lia].
    + intros (i & p & Hi & Hp & Hx).
      destruct (decide (i < pos)%nat) as [Hlt|Hge].
      * pose proof (Hbefore i p ltac:(lia) Hp). lia.
      * pose proof (si_lookup_le a pos i ap p Hsi Hap Hp ltac:(lia)).
        pose proof (Hafter pos ap ltac:(lia) Hap). lia.
Qed.

Lemma binary_search_sorted_witness :
  strictly_increasing [mkPoint 0 3; mkPoint 4 1; mkPoint 8 0] /\
  (1 <= search_end [mkPoint 0 3; mkPoint 4 1; mkPoint 8 0] None <= 3)%nat /\
  exists (pos : nat) (hit : bool),
    binary_search [mkPoint 0 3; mkPoint 4 1; mkPoint 8 0] (mkPoint 8 0) 1 None
      = Ok (pos, hit) /\
    (1 <= pos <= 3)%nat /\
    (forall (i : nat) (p : Point),
       (1 <= i < pos)%nat ->
       [mkPoint 0 3; mkPoint 4 1; mkPoint 8 0] !! i = Some p ->
       Point_x p < 8) /\
    (forall (i : nat) (p : Point),
       (pos <= i < 3)%nat ->
       [mkPoint 0 3; mkPoint 4 1; mkPoint 8 0] !! i = Some p ->
       8 <= Point_x p) /\
    (hit = true <->
     exists (i : nat) (p : Point),
       (1 <= i < 3)%nat /\
       [mkPoint 0 3; mkPoint 4 1; mkPoint 8 0] !! i = Some p /\
       Point_x p = 8).
Proof.
  assert (Hsi : strictly_increasing [mkPoint 0 3; mkPoint 4 1; mkPoint 8 0]).
  { repeat constructor; unfold Point_before; simpl; lia. }
  assert (Hrange :
    (1 <= search_end [mkPoint 0 3; mkPoint 4 1; mkPoint 8 0] None <= 3)%nat).
  { simpl. lia. }
  split; [exact Hsi|]. split; [exact Hrange|].
  exact (binary_search_sorted _ (mkPoint 8 0) 1 None Hsi Hrange).
Defined.

(** X2: on any list, sorted or not, [binary_search] over a range
    [lo <= hi <= len(a)] raises nothing, returns a position of the range,
    and reports a hit only at a position inside the range whose point
    starts exactly where [x] does. *)
Theorem binary_search_in_range (a : list Point) (x : Point) (lo : nat)
    (hi : option nat) :
  (lo <= search_end a hi <= length a)%nat ->
  exists (pos : nat) (hit : bool),
    binary_search a x lo hi = Ok (pos, hit) /\
    (lo <= pos <= search_end a hi)%nat /\
    (hit = true ->
     (pos < search_end a hi)%nat /\
     exists p : Point, a !! pos = Some p /\ Point_x p = Point_x x).
Proof.
  intros Hrange. unfold binary_search, bisect_left.
  fold (search_end a hi).
  destruct (bisect_loop_range a x (S (search_end a hi - lo)) lo
              (search_end a hi) Hrange ltac:(lia)) as (pos & -> & Hpos).
  rewrite bind_Ok_l.
  destruct (Nat.eqb_spec pos (search_end a hi)) as [Heq|Hne]; simpl negb;
    cbv iota.
  - exists pos, false. split; [reflexivity|]. split; [lia | discriminate].
  - destruct (lookup_lt_is_Some_2 a pos) as [ap Hap]; [lia|].
    rewrite (getitem_lookup _ _ _ Hap), bind_Ok_l.
    exists pos, (Point_eq ap x). split; [reflexivity|]. split; [lia|].
    unfold Point_eq, Point_cmp. rewrite Z.eqb_eq. intros Heq.
    split; [lia|]. exists ap. split; [exact Hap | lia].
Qed.

Lemma binary_search_in_range_witness :
  (0 <= search_end [mkPoint 5 0; mkPoint 2 7; mkPoint 9 1] (Some 2%nat)
     <= 3)%nat /\
  exists (pos : nat) (hit : bool),
    binary_search [mkPoint 5 0; mkPoint 2 7; mkPoint 9 1] (mkPoint 2 0) 0
      (Some 2%nat) = Ok (pos, hit) /\
    (0 <= pos <= 2)%nat /\
    (hit = true ->
     (pos < 2)%nat /\
     exists p : Point,
       [mkPoint 5 0; mkPoint 2 7; mkPoint 9 1] !! pos = Some p /\
       Point_x p = 2).
Proof.
  assert (Hrange :
    (0 <= search_end [mkPoint 5 0; mkPoint 2 7; mkPoint 9 1] (Some 2%nat)
       <= 3)%nat) by (simpl; lia).
  split; [exact Hrange|].
  exact (binary_search_in_range _ (mkPoint 2 0) 0 (Some 2%nat) Hrange).
Defined.

(** Past the end of the list the search can run into [IndexError]. *)
Example binary_search_past_end :
  binary_search [mkPoint 0 0] (mkPoint 5 0) 0 (Some 3%nat) = Raise IndexError.
Proof. reflexivity. Qed.

(** ** [nearest_pow2] *)

(** The result in closed form: two to the rounded-up binary logarithm. *)
Lemma nearest_pow2_log2_up (n : Z) :
  1 <= n -> nearest_pow2 n = Ok (2 ^ Z.log2_up n).
Proof.
  intros Hn. rewrite nearest_pow2_value by assumption. f_equal.
  pose proof (Z.log2_nonneg n) as HL.
  pose proof (Z.log2_spec n ltac:(lia)) as [Hlo Hhi].
  destruct (Z.eqb_spec n (2 ^ Z.log2 n)) as [Heq|Hne].
  - rewrite Heq at 2. rewrite Z.log2_up_pow2 by assumption. exact Heq.
  - f_equal. symmetry.
    apply Z.log2_up_unique; [lia|].
    replace (Z.pred (Z.log2 n + 1)) with (Z.log2 n) by lia.
    replace (Z.succ (Z.log2 n)) with (Z.log2 n + 1) in Hhi by lia.
    lia.
Qed.

(** X3: for [n >= 1] the result of [nearest_pow2] is at least [n] and
    less than twice [n]. *)
Theorem nearest_pow2_less_than_double (n : Z) :
  1 <= n ->
  exists r : Z, nearest_pow2 n = Ok r /\ n <= r < 2 * n.
Proof.
  intros Hn. rewrite nearest_pow2_value by assumption.
  pose proof (Z.log2_nonneg n) as HL.
  pose proof (Z.log2_spec n ltac:(lia)) as [Hlo Hhi].
  replace (Z.succ (Z.log2 n)) with (Z.log2 n + 1) in Hhi by lia.
  destruct (Z.eqb_spec n (2 ^ Z.log2 n)) as [Heq|Hne].
  - exists n. split; [reflexivity | lia].
  - exists (2 ^ (Z.log2 n + 1)). split; [reflexivity|].
    rewrite Z.pow_add_r in * by lia. lia.
Qed.

Lemma nearest_pow2_less_than_double_witness :
  1 <= 4097 /\ exists r : Z, nearest_pow2 4097 = Ok r /\ 4097 <= r < 2 * 4097.
Proof.
  split; [lia | apply (nearest_pow2_less_than_double 4097); lia].
Defined.

(** X4: [nearest_pow2] is monotone on [n >= 1]: a larger preferred size
    never gives a smaller image size. *)
Theorem nearest_pow2_monotone (n m : Z) :
  1 <= n -> n <= m ->
  exists r s : Z,
    nearest_pow2 n = Ok r /\ nearest_pow2 m = Ok s /\ r <= s.
Proof.
  intros Hn Hnm.
  exists (2 ^ Z.log2_up n), (2 ^ Z.log2_up m).
  split; [apply nearest_pow2_log2_up; lia|].
  split; [apply nearest_pow2_log2_up; lia|].
  apply Z.pow_le_mono_r; [lia|].
  apply Z.log2_up_le_mono. exact Hnm.
Qed.

Lemma nearest_pow2_monotone_witness :
  1 <= 100 /\ 100 <= 129 /\
  exists r s : Z,
    nearest_pow2 100 = Ok r /\ nearest_pow2 129 = Ok s /\ r <= s.
Proof.
  split; [lia|]. split; [lia|].
  apply (nearest_pow2_monotone 100 129); lia.
Defined.

(** On a negative number the loop never meets [m = 0]. *)
Lemma nearest_pow2_loop_negative (fuel : nat) :
  forall n m : Z, m < 0 -> nearest_pow2_loop fuel n m = Raise OutOfFuel.
Proof.
  induction fuel as [|fuel IH]; intros n m Hm; [reflexivity|].
  simpl. destruct (Z.eqb_spec m 0) as [|_]; [lia|].
  apply IH. apply Z.land_neg. lia.
Qed.

(** X5: outside [n >= 1] [nearest_pow2] gives no power of two: 0 is
    returned as it is, and for a negative [n] the loop does not end,
    whatever the number of passes allowed. *)
Theorem nearest_pow2_not_positive :
  (forall fuel : nat, nearest_pow2_fuel fuel 0 = Ok 0) /\
  (forall (n : Z) (fuel : nat),
     n < 0 -> nearest_pow2_fuel fuel n = Raise OutOfFuel).
Proof.
  split; [reflexivity|].
  intros n fuel Hn. unfold nearest_pow2_fuel.
  assert (Hm : Z.land n (n - 1) < 0) by (apply Z.land_neg; lia).
  destruct (Z.eqb_spec (Z.land n (n - 1)) 0) as [|_]; [lia|].
  rewrite nearest_pow2_loop_negative; [reflexivity|].
  apply Z.land_neg. lia.
Qed.

Lemma nearest_pow2_not_positive_witness :
  nearest_pow2_fuel 1000 0 = Ok 0 /\
  nearest_pow2_fuel 1000 (-4096) = Raise OutOfFuel.
Proof.
  destruct nearest_pow2_not_positive as [Hzero Hneg].
  split; [apply Hzero | apply Hneg; lia].
Defined.

(** ** What [integrateRectangle] does to the silhouette *)

(** X6: on a strictly increasing profile from [x = 0], for a left edge
    [left >= 0] and a positive width, [integrateRectangle] returns a
    profile whose height is [bottom] over the columns
    [left, left + width) and what it was over every other column of the
    area. *)
Theorem integrateRectangle_silhouette (self : CygonRectanglePacker)
    (left width bottom : Z) :
  starts_at_zero (heightSlices self) ->
  strictly_increasing (heightSlices self) ->
  0 <= left -> 0 < width ->
  exists s' : list Point,
    integrateRectangle self left width bottom = Ok s' /\
    forall c : Z, c < packingAreaWidth self ->
      height_at s' c =
        if (left <=? c) && (c <? left + width) then bottom
        else height_at (heightSlices self) c.
Proof.
  intros Hzero Hsi Hleft Hwidth.
  destruct (integrateRectangle_spec self left width bottom Hzero Hsi
              Hleft Hwidth) as (s' & Hrun & _ & _ & _ & _ & Hat).
  exists s'. auto.
Qed.

Lemma integrateRectangle_silhouette_witness :
  starts_at_zero [mkPoint 0 3; mkPoint 4 1; mkPoint 8 0] /\
  strictly_increasing [mkPoint 0 3; mkPoint 4 1; mkPoint 8 0] /\
  0 <= 2 /\ 0 < 7 /\
  exists s' : list Point,
    integrateRectangle
      (mkPacker 10 10 [mkPoint 0 3; mkPoint 4 1; mkPoint 8 0]) 2 7 5 = Ok s' /\
    forall c : Z, c < 10 ->
      height_at s' c =
        if (2 <=? c) && (c <? 2 + 7) then 5
        else height_at [mkPoint 0 3; mkPoint 4 1; mkPoint 8 0] c.
Proof.
  assert (Hzero : starts_at_zero [mkPoint 0 3; mkPoint 4 1; mkPoint 8 0]).
  { exists (mkPoint 0 3). split; reflexivity. }
  assert (Hsi : strictly_increasing [mkPoint 0 3; mkPoint 4 1; mkPoint 8 0]).
  { repeat constructor; unfold Point_before; simpl; lia. }
  split; [exact Hzero|]. split; [exact Hsi|].
  split; [lia|]. split; [lia|].
  apply (integrateRectangle_silhouette
           (mkPacker 10 10 [mkPoint 0 3; mkPoint 4 1; mkPoint 8 0]) 2 7 5
           Hzero Hsi); lia.
Defined.

(** ** The size of the profile *)

Lemma close_tail_length (W right ret : Z) (C : list Point) :
  (length (close_tail W right ret C) <= S (length C))%nat.
Proof.
  unfold close_tail. destruct C as [|q C'].
  - destruct (right <? W); simpl; lia.
  - destruct (Point_x q =? right); [simpl; lia|].
    destruct (right <? W); simpl; lia.
Qed.

(** The call adds at most two breakpoints, and at most one when the
    rectangle starts on a breakpoint. *)
Lemma integrateRectangle_length (self : CygonRectanglePacker)
    (left width bottom : Z) (s' : list Point) :
  starts_at_zero (heightSlices self) ->
  strictly_increasing (heightSlices self) ->
  0 <= left -> 0 < width ->
  integrateRectangle self left width bottom = Ok s' ->
  (length s' <= length (heightSlices self) + 2)%nat /\
  ((exists q, q ∈ heightSlices self /\ Point_x q = left) ->
   (length s' <= length (heightSlices self) + 1)%nat).
Proof.
  intros Hzero Hsi Hleft Hwidth Hrun.
  destruct (si_split3 left (left + width) (heightSlices self))
    as (A & Mid & C & Hs & HA & HMid & HC); [assumption | lia |].
  rewrite (integrateRectangle_shape self left width bottom A Mid C) in Hrun
    by assumption.
  injection Hrun as <-.
  pose proof (close_tail_length (packingAreaWidth self) (left + width)
                (last_height 0 (A ++ Mid)) C) as Hct.
  rewrite Hs, !length_app. simpl length. split; [lia|].
  intros (q & Hq & Hqx).
  assert (Mid <> []).
  { intros ->. simpl in Hq.
    apply elem_of_app in Hq as [Hq|Hq].
    - rewrite Forall_forall in HA. specialize (HA q Hq). simpl in HA. lia.
    - rewrite Forall_forall in HC. specialize (HC q Hq). simpl in HC. lia. }
  destruct Mid; [congruence | simpl; lia].
Qed.

(** ** Sequences of calls *)

Lemma height_at_new_packer (W H c : Z) :
  height_at (heightSlices (new_packer W H)) c = 0.
Proof.
  unfold height_at, height_from. simpl. unfold height_step. simpl.
  destruct (0 <=? c); reflexivity.
Qed.

(** Everything the proofs about a sequence of calls need, from any
    well-formed profile whose heights are not negative. *)
Lemma TryPack_all_trace (calls : list (Z * Z)) :
  forall self : CygonRectanglePacker,
    profile_wf (packingAreaWidth self) (heightSlices self) ->
    (forall c : Z, 0 <= c < packingAreaWidth self ->
       0 <= height_at (heightSlices self) c) ->
    Forall proper_call calls ->
    exists (rects : list Rect) (self' : CygonRectanglePacker),
      TryPack_all self calls = Ok (rects, self') /\
      packingAreaWidth self' = packingAreaWidth self /\
      packingAreaHeight self' = packingAreaHeight self /\
      Forall (inside_area (packingAreaWidth self) (packingAreaHeight self))
        rects /\
      (forall c : Z, 0 <= c < packingAreaWidth self ->
         height_at (heightSlices self') c =
           fold_left (raise_over c) rects (height_at (heightSlices self) c)) /\
      (length (heightSlices self')
       <= length (heightSlices self) + length rects)%nat.
Proof.
  induction calls as [|[w h] calls IH]; intros self Hwf Hnonneg Hcalls.
  { exists [], self. simpl. repeat split; auto. lia. }
  apply Forall_cons in Hcalls as [[Hw Hh] Hcalls]. simpl in Hw, Hh.
  destruct (TryPack_wf self w h Hwf Hw)
    as (r & self1 & Hrun & HW1 & HH1 & Hwf1 & _ & Hr).
  rewrite TryPack_all_cons, Hrun, bind_Ok_l. cbv beta iota.
  destruct r as [p|].
  2:{ subst self1.
      destruct (IH self Hwf Hnonneg Hcalls) as (rects & self2 & Hrest & Hrest').
      rewrite Hrest, bind_Ok_l. cbv beta iota.
      exists rects, self2. auto. }
  destruct Hr as (Hx0 & HxW & Hclear & Hat).
  pose proof (TryPack_Some _ _ _ _ _ Hrun)
    as (_ & _ & Hfind & s1 & Hint & Hself1).
  pose proof (tryFindBestPlacement_candidate self w h p Hfind)
    as (Hxq & _ & Hbottom).
  destruct (integrateRectangle_length self (Point_x p) w (Point_y p + h) s1
              (wf_zero _ _ Hwf) (wf_incr _ _ Hwf) Hx0 Hw Hint)
    as [_ Hlen1].
  specialize (Hlen1 Hxq).
  assert (Hy0 : 0 <= Point_y p).
  { pose proof (Hclear (Point_x p) ltac:(lia)).
    pose proof (Hnonneg (Point_x p) ltac:(lia)). lia. }
  assert (Hnonneg1 : forall c : Z, 0 <= c < packingAreaWidth self1 ->
                       0 <= height_at (heightSlices self1) c).
  { intros c Hc. rewrite HW1 in Hc. rewrite Hat by lia.
    destruct ((Point_x p <=? c) && (c <? Point_x p + w)); [lia|].
    apply Hnonneg. exact Hc. }
  rewrite <- HW1 in Hwf1.
  destruct (IH self1 Hwf1 Hnonneg1 Hcalls)
    as (rects & self2 & Hrest & HW2 & HH2 & Hin & Hsky & Hlen).
  rewrite Hrest, bind_Ok_l. cbv beta iota.
  exists (mkRect (Point_x p) (Point_y p) w h :: rects), self2.
  split; [reflexivity|].
  split; [congruence|]. split; [congruence|].
  rewrite HW1, HH1 in Hin.
  split; [constructor; [repeat split; simpl; assumption | exact Hin]|].
  split.
  - intros c Hc. rewrite Hsky by (rewrite HW1; exact Hc).
    simpl. f_equal. rewrite Hat by lia.
    unfold raise_over. simpl.
    destruct (Z.leb_spec (Point_x p) c); simpl; [|reflexivity].
    destruct (Z.ltb_spec c (Point_x p + w)); simpl; [|reflexivity].
    pose proof (Hclear c ltac:(lia)). lia.
  - rewrite Hself1 in Hlen. simpl in Hlen. simpl. lia.
Qed.

(** The same from a fresh packer. *)
Lemma TryPack_all_fresh (W H : Z) (calls : list (Z * Z)) :
  Forall proper_call calls ->
  exists (rects : list Rect) (self' : CygonRectanglePacker),
    TryPack_all (new_packer W H) calls = Ok (rects, self') /\
    Forall (inside_area W H) rects /\
    (forall c : Z, 0 <= c < W ->
       height_at (heightSlices self') c = skyline rects c) /\
    (length (heightSlices self') <= S (length rects))%nat.
Proof.
  intros Hcalls.
  destruct (Z_lt_le_dec 0 W) as [HW|HW].
  - destruct (TryPack_all_trace calls (new_packer W H)
                (new_packer_wf W H HW)) as (rects & self' & Hrun & Hrest).
    { intros c _. rewrite height_at_new_packer. lia. }
    { exact Hcalls. }
    destruct Hrest as (_ & _ & Hin & Hsky & Hlen).
    exists rects, self'. split; [exact Hrun|]. split; [exact Hin|].
    split; [|exact Hlen].
    intros c Hc. rewrite (Hsky c Hc), height_at_new_packer. reflexivity.
  - exists [], (new_packer W H).
    split; [apply TryPack_all_no_width; assumption|].
    split; [constructor|]. split; [intros; lia | simpl; lia].
Qed.

(** X7: after any sequence of calls for rectangles proper on a fresh
    packer, every committed rectangle lies inside the packing area:
    [0 <= x], [0 <= y], [x + w <= packingAreaWidth] and
    [y + h < packingAreaHeight]. *)
Theorem TryPack_rects_inside_area (W H : Z) (calls : list (Z * Z)) :
  Forall proper_call calls ->
  exists (rects : list Rect) (self' : CygonRectanglePacker),
    TryPack_all (new_packer W H) calls = Ok (rects, self') /\
    Forall (inside_area W H) rects.
Proof.
  intros Hcalls.
  destruct (TryPack_all_fresh W H calls Hcalls)
    as (rects & self' & Hrun & Hin & _).
  exists rects, self'. auto.
Qed.

Lemma TryPack_rects_inside_area_witness :
  Forall proper_call [(4, 3); (7, 2); (4, 3); (3, 9)] /\
  exists (rects : list Rect) (self' : CygonRectanglePacker),
    TryPack_all (new_packer 10 10) [(4, 3); (7, 2); (4, 3); (3, 9)]
      = Ok (rects, self') /\
    Forall (inside_area 10 10) rects.
Proof.
  assert (Hcalls : Forall proper_call [(4, 3); (7, 2); (4, 3); (3, 9)]).
  { repeat constructor; simpl; lia. }
  split; [exact Hcalls|].
  exact (TryPack_rects_inside_area 10 10 _ Hcalls).
Defined.

(** X8: after any sequence of calls for rectangles proper on a fresh
    packer, the profile is the upper silhouette of the committed
    rectangles: over every column of the area its height is the highest
    bottom edge [y + h] of the rectangles above that column, and 0 where
    there is none. *)
Theorem profile_is_skyline (W H : Z) (calls : list (Z * Z)) :
  Forall proper_call calls ->
  exists (rects : list Rect) (self' : CygonRectanglePacker),
    TryPack_all (new_packer W H) calls = Ok (rects, self') /\
    forall c : Z, 0 <= c < W ->
      height_at (heightSlices self') c = skyline rects c.
Proof.
  intros Hcalls.
  destruct (TryPack_all_fresh W H calls Hcalls)
    as (rects & self' & Hrun & _ & Hsky & _).
  exists rects, self'. auto.
Qed.

Lemma profile_is_skyline_witness :
  Forall proper_call [(4, 3); (7, 2); (4, 3); (3, 9)] /\
  exists (rects : list Rect) (self' : CygonRectanglePacker),
    TryPack_all (new_packer 10 10) [(4, 3); (7, 2); (4, 3); (3, 9)]
      = Ok (rects, self') /\
    forall c : Z, 0 <= c < 10 ->
      height_at (heightSlices self') c = skyline rects c.
Proof.
  assert (Hcalls : Forall proper_call [(4, 3); (7, 2); (4, 3); (3, 9)]).
  { repeat constructor; simpl; lia. }
  split; [exact Hcalls|].
  exact (profile_is_skyline 10 10 _ Hcalls).
Defined.

(** X9: after any sequence of calls for rectangles proper on a fresh
    packer, the profile has at most one breakpoint more than there are
    committed rectangles. *)
Theorem profile_length_bound (W H : Z) (calls : list (Z * Z)) :
  Forall proper_call calls ->
  exists (rects : list Rect) (self' : CygonRectanglePacker),
    TryPack_all (new_packer W H) calls = Ok (rects, self') /\
    (length (heightSlices self') <= S (length rects))%nat.
Proof.
  intros Hcalls.
  destruct (TryPack_all_fresh W H calls Hcalls)
    as (rects & self' & Hrun & _ & _ & Hlen).
  exists rects, self'. auto.
Qed.

Lemma profile_length_bound_witness :
  Forall proper_call [(4, 3); (7, 2); (4, 3); (3, 9)] /\
  exists (rects : list Rect) (self' : CygonRectanglePacker),
    TryPack_all (new_packer 10 10) [(4, 3); (7, 2); (4, 3); (3, 9)]
      = Ok (rects, self') /\
    (length (heightSlices self') <= S (length rects))%nat.
Proof.
  assert (Hcalls : Forall proper_call [(4, 3); (7, 2); (4, 3); (3, 9)]).
  { repeat constructor; simpl; lia. }
  split; [exact Hcalls|].
  exact (profile_length_bound 10 10 _ Hcalls).
Defined.

(** ** The first call *)

Lemma tryFindBestPlacement_new_packer (W H w h : Z) :
  tryFindBestPlacement (new_packer W H) w h =
    Ok (if (h <? H) && (0 <? W * H) then Some (mkPoint 0 0) else None).
Proof.
  unfold tryFindBestPlacement, bisect_left, new_packer.
  cbn -[Z.mul Z.ltb Z.add Z.sub].
  unfold Point_lt, Point_cmp. cbn -[Z.mul Z.ltb Z.add Z.sub].
  destruct (0 - w <? 0); cbn -[Z.mul Z.ltb Z.add Z.sub];
    destruct (0 + h <? H) eqn:Hh; cbn -[Z.mul Z.ltb Z.add Z.sub];
    rewrite Z.add_0_l in Hh; rewrite Hh; cbn -[Z.mul Z.ltb];
    destruct (0 <? W * H); reflexivity.
Qed.

Lemma integrateRectangle_new_packer (W H w bottom : Z) :
  integrateRectangle (new_packer W H) 0 w bottom =
    Ok (mkPoint 0 bottom :: if w <? W then [mkPoint w 0] else []).
Proof.
  unfold integrateRectangle, binary_search, bisect_left, new_packer.
  cbn -[Z.ltb Z.add]. rewrite Z.add_0_l.
  destruct (w <? W); reflexivity.
Qed.

(** X10: the first call on a fresh packer, for all sizes of area and
    rectangle: it places the rectangle at [(0, 0)] exactly when the
    rectangle is no wider than the area, strictly lower than the area, and
    the area [packingAreaWidth * packingAreaHeight] is positive; the
    profile is then [(0, h)], followed by [(w, 0)] unless the rectangle is
    as wide as the area.  Otherwise it returns [None]. *)
Theorem TryPack_first_call (W H w h : Z) :
  TryPack (new_packer W H) w h =
    if (w <=? W) && (h <? H) && (0 <? W * H)
    then Ok (Some (mkPoint 0 0),
             mkPacker W H
               (mkPoint 0 h :: if w <? W then [mkPoint w 0] else []))
    else Ok (None, new_packer W H).
Proof.
  unfold TryPack.
  change (packingAreaWidth (new_packer W H)) with W.
  change (packingAreaHeight (new_packer W H)) with H.
  rewrite tryFindBestPlacement_new_packer.
  destruct (Z.gtb_spec w W) as [HwW|HwW];
    destruct (Z.leb_spec w W) as [HwW'|HwW']; try lia; [reflexivity|].
  destruct (Z.gtb_spec h H) as [HhH|HhH]; simpl orb; cbv iota.
  { destruct (Z.ltb_spec h H); [lia | reflexivity]. }
  rewrite bind_Ok_l. simpl andb.
  destruct ((h <? H) && (0 <? W * H)); [|reflexivity].
  change (Point_x (mkPoint 0 0)) with 0.
  change (Point_y (mkPoint 0 0)) with 0.
  rewrite integrateRectangle_new_packer, bind_Ok_l, Z.add_0_l.
  reflexivity.
Qed.

(** A rectangle as high as the area is never placed, one as wide is; a
    width of 0 or less is let through. *)
Example first_call_edges :
  TryPack (new_packer 8 8) 8 7
    = Ok (Some (mkPoint 0 0), mkPacker 8 8 [mkPoint 0 7]) /\
  TryPack (new_packer 8 8) 1 8 = Ok (None, new_packer 8 8) /\
  TryPack (new_packer 8 8) (-3) 2
    = Ok (Some (mkPoint 0 0), mkPacker 8 8 [mkPoint 0 2; mkPoint (-3) 0]).
Proof. repeat split; reflexivity. Qed.

(** ** The window at the left edge *)

(** The highest slice of a window is the start value or the height of a
    slice of the window. *)
Lemma highest_loop_attained (self : CygonRectanglePacker) (count : nat) :
  forall (from : nat) (h0 hv : Z),
    highest_loop self count from h0 = Ok hv ->
    hv = h0 \/
    exists (j : nat) (p : Point),
      (from <= j < from + count)%nat /\
      heightSlices self !! j = Some p /\ hv = Point_y p.
Proof.
  induction count as [|count IH]; intros from h0 hv Hrun; simpl in Hrun.
  - left. congruence.
  - inv_bind Hrun as p Hp. apply getitem_Ok in Hp.
    apply IH in Hrun as [->|(j & q & Hj & Hq & ->)].
    + destruct (Point_y p >? h0); [right | left; reflexivity].
      exists from, p. split; [lia | auto].
    + right. exists j, q. split; [lia | auto].
Qed.

(** Once there is a candidate, the search ends with one that is no
    higher. *)
Lemma search_loop_improves (self : CygonRectanglePacker) (w h : Z)
    (fuel : nat) :
  forall (best : option nat) (bestY score : Z) (left right : nat)
         (r : option nat) (y : Z),
    is_Some best -> bestY = score ->
    search_loop self w h fuel best bestY score left right = Ok (r, y) ->
    is_Some r /\ y <= bestY.
Proof.
  induction fuel as [|fuel IH]; intros best bestY score left right r y
    Hbest Hscore Hrun; [discriminate|].
  rewrite search_loop_S in Hrun.
  destruct (right <=? length (heightSlices self))%nat;
    [|injection Hrun as <- <-; split; [assumption | lia]].
  inv_bind Hrun as p Hp. inv_bind Hrun as hv Hhv.
  set (upd := if hv + h <? packingAreaHeight self then
                if hv <? score then (Some left, hv, hv)
                else (best, bestY, score)
              else (best, bestY, score)) in Hrun.
  assert (Hupd : is_Some (fst (fst upd)) /\ snd (fst upd) = snd upd /\
                 snd (fst upd) <= bestY).
  { subst upd. destruct (hv + h <? packingAreaHeight self);
      [|simpl; split; [assumption | lia]].
    destruct (Z.ltb_spec hv score); simpl; [|split; [assumption | lia]].
    split; [eauto | lia]. }
  destruct upd as [[best' bestY'] score']. simpl in Hupd.
  destruct Hupd as (Hbest' & Hscore' & Hle).
  destruct (length (heightSlices self) <=? left + 1)%nat;
    [injection Hrun as <- <-; auto|].
  inv_bind Hrun as q Hq. inv_bind Hrun as right' Hright.
  destruct (length (heightSlices self) <? right')%nat;
    [injection Hrun as <- <-; auto|].
  destruct (IH _ _ _ _ _ _ _ Hbest' Hscore' Hrun) as [Hr Hy].
  split; [exact Hr | lia].
Qed.

(** When the first window qualifies, the search ends with a candidate no
    higher than that window. *)
Lemma search_loop_first_window (self : CygonRectanglePacker) (w h : Z)
    (fuel : nat) (bestY score : Z) (right : nat) (p0 : Point) (hv : Z)
    (r : option nat) (y : Z) :
  search_loop self w h (S fuel) None bestY score 0 right = Ok (r, y) ->
  (right <= length (heightSlices self))%nat ->
  heightSlices self !! 0%nat = Some p0 ->
  highest_loop self (right - 1) 1 (Point_y p0) = Ok hv ->
  hv + h < packingAreaHeight self -> hv < score ->
  is_Some r /\ y <= hv.
Proof.
  intros Hrun Hright Hp0 Hhv Hfits Hscore.
  rewrite search_loop_S in Hrun.
  destruct (Nat.leb_spec right (length (heightSlices self))); [|lia].
  rewrite (getitem_lookup _ _ _ Hp0), bind_Ok_l in Hrun.
  change (0 + 1)%nat with 1%nat in Hrun.
  rewrite Hhv, bind_Ok_l in Hrun.
  destruct (Z.ltb_spec (hv + h) (packingAreaHeight self)); [|lia].
  destruct (Z.ltb_spec hv score); [|lia].
  destruct (length (heightSlices self) <=? 1)%nat;
    [injection Hrun as <- <-; split; [eauto | lia]|].
  inv_bind Hrun as q Hq. inv_bind Hrun as right' Hright'.
  destruct (length (heightSlices self) <? right')%nat;
    [injection Hrun as <- <-; split; [eauto | lia]|].
  eapply search_loop_improves; [| |exact Hrun]; eauto.
Qed.

(** The height over the column where a breakpoint starts is that
    breakpoint's. *)
Lemma height_at_start (s : list Point) (j : nat) (p : Point) :
  strictly_increasing s -> starts_at_zero s -> s !! j = Some p ->
  height_at s (Point_x p) = Point_y p.
Proof.
  intros Hsi Hzero Hp.
  assert (H0 : 0 <= Point_x p).
  { destruct Hzero as (p0 & Hp0 & Hx0).
    pose proof (si_lookup_le s 0 j p0 p Hsi Hp0 Hp ltac:(lia)). lia. }
  destruct (height_at_lookup s (Point_x p) (si_nd _ Hsi) Hzero H0)
    as (j' & p' & Hp' & Hle & -> & Hmax).
  pose proof (Hmax j p Hp ltac:(lia)) as Hjj'.
  destruct (decide (j = j')) as [->|Hne]; [congruence|].
  pose proof (si_lookup s j j' p p' Hsi Hp Hp' ltac:(lia)). lia.
Qed.

(** On a well-formed profile: if the rectangle fits at the left edge, on
    top of a height [m] that no column under it exceeds, the call places
    it, no higher than [m]. *)
Lemma TryPack_left_edge_wf (self : CygonRectanglePacker) (w h m : Z) :
  profile_wf (packingAreaWidth self) (heightSlices self) ->
  0 < w -> w <= packingAreaWidth self -> 0 <= h ->
  (forall c : Z, 0 <= c < w ->
     0 <= height_at (heightSlices self) c <= m) ->
  m + h < packingAreaHeight self ->
  exists (p : Point) (self' : CygonRectanglePacker),
    TryPack self w h = Ok (Some p, self') /\ Point_y p <= m.
Proof.
  intros Hwf Hw HwW Hh Hm Hfits.
  pose proof (Hm 0 ltac:(lia)) as Hm0.
  destruct (tryFindBestPlacement_wf self w h (wf_ok _ _ Hwf) HwW)
    as (r & Hfind & Hr).
  assert (Hsome : exists p, r = Some p /\ Point_y p <= m).
  { pose proof Hfind as Hrun. unfold tryFindBestPlacement in Hrun.
    destruct (si_partition w (heightSlices self) (wf_incr _ _ Hwf))
      as (A & B & Hs & HA & HB).
    assert (Hbis : bisect_left (heightSlices self) (mkPoint w 0) 0
                     (length (heightSlices self)) = Ok (length A)).
    { unfold bisect_left. rewrite Hs.
      apply (bisect_loop_partition [] A B (mkPoint w 0) HA HB);
        simpl; rewrite ?length_app; lia. }
    rewrite Hbis, bind_Ok_l in Hrun.
    inv_bind Hrun as res Hloop. destruct res as [best bestY].
    destruct (wf_zero _ _ Hwf) as (p0 & Hp0 & Hx0).
    assert (HlenA : (length A <= length (heightSlices self))%nat).
    { rewrite Hs, length_app. lia. }
    destruct (highest_loop_bound self (length A - 1) 1 (Point_y p0))
      as (hv & Hhv & _ & _).
    { assert (length (heightSlices self) <> 0)%nat
        by (apply lookup_lt_Some in Hp0; lia). lia. }
    assert (Hhvm : hv <= m).
    { apply highest_loop_attained in Hhv as Hatt.
      destruct Hatt as [->|(j & q & Hj & Hq & ->)].
      - rewrite <- (height_at_start _ 0 p0 (wf_incr _ _ Hwf) (wf_zero _ _ Hwf)
                      Hp0).
        rewrite Hx0. apply Hm. lia.
      - rewrite <- (height_at_start _ j q (wf_incr _ _ Hwf) (wf_zero _ _ Hwf)
                      Hq).
        apply Hm. split.
        + eapply wf_nonneg; [exact Hwf|].
          eapply list_elem_of_lookup_2. exact Hq.
        + rewrite Hs in Hq. rewrite lookup_app_l in Hq by lia.
          apply list_elem_of_lookup_2 in Hq.
          rewrite Forall_forall in HA. exact (HA q Hq). }
    destruct (search_loop_first_window self w h _ _ _ _ p0 hv best bestY
                Hloop HlenA Hp0 Hhv) as [[i ->] Hy]; [lia | nia |].
    inv_bind Hrun as pi Hpi. injection Hrun as <-.
    eexists. split; [reflexivity|]. simpl. lia. }
  destruct Hsome as (p & -> & Hy).
  destruct (Hr p eq_refl) as (_ & Hx0 & _ & _).
  destruct (integrateRectangle_spec self (Point_x p) w (Point_y p + h)
              (wf_zero _ _ Hwf) (wf_incr _ _ Hwf) Hx0 Hw) as (s' & Hint & _).
  exists p, (set_heightSlices self s'). split; [|exact Hy].
  unfold TryPack.
  destruct (Z.gtb_spec w (packingAreaWidth self)); [lia|].
  destruct (Z.gtb_spec h (packingAreaHeight self)); [lia|].
  simpl orb. cbv iota.
  rewrite Hfind, bind_Ok_l, Hint, bind_Ok_l. reflexivity.
Qed.

Lemma raise_fold_ge (c : Z) (rects : list Rect) :
  forall cur : Z, cur <= fold_left (raise_over c) rects cur.
Proof.
  induction rects as [|r rects IH]; intros cur; simpl; [lia|].
  specialize (IH (raise_over c cur r)).
  assert (cur <= raise_over c cur r).
  { unfold raise_over.
    destruct ((Rect_x r <=? c) && (c <? Rect_x r + Rect_w r)); lia. }
  lia.
Qed.

Lemma TryPack_all_keeps_wf (calls : list (Z * Z)) :
  forall (self self' : CygonRectanglePacker) (rects : list Rect),
    profile_wf (packingAreaWidth self) (heightSlices self) ->
    Forall proper_call calls ->
    TryPack_all self calls = Ok (rects, self') ->
    profile_wf (packingAreaWidth self') (heightSlices self').
Proof.
  induction calls as [|[w h] calls IH]; intros self self' rects Hwf Hcalls Hrun.
  { injection Hrun as _ <-. exact Hwf. }
  apply Forall_cons in Hcalls as [[Hw _] Hcalls]. simpl in Hw.
  destruct (TryPack_wf self w h Hwf Hw)
    as (r & self1 & Hstep & HW1 & _ & Hwf1 & _).
  rewrite TryPack_all_cons, Hstep, bind_Ok_l in Hrun. cbv beta iota in Hrun.
  inv_bind Hrun as rest Hrest. destruct rest as [rects1 self2].
  injection Hrun as _ <-.
  rewrite <- HW1 in Hwf1.
  exact (IH self1 self2 rects1 Hwf1 Hcalls Hrest).
Qed.

(** X11: on a packer reached from a fresh one by calls for rectangles
    proper: if a rectangle proper, no wider than the area, fits at the left
    edge (no column of [0, w) is higher than [m], and [m + h] is strictly
    below [packingAreaHeight]), then [TryPack] places it, and no higher
    than [m]. *)
Theorem TryPack_fits_at_left_edge (W H : Z) (calls : list (Z * Z))
    (rects : list Rect) (self : CygonRectanglePacker) (w h m : Z) :
  Forall proper_call calls ->
  TryPack_all (new_packer W H) calls = Ok (rects, self) ->
  0 < w -> w <= W -> 0 <= h ->
  (forall c : Z, 0 <= c < w -> height_at (heightSlices self) c <= m) ->
  m + h < H ->
  exists (p : Point) (self' : CygonRectanglePacker),
    TryPack self w h = Ok (Some p, self') /\ Point_y p <= m.
Proof.
  intros Hcalls Hrun Hw HwW Hh Hm Hfits.
  assert (HW : 0 < W) by lia.
  pose proof (TryPack_all_keeps_wf calls (new_packer W H) _ _
                (new_packer_wf W H HW) Hcalls Hrun) as Hwf.
  destruct (TryPack_all_trace calls (new_packer W H) (new_packer_wf W H HW))
    as (rects0 & self0 & Hrun0 & HsW & HsH & _ & Hsky & _).
  { intros c _. rewrite height_at_new_packer. lia. }
  { exact Hcalls. }
  rewrite Hrun in Hrun0. injection Hrun0 as <- <-.
  simpl in HsW, HsH.
  apply TryPack_left_edge_wf; try assumption; try lia.
  intros c Hc. split; [|apply Hm; exact Hc].
  rewrite Hsky by (simpl; lia). rewrite height_at_new_packer.
  apply raise_fold_ge.
Qed.

Lemma TryPack_fits_at_left_edge_witness :
  Forall proper_call [(4, 3); (4, 5)] /\
  TryPack_all (new_packer 10 10) [(4, 3); (4, 5)]
    = Ok ([mkRect 0 0 4 3; mkRect 4 0 4 5],
          mkPacker 10 10 [mkPoint 0 3; mkPoint 4 5; mkPoint 8 0]) /\
  0 < 6 /\ 6 <= 10 /\ 0 <= 2 /\
  (forall c : Z, 0 <= c < 6 ->
     height_at [mkPoint 0 3; mkPoint 4 5; mkPoint 8 0] c <= 5) /\
  5 + 2 < 10 /\
  exists (p : Point) (self' : CygonRectanglePacker),
    TryPack (mkPacker 10 10 [mkPoint 0 3; mkPoint 4 5; mkPoint 8 0]) 6 2
      = Ok (Some p, self') /\
    Point_y p <= 5.
Proof.
  assert (Hcalls : Forall proper_call [(4, 3); (4, 5)]).
  { repeat constructor; simpl; lia. }
  assert (Hrun : TryPack_all (new_packer 10 10) [(4, 3); (4, 5)]
                 = Ok ([mkRect 0 0 4 3; mkRect 4 0 4 5],
                       mkPacker 10 10 [mkPoint 0 3; mkPoint 4 5; mkPoint 8 0]))
    by reflexivity.
  assert (Hm : forall c : Z, 0 <= c < 6 ->
                 height_at [mkPoint 0 3; mkPoint 4 5; mkPoint 8 0] c <= 5).
  { intros c Hc. unfold height_at, height_from. simpl.
    unfold height_step. simpl.
    destruct (0 <=? c), (4 <=? c), (8 <=? c); lia. }
  split; [exact Hcalls|]. split; [exact Hrun|].
  split; [lia|]. split; [lia|]. split; [lia|].
  split; [exact Hm|]. split; [lia|].
  apply (TryPack_fits_at_left_edge 10 10 _ _ _ 6 2 5 Hcalls Hrun);
    [lia | lia | lia | exact Hm | lia].
Defined.

(** ** [Pack] *)

(** X12: on a packer reached by calls for rectangles of positive width, in
    an area of height [H >= 0], [Pack] for a rectangle of positive width
    either returns a point at which the rectangle ends inside the width of
    the area and strictly above its lower edge, or raises
    [OutOfSpaceError] and leaves the packer as it was; it never ends in an
    [IndexError], and the packer it leaves is again one [Pack] can be
    called on. *)
Theorem Pack_places_or_raises (W H : Z) (self : CygonRectanglePacker)
    (w h : Z) :
  0 <= H -> reachable W H self -> 0 < w ->
  exists (res : Pack_result) (self' : CygonRectanglePacker),
    Pack self w h = Ok (res, self') /\ reachable W H self' /\
    match res with
    | OutOfSpaceError => self' = self
    | Placed p =>
        0 <= Point_x p /\ Point_x p + w <= W /\ Point_y p + h < H
    end.
Proof.
  intros HH Hreach Hw.
  destruct (reachable_wf W H self HH Hreach)
    as (HsW & HsH & Hzero & Hsi & _ & Hin).
  unfold Pack.
  destruct (Z_lt_le_dec 0 W) as [HW|HW].
  - assert (Hwf : profile_wf (packingAreaWidth self) (heightSlices self)).
    { rewrite HsW. constructor; auto. }
    destruct (TryPack_wf self w h Hwf Hw)
      as (r & self' & Hrun & _ & _ & _ & _ & Hr).
    assert (Hreach' : reachable W H self').
    { exact (reachable_TryPack W H self w h r self' Hreach Hw Hrun). }
    rewrite Hrun, bind_Ok_l. cbv beta iota.
    destruct r as [p|].
    + exists (Placed p), self'. split; [reflexivity|]. split; [exact Hreach'|].
      destruct Hr as (Hx0 & HxW & _).
      apply TryPack_Some in Hrun as (_ & _ & Hfind & _).
      apply tryFindBestPlacement_candidate in Hfind as (_ & _ & Hbottom).
      rewrite <- HsW, <- HsH. auto.
    + exists OutOfSpaceError, self'. auto.
  - rewrite TryPack_rejects by lia. rewrite bind_Ok_l. cbv beta iota.
    exists OutOfSpaceError, self. auto.
Qed.

Lemma Pack_places_or_raises_witness :
  0 <= 10 /\ reachable 10 10 (mkPacker 10 10 [mkPoint 0 5]) /\ 0 < 10 /\
  exists (res : Pack_result) (self' : CygonRectanglePacker),
    Pack (mkPacker 10 10 [mkPoint 0 5]) 10 5 = Ok (res, self') /\
    reachable 10 10 self' /\
    match res with
    | OutOfSpaceError => self' = mkPacker 10 10 [mkPoint 0 5]
    | Placed p =>
        0 <= Point_x p /\ Point_x p + 10 <= 10 /\ Point_y p + 5 < 10
    end.
Proof.
  assert (HH : 0 <= 10) by lia.
  assert (Hreach : reachable 10 10 (mkPacker 10 10 [mkPoint 0 5])).
  { apply (reachable_TryPack 10 10 (new_packer 10 10) 10 5
             (Some (mkPoint 0 0))); [apply reachable_new | lia | reflexivity]. }
  split; [exact HH|]. split; [exact Hreach|]. split; [lia|].
  apply (Pack_places_or_raises 10 10 _ 10 5 HH Hreach). lia.
Defined.

Example Pack_raises :
  Pack (mkPacker 10 10 [mkPoint 0 5]) 10 5
    = Ok (OutOfSpaceError, mkPacker 10 10 [mkPoint 0 5]).
Proof. reflexivity. Qed.

(** ** The plug-in's loop *)

Section PluginFacts.

Context {Name UName : Type}.
Variable decode : Name -> UName.
Variable only_visible : bool.
Variable pad : Z.

Lemma pack_layers_cons (layer : Layer Name) (layers : list (Layer Name))
    (rect_packer : CygonRectanglePacker)
    (tex_rects : list (TextureRect UName)) :
  pack_layers decode only_visible pad (layer :: layers) rect_packer tex_rects
  = if processed only_visible layer then
      '(pos, rect_packer') ←
        TryPack rect_packer (Layer_width layer + pad)
          (Layer_height layer + pad);
      match pos with
      | Some pos =>
          r ← pack_layers decode only_visible pad layers rect_packer'
                (tex_rects ++
                 [mkTextureRect (Point_x pos) (Point_y pos)
                    (Layer_width layer) (Layer_height layer)
                    (decode (Layer_name layer))]);
          Ok (match r with
              | Some (ls, trs, pk) =>
                  Some (mkLayer (Layer_width layer) (Layer_height layer) true
                          (Point_x pos, Point_y pos) (Layer_name layer) :: ls,
                        trs, pk)
              | None => None
              end)
      | None => Ok None
      end
    else
      r ← pack_layers decode only_visible pad layers rect_packer tex_rects;
      Ok (match r with
          | Some (ls, trs, pk) => Some (layer :: ls, trs, pk)
          | None => None
          end).
Proof.
  destruct layer as [lw lh vis [offx offy] name].
  unfold processed. simpl.
  destruct vis, only_visible; simpl; try reflexivity;
    destruct (TryPack rect_packer (lw + pad) (lh + pad)) as [[[pos|] pk]|e];
    simpl; try reflexivity;
    unfold gimp_layer_translate; simpl;
    replace (offx + (Point_x pos - offx)) with (Point_x pos) by lia;
    replace (offy + (Point_y pos - offy)) with (Point_y pos) by lia;
    reflexivity.
Qed.

Lemma calls_of_cons (layer : Layer Name) (layers : list (Layer Name)) :
  calls_of only_visible pad (layer :: layers) =
    if processed only_visible layer
    then (Layer_width layer + pad, Layer_height layer + pad)
           :: calls_of only_visible pad layers
    else calls_of only_visible pad layers.
Proof.
  unfold calls_of. simpl.
  destruct (processed only_visible layer); reflexivity.
Qed.

Lemma calls_of_proper (layers : list (Layer Name)) :
  0 <= pad -> Forall proper_layer layers ->
  Forall proper_call (calls_of only_visible pad layers).
Proof.
  intros Hpad Hlayers.
  induction Hlayers as [|l layers [Hw Hh] _ IH]; [constructor|].
  rewrite calls_of_cons. destruct (processed only_visible l); [|exact IH].
  constructor; [|exact IH]. split; simpl; lia.
Qed.

(** What a run of the loop that was not aborted has done: its requests
    were all granted, in order; the rows record the rectangles; the
    visible layers are the rows; each layer is treated by the rule. *)
Lemma pack_layers_trace (layers : list (Layer Name)) :
  forall (rect_packer : CygonRectanglePacker)
         (tex_rects : list (TextureRect UName))
         (ls : list (Layer Name)) (trs : list (TextureRect UName))
         (pk : CygonRectanglePacker),
    pack_layers decode only_visible pad layers rect_packer tex_rects
      = Ok (Some (ls, trs, pk)) ->
    exists (rects : list Rect) (new : list (TextureRect UName)),
      TryPack_all rect_packer (calls_of only_visible pad layers)
        = Ok (rects, pk) /\
      trs = tex_rects ++ new /\
      Forall2 (placed_as pad) new rects /\
      Forall2 (row_of decode) (List.filter Layer_visible ls) new /\
      Forall2 (layer_after only_visible) layers ls.
Proof.
  induction layers as [|l layers IH]; intros rect_packer tex_rects ls trs pk
    Hrun.
  { injection Hrun as <- <- <-. exists [], [].
    rewrite app_nil_r. repeat split; constructor. }
  rewrite pack_layers_cons in Hrun. rewrite calls_of_cons.
  destruct (processed only_visible l) eqn:Hproc.
  - inv_bind Hrun as res Hcall. destruct res as [pos pk1].
    destruct pos as [pos|]; [|discriminate].
    inv_bind Hrun as r Hrec. destruct r as [[[ls1 trs1] pk2]|]; [|discriminate].
    injection Hrun as <- <- <-.
    destruct (IH _ _ _ _ _ Hrec)
      as (rects & new & Hall & -> & Hplaced & Hrows & Hafter).
    exists (mkRect (Point_x pos) (Point_y pos) (Layer_width l + pad)
              (Layer_height l + pad) :: rects),
           (mkTextureRect (Point_x pos) (Point_y pos) (Layer_width l)
              (Layer_height l) (decode (Layer_name l)) :: new).
    split; [|split; [|split; [|split]]].
    + rewrite TryPack_all_cons, Hcall, bind_Ok_l. cbv beta iota.
      rewrite Hall, bind_Ok_l. reflexivity.
    + rewrite <- app_assoc. reflexivity.
    + constructor; [|exact Hplaced]. repeat split.
    + simpl. constructor; [|exact Hrows]. repeat split.
    + constructor; [|exact Hafter].
      repeat split; simpl; auto. discriminate.
  - inv_bind Hrun as r Hrec. destruct r as [[[ls1 trs1] pk2]|]; [|discriminate].
    injection Hrun as <- <- <-.
    destruct (IH _ _ _ _ _ Hrec)
      as (rects & new & Hall & -> & Hplaced & Hrows & Hafter).
    exists rects, new.
    assert (Hvis : Layer_visible l = false).
    { unfold processed in Hproc. destruct (Layer_visible l); [discriminate|].
      reflexivity. }
    split; [exact Hall|]. split; [reflexivity|]. split; [exact Hplaced|].
    split.
    + simpl. rewrite Hvis. exact Hrows.
    + constructor; [|exact Hafter]. repeat split; auto.
      rewrite Hvis. symmetry. exact Hproc.
Qed.

(** On a well-formed profile, with no negative padding and layers of at
    least one pixel, the loop returns. *)
Lemma pack_layers_returns (layers : list (Layer Name)) :
  0 <= pad -> Forall proper_layer layers ->
  forall (rect_packer : CygonRectanglePacker)
         (tex_rects : list (TextureRect UName)),
    profile_wf (packingAreaWidth rect_packer) (heightSlices rect_packer) ->
    exists res,
      pack_layers decode only_visible pad layers rect_packer tex_rects
        = Ok res.
Proof.
  intros Hpad Hlayers.
  induction Hlayers as [|l layers [Hw Hh] _ IH]; intros rect_packer tex_rects
    Hwf.
  { eexists. reflexivity. }
  rewrite pack_layers_cons.
  destruct (processed only_visible l).
  - destruct (TryPack_wf rect_packer (Layer_width l + pad)
                (Layer_height l + pad) Hwf ltac:(lia))
      as (r & pk1 & Hrun & HW1 & _ & Hwf1 & _).
    rewrite Hrun, bind_Ok_l. cbv beta iota.
    destruct r as [pos|]; [|eexists; reflexivity].
    rewrite <- HW1 in Hwf1.
    destruct (IH pk1 (tex_rects ++
                [mkTextureRect (Point_x pos) (Point_y pos) (Layer_width l)
                   (Layer_height l) (decode (Layer_name l))]) Hwf1)
      as (res & ->).
    rewrite bind_Ok_l. eexists. reflexivity.
  - destruct (IH rect_packer tex_rects Hwf) as (res & ->).
    rewrite bind_Ok_l. eexists. reflexivity.
Qed.

End PluginFacts.

(** ** The plug-in's layout *)

Lemma boxes_disjoint_apart (r1 r2 : Rect) :
  0 < Rect_w r1 -> 0 < Rect_h r1 -> 0 < Rect_w r2 -> 0 < Rect_h r2 ->
  boxes_disjoint r1 r2 ->
  Rect_x r1 + Rect_w r1 <= Rect_x r2 \/ Rect_x r2 + Rect_w r2 <= Rect_x r1 \/
  Rect_y r1 + Rect_h r1 <= Rect_y r2 \/ Rect_y r2 + Rect_h r2 <= Rect_y r1.
Proof.
  intros Hw1 Hh1 Hw2 Hh2 Hdisj.
  destruct (Z_le_gt_dec (Rect_x r1 + Rect_w r1) (Rect_x r2)); [auto|].
  destruct (Z_le_gt_dec (Rect_x r2 + Rect_w r2) (Rect_x r1)); [auto|].
  destruct (Z_le_gt_dec (Rect_y r1 + Rect_h r1) (Rect_y r2)); [auto|].
  destruct (Z_le_gt_dec (Rect_y r2 + Rect_h r2) (Rect_y r1)); [auto|].
  exfalso.
  apply (Hdisj (Z.max (Rect_x r1) (Rect_x r2)) (Z.max (Rect_y r1) (Rect_y r2)));
    unfold in_box; lia.
Qed.

(** The rectangles a sequence of calls for rectangles proper commits on a
    fresh packer. *)
Lemma TryPack_all_fresh_rects (W H : Z) (calls : list (Z * Z))
    (rects : list Rect) (self' : CygonRectanglePacker) :
  Forall proper_call calls ->
  TryPack_all (new_packer W H) calls = Ok (rects, self') ->
  Forall (inside_area W H) rects /\ pairwise_disjoint rects.
Proof.
  intros Hcalls Hrun.
  destruct (TryPack_all_fresh W H calls Hcalls)
    as (rects0 & self0 & Hrun0 & Hin & _).
  rewrite Hrun in Hrun0. injection Hrun0 as <- <-.
  split; [exact Hin|].
  destruct (Z_lt_le_dec 0 W) as [HW|HW].
  - destruct (TryPack_all_ok calls (new_packer W H)
                (new_packer_ok W H ltac:(lia)) (proper_sized calls Hcalls))
      as (rects1 & self1 & Hrun1 & Hdisj & _).
    rewrite Hrun in Hrun1. injection Hrun1 as <- <-. exact Hdisj.
  - rewrite TryPack_all_no_width in Hrun by assumption.
    injection Hrun as <- _. apply pairwise_disjoint_nil.
Qed.

Section PluginLayout.

Context {Name UName : Type}.
Variable decode : Name -> UName.

(** A run that was not aborted: the image size is what the size rule
    gives, and the loop ran on a fresh packer of that size. *)
Lemma generate_atlas_and_map_Some (layers ls : list (Layer Name))
    (only_visible pow2 : bool) (max_w max_h pad img_w img_h : Z)
    (trs : list (TextureRect UName)) :
  generate_atlas_and_map decode layers only_visible pow2 max_w max_h pad
    = Ok (Some (img_w, img_h, ls, trs)) ->
  (if pow2 then nearest_pow2 max_w else Ok max_w) = Ok img_w /\
  (if pow2 then nearest_pow2 max_h else Ok max_h) = Ok img_h /\
  exists pk : CygonRectanglePacker,
    pack_layers decode only_visible pad layers (new_packer img_w img_h) []
      = Ok (Some (ls, trs, pk)).
Proof.
  unfold generate_atlas_and_map. intros Hrun.
  inv_bind Hrun as iw Hiw. inv_bind Hrun as ih Hih.
  inv_bind Hrun as r Hloop.
  destruct r as [[[ls1 trs1] pk]|]; [|discriminate].
  injection Hrun as <- <- <- <-.
  split; [exact Hiw|]. split; [exact Hih|]. exists pk. exact Hloop.
Qed.

(** The rows of a run that was not aborted stand for rectangles committed
    on a fresh packer, pairwise disjoint and inside the area. *)
Lemma generate_atlas_and_map_rects (layers ls : list (Layer Name))
    (only_visible pow2 : bool) (max_w max_h pad img_w img_h : Z)
    (trs : list (TextureRect UName)) :
  0 <= pad -> Forall proper_layer layers ->
  generate_atlas_and_map decode layers only_visible pow2 max_w max_h pad
    = Ok (Some (img_w, img_h, ls, trs)) ->
  exists rects : list Rect,
    Forall2 (placed_as pad) trs rects /\
    Forall (inside_area img_w img_h) rects /\
    pairwise_disjoint rects /\
    Forall2 (row_of decode) (List.filter Layer_visible ls) trs /\
    Forall2 (layer_after only_visible) layers ls.
Proof.
  intros Hpad Hlayers Hrun.
  apply generate_atlas_and_map_Some in Hrun as (_ & _ & pk & Hloop).
  apply pack_layers_trace in Hloop
    as (rects & new & Hall & -> & Hplaced & Hrows & Hafter).
  simpl app.
  destruct (TryPack_all_fresh_rects img_w img_h _ rects pk
              (calls_of_proper only_visible pad layers Hpad Hlayers) Hall)
    as [Hin Hdisj].
  exists rects. auto.
Qed.

End PluginLayout.

Section PluginProperties.

Context {Name UName : Type}.
Variable decode : Name -> UName.

Lemma placed_inside_image (pad img_w img_h : Z)
    (trs : list (TextureRect UName)) (rects : list Rect) :
  Forall2 (placed_as pad) trs rects ->
  Forall (inside_area img_w img_h) rects ->
  Forall (inside_image img_w img_h pad) trs.
Proof.
  induction 1 as [|t r trs rects (Hx & Hy & Hw & Hh) _ IH]; intros Hin;
    [constructor|].
  apply Forall_cons in Hin as [(Hx0 & Hy0 & HxW & HyH) Hin].
  constructor; [|exact (IH Hin)].
  unfold inside_image. lia.
Qed.

(** The rows of the layers that end visible have those layers' sizes. *)
Lemma rows_proper (only_visible : bool) (layers ls : list (Layer Name))
    (trs : list (TextureRect UName)) :
  Forall proper_layer layers ->
  Forall2 (layer_after only_visible) layers ls ->
  Forall2 (row_of decode) (List.filter Layer_visible ls) trs ->
  Forall (fun t => 0 < TextureRect_width t /\ 0 < TextureRect_height t) trs.
Proof.
  intros Hlayers Hafter Hrows.
  assert (Hls : Forall proper_layer ls).
  { clear Hrows. induction Hafter as [|l l' layers ls (Hw & Hh & _) _ IH];
      [constructor|].
    apply Forall_cons in Hlayers as [[Hlw Hlh] Hlayers].
    constructor; [|exact (IH Hlayers)].
    unfold proper_layer. rewrite Hw, Hh. auto. }
  assert (Hvis : Forall proper_layer (List.filter Layer_visible ls)).
  { apply Forall_forall. intros l Hl.
    apply list_elem_of_In, filter_In in Hl as [Hl _].
    rewrite Forall_forall in Hls. apply Hls, list_elem_of_In, Hl. }
  clear Hls Hafter Hlayers.
  induction Hrows as [|l t vis trs (_ & Hw & Hh & _) _ IH]; [constructor|].
  apply Forall_cons in Hvis as [[Hlw Hlh] Hvis].
  constructor; [|exact (IH Hvis)].
  rewrite <- Hw, <- Hh. auto.
Qed.

(** X13: when the run is not aborted (no negative padding, layers of at
    least one pixel), every texture of the map lies inside the image area
    [img_w] x [img_h] handed to the packer, and so does its padding to the
    right and below:
    [0 <= x], [0 <= y], [x + width + pad <= img_w] and
    [y + height + pad < img_h]. *)
Theorem plugin_textures_inside_image (layers ls : list (Layer Name))
    (only_visible pow2 : bool) (max_w max_h pad img_w img_h : Z)
    (trs : list (TextureRect UName)) :
  0 <= pad -> Forall proper_layer layers ->
  generate_atlas_and_map decode layers only_visible pow2 max_w max_h pad
    = Ok (Some (img_w, img_h, ls, trs)) ->
  Forall (inside_image img_w img_h pad) trs.
Proof.
  intros Hpad Hlayers Hrun.
  destruct (generate_atlas_and_map_rects decode _ _ _ _ _ _ _ _ _ _
              Hpad Hlayers Hrun) as (rects & Hplaced & Hin & _).
  exact (placed_inside_image pad img_w img_h trs rects Hplaced Hin).
Qed.

(** X14: when the run is not aborted (no negative padding, layers of at
    least one pixel), any two textures of the map are at least [pad]
    apart, across or down; in particular they do not overlap. *)
Theorem plugin_textures_separated (layers ls : list (Layer Name))
    (only_visible pow2 : bool) (max_w max_h pad img_w img_h : Z)
    (trs : list (TextureRect UName)) :
  0 <= pad -> Forall proper_layer layers ->
  generate_atlas_and_map decode layers only_visible pow2 max_w max_h pad
    = Ok (Some (img_w, img_h, ls, trs)) ->
  forall (i j : nat) (t1 t2 : TextureRect UName),
    i <> j -> trs !! i = Some t1 -> trs !! j = Some t2 ->
    separated pad t1 t2.
Proof.
  intros Hpad Hlayers Hrun i j t1 t2 Hij Ht1 Ht2.
  destruct (generate_atlas_and_map_rects decode _ _ _ _ _ _ _ _ _ _
              Hpad Hlayers Hrun)
    as (rects & Hplaced & _ & Hdisj & Hrows & Hafter).
  pose proof (rows_proper only_visible layers ls trs Hlayers Hafter Hrows)
    as Hpos.
  rewrite Forall_forall in Hpos.
  pose proof (Hpos t1 (list_elem_of_lookup_2 _ _ _ Ht1)) as [Hw1 Hh1].
  pose proof (Hpos t2 (list_elem_of_lookup_2 _ _ _ Ht2)) as [Hw2 Hh2].
  destruct (Forall2_lookup_l _ _ _ _ _ Hplaced Ht1)
    as (r1 & Hr1 & Hx1 & Hy1 & Hrw1 & Hrh1).
  destruct (Forall2_lookup_l _ _ _ _ _ Hplaced Ht2)
    as (r2 & Hr2 & Hx2 & Hy2 & Hrw2 & Hrh2).
  pose proof (Hdisj i j r1 r2 Hij Hr1 Hr2) as H12.
  apply boxes_disjoint_apart in H12; [|lia..].
  unfold separated. lia.
Qed.



End PluginProperties.

(** The size rule: the preferred size, or with [pow2] the power of two
    next to it. *)
Lemma image_size_rule (pow2 : bool) (n : Z) :
  1 <= n ->
  exists r : Z,
    (if pow2 then nearest_pow2 n else Ok n) = Ok r /\
    n <= r < 2 * n /\
    (pow2 = true -> is_pow2 r) /\ (pow2 = false -> r = n).
Proof.
  intros Hn. destruct pow2.
  2:{ exists n. split; [reflexivity|]. split; [lia|].
      split; [discriminate | reflexivity]. }
  rewrite nearest_pow2_value by assumption.
  pose proof (Z.log2_nonneg n) as HL.
  pose proof (Z.log2_spec n ltac:(lia)) as [Hlo Hhi].
  replace (Z.succ (Z.log2 n)) with (Z.log2 n + 1) in Hhi by lia.
  eexists. split; [reflexivity|].
  destruct (Z.eqb_spec n (2 ^ Z.log2 n)) as [Heq|Hne].
  - split; [lia|]. split; [|discriminate].
    intros _. exists (Z.log2 n). auto.
  - split; [rewrite Z.pow_add_r in * by lia; lia|].
    split; [|discriminate].
    intros _. exists (Z.log2 n + 1). split; [lia | reflexivity].
Qed.

Section PluginRuns.

Context {Name UName : Type}.
Variable decode : Name -> UName.

(** X17: for preferred sizes of at least 1, no negative padding and
    layers of at least one pixel, the plug-in's layout always comes to an
    end, with a layout or with the abort, never with an error of the
    packer; a layout has the preferred image size, or with [pow2] the
    powers of two next above (at least the preferred size, less than twice
    it). *)
Theorem plugin_returns (layers : list (Layer Name))
    (only_visible pow2 : bool) (max_w max_h pad : Z) :
  1 <= max_w -> 1 <= max_h -> 0 <= pad -> Forall proper_layer layers ->
  exists res,
    generate_atlas_and_map decode layers only_visible pow2 max_w max_h pad
      = Ok res /\
    match res with
    | None => True
    | Some (img_w, img_h, _, _) =>
        max_w <= img_w < 2 * max_w /\ max_h <= img_h < 2 * max_h /\
        (pow2 = true -> is_pow2 img_w /\ is_pow2 img_h) /\
        (pow2 = false -> img_w = max_w /\ img_h = max_h)
    end.
Proof.
  intros Hmw Hmh Hpad Hlayers. unfold generate_atlas_and_map.
  destruct (image_size_rule pow2 max_w Hmw) as (iw & -> & Hiw & Hpw & Hnw).
  destruct (image_size_rule pow2 max_h Hmh) as (ih & -> & Hih & Hph & Hnh).
  rewrite !bind_Ok_l.
  destruct (pack_layers_returns decode only_visible pad layers Hpad Hlayers
              (new_packer iw ih) [] (new_packer_wf iw ih ltac:(lia)))
    as (res & ->).
  rewrite bind_Ok_l.
  destruct res as [[[ls trs] pk]|]; eexists; (split; [reflexivity|]);
    [|exact I].
  split; [exact Hiw|]. split; [exact Hih|]. split; intros Hp; auto.
Qed.

(** X18: a layer to be packed that, with its padding, is wider than the
    image or at least as high as the image makes the plug-in abort: no
    layout, whatever the other layers are. *)
Theorem plugin_aborts_on_oversized (layers : list (Layer Name))
    (only_visible pow2 : bool) (max_w max_h pad img_w img_h : Z)
    (l : Layer Name) :
  1 <= max_w -> 1 <= max_h -> 0 <= pad -> Forall proper_layer layers ->
  (if pow2 then nearest_pow2 max_w else Ok max_w) = Ok img_w ->
  (if pow2 then nearest_pow2 max_h else Ok max_h) = Ok img_h ->
  l ∈ layers -> processed only_visible l = true ->
  img_w < Layer_width l + pad \/ img_h <= Layer_height l + pad ->
  generate_atlas_and_map decode layers only_visible pow2 max_w max_h pad
    = Ok None.
Proof.
  intros Hmw Hmh Hpad Hlayers Hiw Hih Hl Hproc Hbig.
  destruct (image_size_rule pow2 max_w Hmw) as (iw & Hiw' & Hiwb & _).
  destruct (image_size_rule pow2 max_h Hmh) as (ih & Hih' & Hihb & _).
  rewrite Hiw in Hiw'. injection Hiw' as <-.
  rewrite Hih in Hih'. injection Hih' as <-.
  destruct (pack_layers_returns decode only_visible pad layers Hpad Hlayers
              (new_packer img_w img_h) []
              (new_packer_wf img_w img_h ltac:(lia))) as (res & Hloop).
  assert (Hgen :
    generate_atlas_and_map decode layers only_visible pow2 max_w max_h pad
    = Ok (match res with
          | Some (ls, trs, _) => Some (img_w, img_h, ls, trs)
          | None => None
          end)).
  { unfold generate_atlas_and_map.
    rewrite Hiw, Hih, !bind_Ok_l, Hloop, bind_Ok_l. reflexivity. }
  destruct res as [[[ls trs] pk]|]; [exfalso | exact Hgen].
  destruct (generate_atlas_and_map_rects decode _ _ _ _ _ _ _ _ _ _
              Hpad Hlayers Hgen)
    as (rects & Hplaced & Hin & _ & Hrows & Hafter).
  pose proof (placed_inside_image pad img_w img_h trs rects Hplaced Hin)
    as Himg.
  (* the layer's row *)
  apply list_elem_of_lookup in Hl as [i Hi].
  destruct (Forall2_lookup_l _ _ _ _ _ Hafter Hi)
    as (l' & Hl' & Hw' & Hh' & _ & Hvis & _).
  rewrite Hproc in Hvis.
  assert (Hin' : l' ∈ List.filter Layer_visible ls).
  { apply list_elem_of_In, filter_In. split; [|exact Hvis].
    apply list_elem_of_In. eapply list_elem_of_lookup_2. exact Hl'. }
  apply list_elem_of_lookup in Hin' as [k Hk].
  destruct (Forall2_lookup_l _ _ _ _ _ Hrows Hk)
    as (t & Ht & _ & Htw & Hth & _).
  rewrite Forall_forall in Himg.
  destruct (Himg t (list_elem_of_lookup_2 _ _ _ Ht)) as (Hx & Hy & HxW & HyH).
  lia.
Qed.

End PluginRuns.

(** ** The sample image *)

Lemma plugin_textures_inside_image_witness :
  0 <= 1 /\ Forall proper_layer sample_layers /\
  generate_atlas_and_map (fun n : nat => n) sample_layers true true 10 10 1
    = Ok (Some (16, 16, sample_layers_after, sample_rows)) /\
  Forall (inside_image 16 16 1) sample_rows.
Proof.
  assert (Hpad : 0 <= 1) by lia.
  assert (Hlayers : Forall proper_layer sample_layers).
  { repeat constructor; simpl; lia. }
  assert (Hrun :
    generate_atlas_and_map (fun n : nat => n) sample_layers true true 10 10 1
    = Ok (Some (16, 16, sample_layers_after, sample_rows))) by reflexivity.
  split; [exact Hpad|]. split; [exact Hlayers|]. split; [exact Hrun|].
  exact (plugin_textures_inside_image (fun n : nat => n) _ _ _ _ _ _ _ _ _ _
           Hpad Hlayers Hrun).
Defined.

Lemma plugin_textures_separated_witness :
  0 <= 1 /\ Forall proper_layer sample_layers /\
  generate_atlas_and_map (fun n : nat => n) sample_layers true true 10 10 1
    = Ok (Some (16, 16, sample_layers_after, sample_rows)) /\
  forall (i j : nat) (t1 t2 : TextureRect nat),
    i <> j -> sample_rows !! i = Some t1 -> sample_rows !! j = Some t2 ->
    separated 1 t1 t2.
Proof.
  assert (Hpad : 0 <= 1) by lia.
  assert (Hlayers : Forall proper_layer sample_layers).
  { repeat constructor; simpl; lia. }
  assert (Hrun :
    generate_atlas_and_map (fun n : nat => n) sample_layers true true 10 10 1
    = Ok (Some (16, 16, sample_layers_after, sample_rows))) by reflexivity.
  split; [exact Hpad|]. split; [exact Hlayers|]. split; [exact Hrun|].
  exact (plugin_textures_separated (fun n : nat => n) _ _ _ _ _ _ _ _ _ _
           Hpad Hlayers Hrun).
Defined.



Lemma plugin_returns_witness :
  1 <= 10 /\ 1 <= 10 /\ 0 <= 1 /\ Forall proper_layer sample_layers /\
  exists res,
    generate_atlas_and_map (fun n : nat => n) sample_layers true true 10 10 1
      = Ok res /\
    match res with
    | None => True
    | Some (img_w, img_h, _, _) =>
        10 <= img_w < 2 * 10 /\ 10 <= img_h < 2 * 10 /\
        (true = true -> is_pow2 img_w /\ is_pow2 img_h) /\
        (true = false -> img_w = 10 /\ img_h = 10)
    end.
Proof.
  assert (Hlayers : Forall proper_layer sample_layers).
  { repeat constructor; simpl; lia. }
  split; [lia|]. split; [lia|]. split; [lia|]. split; [exact Hlayers|].
  apply (plugin_returns (fun n : nat => n) sample_layers true true 10 10 1);
    [lia | lia | lia | exact Hlayers].
Defined.

Lemma plugin_aborts_on_oversized_witness :
  1 <= 8 /\ 1 <= 10 /\ 0 <= 1 /\ Forall proper_layer sample_layers /\
  (if false then nearest_pow2 8 else Ok 8) = Ok 8 /\
  (if false then nearest_pow2 10 else Ok 10) = Ok 10 /\
  mkLayer 9 2 true (0, 0) 4%nat ∈ sample_layers /\
  processed true (mkLayer 9 2 true (0, 0) 4%nat) = true /\
  (8 < Layer_width (mkLayer 9 2 true (0, 0) 4%nat) + 1 \/
   10 <= Layer_height (mkLayer 9 2 true (0, 0) 4%nat) + 1) /\
  generate_atlas_and_map (fun n : nat => n) sample_layers true false 8 10 1
    = Ok None.
Proof.
  assert (Hlayers : Forall proper_layer sample_layers).
  { repeat constructor; simpl; lia. }
  assert (Hl : mkLayer 9 2 true (0, 0) 4%nat ∈ sample_layers).
  { apply (list_elem_of_lookup_2 sample_layers 3). reflexivity. }
  assert (Hbig : 8 < Layer_width (mkLayer 9 2 true (0, 0) 4%nat) + 1 \/
                 10 <= Layer_height (mkLayer 9 2 true (0, 0) 4%nat) + 1).
  { left. simpl. lia. }
  split; [lia|]. split; [lia|]. split; [lia|]. split; [exact Hlayers|].
  split; [reflexivity|]. split; [reflexivity|]. split; [exact Hl|].
  split; [reflexivity|]. split; [exact Hbig|].
  apply (plugin_aborts_on_oversized (fun n : nat => n) sample_layers true
           false 8 10 1 8 10 (mkLayer 9 2 true (0, 0) 4%nat));
    [lia | lia | lia | exact Hlayers | reflexivity | reflexivity | exact Hl
    | reflexivity | exact Hbig].
Defined.

(** With hidden layers asked for too, the hidden layer of the sample is
    made visible and packed. *)
Example plugin_hidden_layers :
  generate_atlas_and_map (fun n : nat => n) sample_layers false true 10 10 0
  = Ok (Some (16, 16,
          [mkLayer 4 3 true (0, 0) 1%nat; mkLayer 2 2 true (4, 0) 2%nat;
           mkLayer 4 3 true (6, 0) 3%nat; mkLayer 9 2 true (0, 3) 4%nat],
          [mkTextureRect 0 0 4 3 1%nat; mkTextureRect 4 0 2 2 2%nat;
           mkTextureRect 6 0 4 3 3%nat; mkTextureRect 0 3 9 2 4%nat])).
Proof. reflexivity. Qed.
